(** * Analytics service of the serverless data pipeline

    A shallow embedding of the JavaScript sources of the analytics Lambda
    ([AnalyticsService], its API Gateway handler), of the job service
    ([JobService.updateJobStatus]), of the ingestion Lambda, of the database
    service and of the query API,
    together with the fragment of the JavaScript runtime they rely on:
    strings as sequences of UTF-16 code units, JSON values with
    [JSON.stringify] / [JSON.parse], regular expressions, the clock, and the
    three stores the code talks to (S3, PostgreSQL, DynamoDB). *)

From Stdlib Require Import ZArith NArith List String Ascii Lia Bool.
From Stdlib Require Import DecimalFacts DecimalPos DecimalN.
From stdpp Require Import gmap list.

Set Default Proof Using "Type".
Local Open Scope Z_scope.

(** ** JavaScript strings

    A JavaScript string is a sequence of UTF-16 code units; [s.length]
    counts code units. *)

Abbreviation jsstring := (list N).

Definition chr (a : ascii) : N := N_of_ascii a.

(** An ASCII literal of the source text, as a JavaScript string. *)
Definition lit (s : string) : jsstring := List.map chr (list_ascii_of_string s).

Definition js_length (s : jsstring) : Z := Z.of_nat (length s).

Definition is_high_surrogate (c : N) : bool := ((55296 <=? c) && (c <=? 56319))%N.
Definition is_low_surrogate (c : N) : bool := ((56320 <=? c) && (c <=? 57343))%N.


(** [s.includes(p)], [s.startsWith(p)]. *)
Fixpoint starts_with (p s : jsstring) : bool :=
  match p, s with
  | [], _ => true
  | _ :: _, [] => false
  | a :: p', b :: s' => (a =? b)%N && starts_with p' s'
  end.

Fixpoint includes (s p : jsstring) : bool :=
  starts_with p s ||
  match s with
  | [] => false
  | _ :: t => includes t p
  end.

(** [parts.join(sep)] on strings. *)
Fixpoint join (sep : jsstring) (parts : list jsstring) : jsstring :=
  match parts with
  | [] => []
  | [p] => p
  | p :: ps => p ++ sep ++ join sep ps
  end.

(** [s.split('/').pop()]: the part of [s] after its last occurrence of the
    separator (all of [s] when there is none). *)
Fixpoint split_pop (sep : N) (s : jsstring) : jsstring :=
  match s with
  | [] => []
  | c :: t => if (c =? sep)%N then split_pop sep t
              else if existsb (N.eqb sep) t then split_pop sep t
              else s
  end.

(** ** Numbers

    Numbers are modelled by the integers; [String(n)] of an integer is its
    decimal representation with a leading minus for negatives. *)

Fixpoint uint_chars (d : Decimal.uint) : jsstring :=
  match d with
  | Decimal.Nil => []
  | Decimal.D0 u => 48%N :: uint_chars u
  | Decimal.D1 u => 49%N :: uint_chars u
  | Decimal.D2 u => 50%N :: uint_chars u
  | Decimal.D3 u => 51%N :: uint_chars u
  | Decimal.D4 u => 52%N :: uint_chars u
  | Decimal.D5 u => 53%N :: uint_chars u
  | Decimal.D6 u => 54%N :: uint_chars u
  | Decimal.D7 u => 55%N :: uint_chars u
  | Decimal.D8 u => 56%N :: uint_chars u
  | Decimal.D9 u => 57%N :: uint_chars u
  end.

Definition nat_digits (n : N) : jsstring := uint_chars (N.to_uint n).

Definition number_to_string (z : Z) : jsstring :=
  match z with
  | Z0 => nat_digits 0
  | Zpos p => nat_digits (Npos p)
  | Zneg p => chr "-" :: nat_digits (Npos p)
  end.

(** ** JSON values *)

Inductive json : Type :=
| JNull
| JBool (b : bool)
| JNum (z : Z)
| JStr (s : jsstring)
| JArr (items : list json)
| JObj (props : list (jsstring * json)).

(** An object literal of the source: a property whose value is [undefined]
    ([None]) is dropped, as [JSON.stringify] and the Lambda runtime drop it. *)
Fixpoint js_object (fields : list (jsstring * option json)) : list (jsstring * json) :=
  match fields with
  | [] => []
  | (k, Some v) :: rest => (k, v) :: js_object rest
  | (_, None) :: rest => js_object rest
  end.

Fixpoint lookup_prop (k : jsstring) (props : list (jsstring * json)) : option json :=
  match props with
  | [] => None
  | (k', v) :: rest => if decide (k' = k) then Some v else lookup_prop k rest
  end.

(** [o[k] = v] on an object: an existing property keeps its place. *)
Fixpoint set_prop (k : jsstring) (v : json) (props : list (jsstring * json))
  : list (jsstring * json) :=
  match props with
  | [] => [(k, v)]
  | (k', v') :: rest =>
      if decide (k' = k) then (k, v) :: rest else (k', v') :: set_prop k v rest
  end.

(** *** JSON.stringify *)

Definition hex_digit (d : N) : N :=
  (if d <? 10 then 48 + d else 87 + d)%N.

Definition unicode_escape (c : N) : jsstring :=
  chr "\" :: chr "u" ::
  hex_digit (c / 4096) :: hex_digit ((c / 256) mod 16) ::
  hex_digit ((c / 16) mod 16) :: [hex_digit (c mod 16)].

(** One code unit that is not the first half of a surrogate pair. *)
Definition quote_unit (c : N) : jsstring :=
  if (c =? 8)%N then lit "\b"
  else if (c =? 9)%N then lit "\t"
  else if (c =? 10)%N then lit "\n"
  else if (c =? 12)%N then lit "\f"
  else if (c =? 13)%N then lit "\r"
  else if (c =? 34)%N then [chr "\"; 34%N]
  else if (c =? 92)%N then lit "\\"
  else if (c <? 32)%N then unicode_escape c
  else if is_high_surrogate c || is_low_surrogate c then unicode_escape c
  else [c].

Fixpoint quote_units (s : jsstring) : jsstring :=
  match s with
  | [] => []
  | c :: t =>
      if is_high_surrogate c then
        match t with
        | d :: t' =>
            if is_low_surrogate d then c :: d :: quote_units t'
            else unicode_escape c ++ quote_units t
        | [] => unicode_escape c
        end
      else quote_unit c ++ quote_units t
  end.

(** QuoteJSONString. *)
Definition quote (s : jsstring) : jsstring := 34%N :: quote_units s ++ [34%N].

(** SerializeJSONProperty with the [gap] of the call and the current
    [indent]. *)
Fixpoint serialize (gap indent : jsstring) (v : json) : jsstring :=
  match v with
  | JNull => lit "null"
  | JBool true => lit "true"
  | JBool false => lit "false"
  | JNum z => number_to_string z
  | JStr s => quote s
  | JArr items =>
      let stepback := indent in
      let indent := indent ++ gap in
      match List.map (serialize gap indent) items with
      | [] => lit "[]"
      | partial =>
          match gap with
          | [] => lit "[" ++ join (lit ",") partial ++ lit "]"
          | _ => lit "[" ++ 10%N :: indent
                 ++ join (lit "," ++ 10%N :: indent) partial
                 ++ 10%N :: stepback ++ lit "]"
          end
      end
  | JObj props =>
      let stepback := indent in
      let indent := indent ++ gap in
      let member (kv : jsstring * json) :=
        quote (fst kv) ++ lit ":"
        ++ match gap with [] => [] | _ => lit " " end
        ++ serialize gap indent (snd kv) in
      match List.map member props with
      | [] => lit "{}"
      | partial =>
          match gap with
          | [] => lit "{" ++ join (lit ",") partial ++ lit "}"
          | _ => lit "{" ++ 10%N :: indent
                 ++ join (lit "," ++ 10%N :: indent) partial
                 ++ 10%N :: stepback ++ lit "}"
          end
      end
  end.

(** [JSON.stringify(v)] and [JSON.stringify(v, null, 2)]. *)
Definition JSON_stringify (v : json) : jsstring := serialize [] [] v.
Definition JSON_stringify_2 (v : json) : jsstring := serialize (lit "  ") [] v.


(** *** JSON.parse

    The JSON grammar on code units. Numbers of the model are integers: a
    text with a fraction or an exponent is outside the model and refused. *)

Definition is_ws (c : N) : bool :=
  ((c =? 32) || (c =? 9) || (c =? 10) || (c =? 13))%N.

Fixpoint skip_ws (s : jsstring) : jsstring :=
  match s with
  | c :: t => if is_ws c then skip_ws t else s
  | [] => []
  end.

Definition hex_value (c : N) : option N :=
  (if (48 <=? c) && (c <=? 57) then Some (c - 48)
   else if (97 <=? c) && (c <=? 102) then Some (c - 87)
   else if (65 <=? c) && (c <=? 70) then Some (c - 55)
   else None)%N.

Definition hex4_value (a b c d : N) : option N :=
  match hex_value a, hex_value b, hex_value c, hex_value d with
  | Some x, Some y, Some z, Some w => Some (((x * 16 + y) * 16 + z) * 16 + w)%N
  | _, _, _, _ => None
  end.

Definition simple_escape (e : N) : option N :=
  (if e =? 34 then Some 34
   else if e =? 92 then Some 92
   else if e =? 47 then Some 47
   else if e =? 98 then Some 8
   else if e =? 102 then Some 12
   else if e =? 110 then Some 10
   else if e =? 114 then Some 13
   else if e =? 116 then Some 9
   else None)%N.

Definition cons_unit (c : N) (r : option (jsstring * jsstring)) : option (jsstring * jsstring) :=
  match r with
  | Some (s, rest) => Some (c :: s, rest)
  | None => None
  end.

(** The characters of a string literal after its opening quote, up to and
    including the closing quote. *)
Fixpoint parse_string_body (s : jsstring) : option (jsstring * jsstring) :=
  match s with
  | [] => None
  | c :: t =>
      if (c =? 34)%N then Some ([], t)
      else if (c =? 92)%N then
        match t with
        | [] => None
        | e :: t1 =>
            if (e =? 117)%N then
              match t1 with
              | h1 :: h2 :: h3 :: h4 :: t2 =>
                  match hex4_value h1 h2 h3 h4 with
                  | Some u => cons_unit u (parse_string_body t2)
                  | None => None
                  end
              | _ => None
              end
            else
              match simple_escape e with
              | Some u => cons_unit u (parse_string_body t1)
              | None => None
              end
        end
      else if (c <? 32)%N then None
      else cons_unit c (parse_string_body t)
  end.

Definition digit_of (c : N) : option (Decimal.uint -> Decimal.uint) :=
  (if c =? 48 then Some Decimal.D0
   else if c =? 49 then Some Decimal.D1
   else if c =? 50 then Some Decimal.D2
   else if c =? 51 then Some Decimal.D3
   else if c =? 52 then Some Decimal.D4
   else if c =? 53 then Some Decimal.D5
   else if c =? 54 then Some Decimal.D6
   else if c =? 55 then Some Decimal.D7
   else if c =? 56 then Some Decimal.D8
   else if c =? 57 then Some Decimal.D9
   else None)%N.

Fixpoint read_uint (s : jsstring) : Decimal.uint * jsstring :=
  match s with
  | [] => (Decimal.Nil, [])
  | c :: t =>
      match digit_of c with
      | Some d => let (u, r) := read_uint t in (d u, r)
      | None => (Decimal.Nil, s)
      end
  end.

(** The integer part of a JSON number: a single 0, or digits without a
    leading zero. *)
Definition parse_nat (s : jsstring) : option (N * jsstring) :=
  let (u, r) := read_uint s in
  match u with
  | Decimal.Nil => None
  | Decimal.D0 Decimal.Nil => Some (0%N, r)
  | Decimal.D0 _ => None
  | _ => Some (N.of_uint u, r)
  end.

Definition starts_fraction (s : jsstring) : bool :=
  match s with
  | c :: _ => ((c =? 46) || (c =? 101) || (c =? 69))%N
  | [] => false
  end.

Definition parse_number (s : jsstring) : option (Z * jsstring) :=
  match s with
  | [] => None
  | c :: t =>
      if (c =? 45)%N then
        match parse_nat t with
        | Some (n, r) => if starts_fraction r then None else Some (- Z.of_N n, r)
        | None => None
        end
      else
        match parse_nat s with
        | Some (n, r) => if starts_fraction r then None else Some (Z.of_N n, r)
        | None => None
        end
  end.

(** Properties are defined in text order; a repeated key overwrites. *)
Definition object_of_members (ms : list (jsstring * json)) : json :=
  JObj (fold_left (fun o kv => set_prop (fst kv) (snd kv) o) ms []).

(** The text after the token [k], when [k] is the next token. *)
Definition next_is (k : N) (s : jsstring) : option jsstring :=
  match skip_ws s with
  | c :: r => if (c =? k)%N then Some r else None
  | [] => None
  end.

Fixpoint parse_value (fuel : nat) (s : jsstring) {struct fuel}
  : option (json * jsstring) :=
  match fuel with
  | O => None
  | S fuel =>
      match skip_ws s with
      | [] => None
      | c :: t =>
          if (c =? 123)%N then
            match next_is 125 t with
            | Some r => Some (JObj [], r)
            | None =>
                match parse_members fuel t with
                | Some (ms, r) => Some (object_of_members ms, r)
                | None => None
                end
            end
          else if (c =? 91)%N then
            match next_is 93 t with
            | Some r => Some (JArr [], r)
            | None =>
                match parse_elements fuel t with
                | Some (vs, r) => Some (JArr vs, r)
                | None => None
                end
            end
          else if (c =? 34)%N then
            match parse_string_body t with
            | Some (str, r) => Some (JStr str, r)
            | None => None
            end
          else if starts_with (lit "null") (c :: t) then Some (JNull, skipn 3 t)
          else if starts_with (lit "true") (c :: t) then Some (JBool true, skipn 3 t)
          else if starts_with (lit "false") (c :: t) then Some (JBool false, skipn 4 t)
          else
            match parse_number (c :: t) with
            | Some (z, r) => Some (JNum z, r)
            | None => None
            end
      end
  end
with parse_elements (fuel : nat) (s : jsstring) {struct fuel}
  : option (list json * jsstring) :=
  match fuel with
  | O => None
  | S fuel =>
      match parse_value fuel s with
      | Some (v, r) =>
          match next_is 44 r with
          | Some r' =>
              match parse_elements fuel r' with
              | Some (vs, r'') => Some (v :: vs, r'')
              | None => None
              end
          | None =>
              match next_is 93 r with
              | Some r' => Some ([v], r')
              | None => None
              end
          end
      | None => None
      end
  end
with parse_members (fuel : nat) (s : jsstring) {struct fuel}
  : option (list (jsstring * json) * jsstring) :=
  match fuel with
  | O => None
  | S fuel =>
      match next_is 34 s with
      | Some t =>
          match parse_string_body t with
          | Some (k, r) =>
              match next_is 58 r with
              | Some r1 =>
                  match parse_value fuel r1 with
                  | Some (v, r2) =>
                      match next_is 44 r2 with
                      | Some r3 =>
                          match parse_members fuel r3 with
                          | Some (ms, r4) => Some ((k, v) :: ms, r4)
                          | None => None
                          end
                      | None =>
                          match next_is 125 r2 with
                          | Some r3 => Some ([(k, v)], r3)
                          | None => None
                          end
                      end
                  | None => None
                  end
              | None => None
              end
          | None => None
          end
      | None => None
      end
  end.

(** [JSON.parse(text)]; [None] stands for the SyntaxError it throws. *)
Definition JSON_parse (text : jsstring) : option json :=
  match parse_value (S (length text)) text with
  | Some (v, r) => match skip_ws r with [] => Some v | _ :: _ => None end
  | None => None
  end.


(** Values as the runtime has them: the keys of an object are distinct. *)
Fixpoint distinct (l : list jsstring) : bool :=
  match l with
  | [] => true
  | k :: r => negb (existsb (fun k' => bool_decide (k' = k)) r) && distinct r
  end.

Fixpoint wf_json (v : json) : bool :=
  match v with
  | JArr items => forallb wf_json items
  | JObj props =>
      distinct (List.map fst props) && forallb (fun kv => wf_json (snd kv)) props
  | _ => true
  end.

(** Structural size, used as parsing fuel. *)
Fixpoint weight (v : json) : nat :=
  match v with
  | JArr items => S (list_sum (List.map (fun x => S (weight x)) items))
  | JObj props => S (list_sum (List.map (fun kv => S (weight (snd kv))) props))
  | _ => 1
  end.

(** ** Facts about the runtime fragment *)

Section json_induction.
Variable P : json -> Prop.
Hypothesis Hnull : P JNull.
Hypothesis Hbool : forall b, P (JBool b).
Hypothesis Hnum : forall z, P (JNum z).
Hypothesis Hstr : forall s, P (JStr s).
Hypothesis Harr : forall items, Forall P items -> P (JArr items).
Hypothesis Hobj : forall props, Forall (fun kv => P (snd kv)) props -> P (JObj props).

Fixpoint json_nested_ind (v : json) : P v :=
  match v with
  | JNull => Hnull
  | JBool b => Hbool b
  | JNum z => Hnum z
  | JStr s => Hstr s
  | JArr items =>
      Harr items
        ((fix go (l : list json) : Forall P l :=
            match l with
            | [] => List.Forall_nil P
            | x :: r => @List.Forall_cons _ P x r (json_nested_ind x) (go r)
            end) items)
  | JObj props =>
      Hobj props
        ((fix go (l : list (jsstring * json)) : Forall (fun kv => P (snd kv)) l :=
            match l with
            | [] => List.Forall_nil _
            | kv :: r =>
                @List.Forall_cons _ (fun kv => P (snd kv)) kv r (json_nested_ind (snd kv)) (go r)
            end) props)
  end.
End json_induction.



Lemma skip_ws_app (w s : jsstring) :
  forallb is_ws w = true -> skip_ws (w ++ s) = skip_ws s.
Proof.
  induction w as [|c w IH]; simpl; [reflexivity|].
  intros H. apply andb_true_iff in H as [Hc Hw]. rewrite Hc. auto.
Qed.

Lemma skip_ws_cons (c : N) (s : jsstring) :
  is_ws c = false -> skip_ws (c :: s) = c :: s.
Proof. intros H. simpl. now rewrite H. Qed.

Lemma hex_value_digit (d : N) : (d < 16)%N -> hex_value (hex_digit d) = Some d.
Proof.
  intros H.
  assert (d = 0 \/ d = 1 \/ d = 2 \/ d = 3 \/ d = 4 \/ d = 5 \/ d = 6 \/ d = 7
          \/ d = 8 \/ d = 9 \/ d = 10 \/ d = 11 \/ d = 12 \/ d = 13 \/ d = 14
          \/ d = 15)%N as Hd by lia.
  repeat (destruct Hd as [-> | Hd]; [reflexivity|]). subst. reflexivity.
Qed.

Lemma hex4_value_escape (c : N) :
  (c < 65536)%N ->
  hex4_value (hex_digit (c / 4096)) (hex_digit ((c / 256) mod 16))
             (hex_digit ((c / 16) mod 16)) (hex_digit (c mod 16)) = Some c.
Proof.
  intros H. unfold hex4_value.
  rewrite !hex_value_digit.
  - f_equal.
    pose proof (N.div_mod c 16 ltac:(lia)) as H0.
    pose proof (N.div_mod (c / 16) 16 ltac:(lia)) as H1.
    pose proof (N.div_mod (c / 256) 16 ltac:(lia)) as H2.
    replace (c / 256)%N with (c / 16 / 16)%N in * by (rewrite N.Div0.div_div; reflexivity).
    replace (c / 4096)%N with (c / 16 / 16 / 16)%N by (rewrite !N.Div0.div_div; reflexivity).
    lia.
  - apply N.mod_lt; lia.
  - apply N.mod_lt; lia.
  - apply N.mod_lt; lia.
  - apply N.Div0.div_lt_upper_bound; lia.
Qed.

Lemma parse_unicode_escape (c : N) (x : jsstring) :
  (c < 65536)%N ->
  parse_string_body (unicode_escape c ++ x) = cons_unit c (parse_string_body x).
Proof.
  intros H. unfold unicode_escape. cbn [app parse_string_body].
  change (chr "\" =? 34)%N with false. change (chr "\" =? 92)%N with true.
  change (chr "u" =? 117)%N with true. cbv iota.
  now rewrite hex4_value_escape.
Qed.

Lemma parse_quote_unit (c : N) (x : jsstring) :
  parse_string_body (quote_unit c ++ x) = cons_unit c (parse_string_body x).
Proof.
  unfold quote_unit.
  repeat match goal with
         | |- context [(c =? ?k)%N] =>
             destruct (c =? k)%N eqn:?;
             [ match goal with H : (c =? k)%N = true |- _ =>
                 apply N.eqb_eq in H; subst c; reflexivity end | ]
         end.
  destruct (c <? 32)%N eqn:Hlt.
  { apply parse_unicode_escape. apply N.ltb_lt in Hlt. lia. }
  destruct (is_high_surrogate c || is_low_surrogate c) eqn:Hs.
  { apply parse_unicode_escape. unfold is_high_surrogate, is_low_surrogate in Hs.
    apply orb_true_iff in Hs as [Hs|Hs]; apply andb_true_iff in Hs as [_ Hs];
      apply N.leb_le in Hs; lia. }
  cbn [app parse_string_body].
  match goal with H : (c =? 34)%N = false |- _ => rewrite H end.
  match goal with H : (c =? 92)%N = false |- _ => rewrite H end.
  now rewrite Hlt.
Qed.

Lemma parse_quote_units (s rest : jsstring) :
  parse_string_body (quote_units s ++ 34%N :: rest) = Some (s, rest).
Proof.
  assert (H : forall n (s : jsstring), (length s <= n)%nat ->
              parse_string_body (quote_units s ++ 34%N :: rest) = Some (s, rest)).
  { clear s. induction n as [|n IH]; intros s Hn.
    - destruct s; cbn [length] in Hn; [reflexivity | lia].
    - destruct s as [|c t]; [reflexivity|].
      cbn [length] in Hn. cbn [quote_units].
      destruct (is_high_surrogate c) eqn:Hc.
      + assert (Hc' : (55296 <= c /\ c <= 56319)%N).
        { unfold is_high_surrogate in Hc. apply andb_true_iff in Hc as [H1 H2].
          apply N.leb_le in H1, H2. lia. }
        destruct t as [|d t'].
        * rewrite parse_unicode_escape by lia. reflexivity.
        * destruct (is_low_surrogate d) eqn:Hd.
          -- assert (Hd' : (56320 <= d /\ d <= 57343)%N).
             { unfold is_low_surrogate in Hd. apply andb_true_iff in Hd as [H1 H2].
               apply N.leb_le in H1, H2. lia. }
             cbn [app parse_string_body].
             replace (c =? 34)%N with false by (symmetry; apply N.eqb_neq; lia).
             replace (c =? 92)%N with false by (symmetry; apply N.eqb_neq; lia).
             replace (c <? 32)%N with false by (symmetry; apply N.ltb_ge; lia).
             replace (d =? 34)%N with false by (symmetry; apply N.eqb_neq; lia).
             replace (d =? 92)%N with false by (symmetry; apply N.eqb_neq; lia).
             replace (d <? 32)%N with false by (symmetry; apply N.ltb_ge; lia).
             rewrite IH by (cbn [length] in Hn; lia). reflexivity.
          -- rewrite <- app_assoc, parse_unicode_escape by lia.
             rewrite IH by lia. reflexivity.
      + rewrite <- app_assoc, parse_quote_unit, IH by lia. reflexivity. }
  apply (H (length s)). lia.
Qed.

(** The text that may follow a number without changing its reading. *)
Definition delimited (rest : jsstring) : bool :=
  match rest with
  | [] => true
  | c :: _ => negb ((48 <=? c) && (c <=? 57))%N && negb (starts_fraction rest)
  end.

Lemma digit_of_delimited (c : N) (t : jsstring) :
  delimited (c :: t) = true -> digit_of c = None.
Proof.
  unfold delimited. intros H. apply andb_true_iff in H as [H _].
  apply negb_true_iff in H. unfold digit_of.
  repeat match goal with
         | |- context [(c =? ?k)%N] =>
             destruct (c =? k)%N eqn:?;
             [ match goal with E : (c =? k)%N = true |- _ =>
                 apply N.eqb_eq in E; subst c; discriminate H end | ]
         end.
  reflexivity.
Qed.

Lemma read_uint_chars (u : Decimal.uint) (rest : jsstring) :
  delimited rest = true -> read_uint (uint_chars u ++ rest) = (u, rest).
Proof.
  intros Hd. induction u; cbn [uint_chars app read_uint];
    try (rewrite IHu; reflexivity).
  destruct rest as [|c t]; [reflexivity|].
  cbn [read_uint]. now rewrite (digit_of_delimited c t Hd).
Qed.

Lemma pos_to_uint_head (p : positive) :
  match Pos.to_uint p with
  | Decimal.Nil | Decimal.D0 _ => False
  | _ => True
  end.
Proof.
  pose proof (DecimalPos.Unsigned.to_uint_nonnil p) as Hnil.
  pose proof (DecimalPos.Unsigned.of_to p) as Hof.
  pose proof (DecimalPos.Unsigned.to_of (Pos.to_uint p)) as Hto.
  rewrite Hof in Hto. change (N.to_uint (N.pos p)) with (Pos.to_uint p) in Hto.
  destruct (Pos.to_uint p) as [|u| | | | | | | | |] eqn:E; try exact I; [congruence|].
  rewrite DecimalFacts.unorm_D0 in Hto.
  assert (u = Decimal.Nil \/ u <> Decimal.Nil) as [->|Hne]
    by (destruct u; [left; reflexivity | right; discriminate ..]).
  - apply (DecimalPos.Unsigned.to_uint_nonzero p). exact E.
  - pose proof (DecimalFacts.nb_digits_unorm u Hne) as Hn.
    rewrite <- Hto in Hn. cbn [Decimal.nb_digits] in Hn. lia.
Qed.

Lemma parse_nat_digits (n : N) (rest : jsstring) :
  delimited rest = true -> parse_nat (nat_digits n ++ rest) = Some (n, rest).
Proof.
  intros Hd. unfold parse_nat, nat_digits. rewrite read_uint_chars by exact Hd.
  destruct n as [|p]; [reflexivity|].
  pose proof (pos_to_uint_head p) as Hh.
  pose proof (DecimalPos.Unsigned.of_to p) as Hof.
  change (N.to_uint (N.pos p)) with (Pos.to_uint p).
  unfold N.of_uint.
  destruct (Pos.to_uint p); try contradiction; now rewrite Hof.
Qed.

Lemma delimited_no_fraction (rest : jsstring) :
  delimited rest = true -> starts_fraction rest = false.
Proof.
  destruct rest as [|c t]; [reflexivity|]. unfold delimited.
  intros H. apply andb_true_iff in H as [_ H]. now apply negb_true_iff in H.
Qed.

(** First code unit of a serialised value: never white space nor one of the
    separators of the grammar. *)
Definition value_start (c : N) : bool :=
  negb (is_ws c) && negb (c =? 93)%N && negb (c =? 125)%N
  && negb (c =? 44)%N && negb (c =? 58)%N.

Lemma nat_digits_head (n : N) :
  exists c t, nat_digits n = c :: t /\ ((48 <=? c) && (c <=? 57))%N = true.
Proof.
  unfold nat_digits. destruct n as [|p]; [now exists 48%N, []|].
  pose proof (pos_to_uint_head p) as Hh.
  change (N.to_uint (N.pos p)) with (Pos.to_uint p).
  destruct (Pos.to_uint p); try contradiction; cbn [uint_chars]; eauto.
Qed.

Lemma parse_value_number (z : Z) (rest : jsstring) (fuel : nat) :
  delimited rest = true ->
  parse_value (S fuel) (number_to_string z ++ rest) = Some (JNum z, rest).
Proof.
  intros Hd.
  assert (Hnum : parse_number (number_to_string z ++ rest) = Some (z, rest)).
  { unfold parse_number, number_to_string.
    destruct z as [|p|p].
    - destruct (nat_digits_head 0) as (c & t & E & Hc).
      pose proof (parse_nat_digits 0 rest Hd) as Hp. rewrite E in *.
      cbn [app] in *. rewrite Hp, delimited_no_fraction by exact Hd.
      apply andb_true_iff in Hc as [H1 H2]. apply N.leb_le in H1.
      replace (c =? 45)%N with false by (symmetry; apply N.eqb_neq; lia).
      reflexivity.
    - destruct (nat_digits_head (N.pos p)) as (c & t & E & Hc).
      pose proof (parse_nat_digits (N.pos p) rest Hd) as Hp. rewrite E in *.
      cbn [app] in *. rewrite Hp, delimited_no_fraction by exact Hd.
      apply andb_true_iff in Hc as [H1 H2]. apply N.leb_le in H1.
      replace (c =? 45)%N with false by (symmetry; apply N.eqb_neq; lia).
      reflexivity.
    - cbn [app]. change (chr "-" =? 45)%N with true. cbv iota.
      rewrite parse_nat_digits, delimited_no_fraction by exact Hd. reflexivity. }
  assert (Hhead : exists c t, number_to_string z ++ rest = c :: t
                    /\ (c = 45 \/ 48 <= c <= 57)%N).
  { unfold number_to_string. destruct z as [|p|p].
    - destruct (nat_digits_head 0) as (c & t & E & Hc). rewrite E.
      exists c, (t ++ rest). split; [reflexivity|]. right.
      apply andb_true_iff in Hc as [H1 H2]. apply N.leb_le in H1, H2. lia.
    - destruct (nat_digits_head (N.pos p)) as (c & t & E & Hc). rewrite E.
      exists c, (t ++ rest). split; [reflexivity|]. right.
      apply andb_true_iff in Hc as [H1 H2]. apply N.leb_le in H1, H2. lia.
    - eexists _, _. split; [reflexivity|]. now left. }
  destruct Hhead as (c & t & E & Hc). rewrite E in *.
  cbn [parse_value].
  assert (Hws : is_ws c = false).
  { unfold is_ws. rewrite !orb_false_iff. repeat split; apply N.eqb_neq; lia. }
  rewrite skip_ws_cons by exact Hws.
  replace (c =? 123)%N with false by (symmetry; apply N.eqb_neq; lia).
  replace (c =? 91)%N with false by (symmetry; apply N.eqb_neq; lia).
  replace (c =? 34)%N with false by (symmetry; apply N.eqb_neq; lia).
  cbn [starts_with lit List.map list_ascii_of_string].
  replace (chr "n" =? c)%N with false by (symmetry; apply N.eqb_neq; cbv; lia).
  replace (chr "t" =? c)%N with false by (symmetry; apply N.eqb_neq; cbv; lia).
  replace (chr "f" =? c)%N with false by (symmetry; apply N.eqb_neq; cbv; lia).
  cbn [andb]. now rewrite Hnum.
Qed.

Lemma number_to_string_head (z : Z) :
  exists c t, number_to_string z = c :: t /\ (c = 45 \/ 48 <= c <= 57)%N.
Proof.
  unfold number_to_string. destruct z as [|p|p].
  - destruct (nat_digits_head 0) as (c & t & E & Hc). exists c, t.
    split; [exact E|]. right.
    apply andb_true_iff in Hc as [H1 H2]. apply N.leb_le in H1, H2. lia.
  - destruct (nat_digits_head (N.pos p)) as (c & t & E & Hc). exists c, t.
    split; [exact E|]. right.
    apply andb_true_iff in Hc as [H1 H2]. apply N.leb_le in H1, H2. lia.
  - eexists _, _. split; [reflexivity|]. now left.
Qed.

Lemma serialize_head (gap indent : jsstring) (v : json) :
  exists c t, serialize gap indent v = c :: t /\ value_start c = true.
Proof.
  destruct v as [|[|]|z|s|items|props]; cbn [serialize];
    try (eexists _, _; split; reflexivity).
  - destruct (number_to_string_head z) as (c & t & E & Hc).
    exists c, t. split; [exact E|].
    unfold value_start, is_ws.
    rewrite !andb_true_iff, !negb_true_iff, !orb_false_iff.
    repeat split; apply N.eqb_neq; lia.
  - destruct (List.map _ items); [|destruct gap];
      eexists _, _; split; reflexivity.
  - destruct (List.map _ props); [|destruct gap];
      eexists _, _; split; reflexivity.
Qed.

Lemma value_start_spec (c : N) :
  value_start c = true ->
  is_ws c = false /\ c <> 93%N /\ c <> 125%N /\ c <> 44%N /\ c <> 58%N.
Proof.
  unfold value_start. rewrite !andb_true_iff, !negb_true_iff.
  intros ((((H1 & H2) & H3) & H4) & H5).
  repeat split; try assumption; now apply N.eqb_neq.
Qed.

Lemma next_is_skip (k : N) (w s : jsstring) :
  forallb is_ws w = true -> next_is k (w ++ s) = next_is k s.
Proof. intros H. unfold next_is. now rewrite skip_ws_app. Qed.

Lemma next_is_hit (k : N) (r : jsstring) :
  is_ws k = false -> next_is k (k :: r) = Some r.
Proof. intros H. unfold next_is. rewrite skip_ws_cons by exact H. now rewrite N.eqb_refl. Qed.

Lemma next_is_miss (k c : N) (r : jsstring) :
  is_ws c = false -> c <> k -> next_is k (c :: r) = None.
Proof.
  intros H Hne. unfold next_is. rewrite skip_ws_cons by exact H.
  now apply N.eqb_neq in Hne as ->.
Qed.

Lemma delimited_ws (w : jsstring) (c : N) (r : jsstring) :
  forallb is_ws w = true -> delimited (c :: r) = true ->
  delimited (w ++ c :: r) = true.
Proof.
  intros Hw Hc. destruct w as [|x w]; [exact Hc|].
  cbn [forallb] in Hw. apply andb_true_iff in Hw as [Hx _].
  unfold is_ws in Hx. cbn [app]. unfold delimited, starts_fraction.
  rewrite !orb_true_iff in Hx.
  destruct Hx as [[[Hx|Hx]|Hx]|Hx]; apply N.eqb_eq in Hx; subst x; reflexivity.
Qed.

Lemma set_prop_distinct (acc : list (jsstring * json)) (k : jsstring) (v : json)
      (ms : list (jsstring * json)) :
  distinct (List.map fst (acc ++ (k, v) :: ms)) = true ->
  set_prop k v acc = acc ++ [(k, v)].
Proof.
  induction acc as [|[k' v'] acc IH]; [reflexivity|].
  cbn [app List.map distinct fst]. intros H.
  apply andb_true_iff in H as [Hk Hd]. apply negb_true_iff in Hk.
  cbn [set_prop]. destruct (decide (k' = k)) as [->|Hne].
  - exfalso. rewrite List.map_app in Hk. rewrite existsb_app in Hk.
    apply orb_false_iff in Hk as [_ Hk]. cbn [List.map existsb fst] in Hk.
    apply orb_false_iff in Hk as [Hk _].
    apply bool_decide_eq_false in Hk. now apply Hk.
  - now rewrite IH.
Qed.

Lemma object_of_members_distinct (ms : list (jsstring * json)) :
  distinct (List.map fst ms) = true -> object_of_members ms = JObj ms.
Proof.
  unfold object_of_members. intros H. f_equal.
  assert (G : forall ms acc, distinct (List.map fst (acc ++ ms)) = true ->
              fold_left (fun o kv => set_prop (fst kv) (snd kv) o) ms acc = acc ++ ms).
  { clear. induction ms as [|[k v] ms IH]; intros acc Hd.
    - now rewrite app_nil_r.
    - cbn [fold_left fst snd]. rewrite (set_prop_distinct acc k v ms Hd).
      rewrite IH; rewrite <- app_assoc; [reflexivity | exact Hd]. }
  now apply (G ms []).
Qed.

Lemma parse_value_skip (fuel : nat) (w s : jsstring) :
  forallb is_ws w = true -> parse_value fuel (w ++ s) = parse_value fuel s.
Proof. intros H. destruct fuel; cbn [parse_value]; [reflexivity|]. now rewrite skip_ws_app. Qed.

Lemma join_cons (sep p q : jsstring) (ps : list jsstring) :
  join sep (p :: q :: ps) = p ++ sep ++ join sep (q :: ps).
Proof. reflexivity. Qed.

Definition roundtrips (v : json) : Prop :=
  forall gap indent w rest fuel,
    forallb is_ws gap = true -> forallb is_ws indent = true ->
    forallb is_ws w = true -> delimited rest = true ->
    (weight v <= fuel)%nat -> wf_json v = true ->
    parse_value fuel (w ++ serialize gap indent v ++ rest) = Some (v, rest).

Lemma parse_elements_join (items : list json) :
  Forall roundtrips items -> items <> [] ->
  forall gap indent w0 w1 w2 rest fuel,
    forallb is_ws gap = true -> forallb is_ws indent = true ->
    forallb is_ws w0 = true -> forallb is_ws w1 = true -> forallb is_ws w2 = true ->
    (list_sum (List.map (fun x => S (weight x)) items) <= fuel)%nat ->
    forallb wf_json items = true ->
    parse_elements fuel
      (w0 ++ join (44%N :: w1) (List.map (serialize gap indent) items)
          ++ w2 ++ 93%N :: rest) = Some (items, rest).
Proof.
  induction 1 as [|a l Ha Hl IH]; [congruence|]. intros _.
  intros gap indent w0 w1 w2 rest fuel Hgap Hind Hw0 Hw1 Hw2 Hfuel Hwf.
  cbn [List.map list_sum fold_right] in Hfuel. cbn [forallb] in Hwf.
  apply andb_true_iff in Hwf as [Hwfa Hwfl].
  destruct fuel as [|fuel]; [lia|]. cbn [parse_elements].
  destruct l as [|b l'].
  - cbn [List.map join].
    rewrite (Ha gap indent w0 (w2 ++ 93%N :: rest) fuel); try assumption;
      [|now apply delimited_ws|lia].
    rewrite next_is_skip by assumption.
    rewrite next_is_miss by (reflexivity || discriminate).
    rewrite next_is_skip by assumption.
    now rewrite next_is_hit.
  - cbn [List.map]. rewrite join_cons, <- !app_assoc. cbn [app].
    rewrite (Ha gap indent w0 _ fuel); try assumption; [|reflexivity|lia].
    rewrite next_is_hit by reflexivity.
    specialize (IH ltac:(discriminate) gap indent w1 w1 w2 rest fuel).
    cbn [List.map] in IH. rewrite IH; try assumption;
      [reflexivity|unfold list_sum in *; cbn [List.map fold_right snd] in *; lia].
Qed.

Lemma parse_members_join (props : list (jsstring * json)) :
  Forall (fun kv => roundtrips (snd kv)) props -> props <> [] ->
  forall gap indent w0 w1 w2 rest fuel,
    forallb is_ws gap = true -> forallb is_ws indent = true ->
    forallb is_ws w0 = true -> forallb is_ws w1 = true -> forallb is_ws w2 = true ->
    (list_sum (List.map (fun kv => S (weight (snd kv))) props) <= fuel)%nat ->
    forallb (fun kv => wf_json (snd kv)) props = true ->
    parse_members fuel
      (w0 ++ join (44%N :: w1)
                  (List.map (fun kv => quote (fst kv) ++ lit ":"
                               ++ match gap with [] => [] | _ => lit " " end
                               ++ serialize gap indent (snd kv)) props)
          ++ w2 ++ 125%N :: rest) = Some (props, rest).
Proof.
  induction 1 as [|[k v] l Ha Hl IH]; [congruence|]. intros _.
  intros gap indent w0 w1 w2 rest fuel Hgap Hind Hw0 Hw1 Hw2 Hfuel Hwf.
  cbn [List.map list_sum fold_right snd] in Hfuel. cbn [forallb snd] in Hwf. cbn [snd] in Ha.
  apply andb_true_iff in Hwf as [Hwfa Hwfl].
  assert (Hsp : forallb is_ws (match gap with [] => [] | _ => lit " " end) = true)
    by (destruct gap; reflexivity).
  destruct fuel as [|fuel]; [lia|]. cbn [parse_members].
  rewrite next_is_skip by assumption.
  destruct l as [|b l'].
  - cbn [List.map join fst snd]. unfold quote. cbn [app].
    rewrite next_is_hit by reflexivity.
    rewrite <- !app_assoc. cbn [app]. rewrite parse_quote_units.
    change (lit ":") with [58%N]. cbn [app].
    rewrite next_is_hit by reflexivity.
    rewrite (Ha gap indent _ (w2 ++ 125%N :: rest) fuel); try assumption;
      [|now apply delimited_ws|lia].
    rewrite next_is_skip by assumption.
    rewrite next_is_miss by (reflexivity || discriminate).
    rewrite next_is_skip by assumption.
    now rewrite next_is_hit.
  - cbn [List.map fst snd]. rewrite join_cons. unfold quote at 1. cbn [app].
    rewrite next_is_hit by reflexivity.
    rewrite <- !app_assoc. cbn [app]. rewrite parse_quote_units.
    change (lit ":") with [58%N] at 1. cbn [app].
    rewrite next_is_hit by reflexivity.
    rewrite (Ha gap indent _ _ fuel); try assumption; [|reflexivity|lia].
    rewrite next_is_hit by reflexivity.
    specialize (IH ltac:(discriminate) gap indent w1 w1 w2 rest fuel).
    cbn [List.map] in IH. rewrite <- ?app_assoc. rewrite IH; try assumption;
      [reflexivity|unfold list_sum in *; cbn [List.map fold_right snd] in *; lia].
Qed.

Lemma serialize_roundtrips (v : json) : roundtrips v.
Proof.
  induction v as [|b|z|s|items IH|props IH] using json_nested_ind;
    intros gap indent w rest fuel Hgap Hind Hw Hrest Hfuel Hwf;
    rewrite parse_value_skip by exact Hw;
    (destruct fuel as [|fuel]; [cbn [weight] in Hfuel; lia|]).
  - reflexivity.
  - destruct b; reflexivity.
  - now apply parse_value_number.
  - cbn [serialize]. unfold quote. cbn [app parse_value].
    rewrite skip_ws_cons by reflexivity.
    change (34 =? 123)%N with false. change (34 =? 91)%N with false.
    change (34 =? 34)%N with true. cbv iota.
    rewrite <- app_assoc. cbn [app]. now rewrite parse_quote_units.
  - cbn [serialize weight wf_json] in *.
    destruct items as [|a l]; [reflexivity|].
    assert (Hind' : forallb is_ws (indent ++ gap) = true)
      by (rewrite forallb_app; now rewrite Hind, Hgap).
    destruct (serialize_head gap (indent ++ gap) a) as (c & t & Ec & Hc).
    apply value_start_spec in Hc as (Hc1 & Hc2 & _).
    pose proof (parse_elements_join (a :: l) IH ltac:(discriminate)
                  gap (indent ++ gap)) as Hel.
    remember (a :: l) as items eqn:Eitems.
    assert (Hne : List.map (serialize gap (indent ++ gap)) items <> [])
      by (subst items; discriminate).
    destruct (List.map (serialize gap (indent ++ gap)) items) as [|p ps] eqn:Emap;
      [congruence|]. clear Hne.
    assert (Hmiss : forall w1 R, next_is 93 (join (44%N :: w1) (p :: ps) ++ R) = None).
    { subst items. cbn [List.map] in Emap. injection Emap as <- <-.
      rewrite Ec. intros w1 R.
      destruct l; cbn [List.map join app]; now apply next_is_miss. }
    destruct gap as [|g gap'].
    + change (lit "[") with [91%N]. change (lit ",") with [44%N].
      change (lit "]") with [93%N]. cbn [app parse_value].
      rewrite skip_ws_cons by reflexivity.
      change (91 =? 123)%N with false. change (91 =? 91)%N with true. cbv iota.
      rewrite <- app_assoc. cbn [app]. rewrite Hmiss.
      specialize (Hel [] [] [] rest fuel). cbn [app] in Hel.
      rewrite Hel; try assumption; try reflexivity. lia.
    + change (lit "[") with [91%N]. change (lit ",") with [44%N].
      change (lit "]") with [93%N]. cbn [app parse_value].
      rewrite skip_ws_cons by reflexivity.
      change (91 =? 123)%N with false. change (91 =? 91)%N with true. cbv iota.
      assert (Hw0 : forallb is_ws (10%N :: indent ++ g :: gap') = true)
        by (cbn [forallb]; now rewrite Hind').
      match goal with
      | |- context [next_is 93 ?T] =>
          replace T with ((10%N :: indent ++ g :: gap')
                ++ join (44%N :: 10%N :: indent ++ g :: gap') (p :: ps)
                ++ (10%N :: indent) ++ 93%N :: rest)
            by (repeat first [rewrite <- app_assoc | progress cbn [app]]; reflexivity)
      end.
      rewrite next_is_skip by exact Hw0.
      rewrite Hmiss.
      rewrite (Hel (10%N :: indent ++ g :: gap') (10%N :: indent ++ g :: gap')
                 (10%N :: indent) rest fuel); try assumption; try reflexivity.
      lia.
  - cbn [serialize weight wf_json] in *.
    apply andb_true_iff in Hwf as [Hdist Hwf].
    destruct props as [|a l]; [reflexivity|].
    assert (Hind' : forallb is_ws (indent ++ gap) = true)
      by (rewrite forallb_app; now rewrite Hind, Hgap).
    pose proof (parse_members_join (a :: l) IH ltac:(discriminate)
                  gap (indent ++ gap)) as Hel.
    remember (a :: l) as props eqn:Eprops.
    set (member := fun kv : jsstring * json =>
                     quote (fst kv) ++ lit ":"
                     ++ match gap with [] => [] | _ => lit " " end
                     ++ serialize gap (indent ++ gap) (snd kv)) in *.
    assert (Hne : List.map member props <> []) by (subst props; discriminate).
    destruct (List.map member props) as [|p ps] eqn:Emap; [congruence|]. clear Hne.
    assert (Hmiss : forall w1 R, next_is 125 (join (44%N :: w1) (p :: ps) ++ R) = None).
    { subst props. cbn [List.map] in Emap. injection Emap as <- <-.
      intros w1 R. unfold member at 1. unfold quote.
      destruct l; cbn [List.map join app]; now apply next_is_miss. }
    destruct gap as [|g gap'].
    + change (lit "{") with [123%N]. change (lit ",") with [44%N].
      change (lit "}") with [125%N]. cbn [app parse_value].
      rewrite skip_ws_cons by reflexivity.
      change (123 =? 123)%N with true. cbv iota.
      rewrite <- app_assoc. cbn [app]. rewrite Hmiss.
      specialize (Hel [] [] [] rest fuel). cbn [app] in Hel.
      rewrite Hel; try assumption; try reflexivity; [|lia].
      now rewrite object_of_members_distinct.
    + change (lit "{") with [123%N]. change (lit ",") with [44%N].
      change (lit "}") with [125%N]. cbn [app parse_value].
      rewrite skip_ws_cons by reflexivity.
      change (123 =? 123)%N with true. cbv iota.
      assert (Hw0 : forallb is_ws (10%N :: indent ++ g :: gap') = true)
        by (cbn [forallb]; now rewrite Hind').
      match goal with
      | |- context [next_is 125 ?T] =>
          replace T with ((10%N :: indent ++ g :: gap')
                ++ join (44%N :: 10%N :: indent ++ g :: gap') (p :: ps)
                ++ (10%N :: indent) ++ 125%N :: rest)
            by (repeat first [rewrite <- app_assoc | progress cbn [app]]; reflexivity)
      end.
      rewrite next_is_skip by exact Hw0.
      rewrite Hmiss.
      rewrite (Hel (10%N :: indent ++ g :: gap') (10%N :: indent ++ g :: gap')
                 (10%N :: indent) rest fuel); try assumption; try reflexivity; [|lia].
      now rewrite object_of_members_distinct.
Qed.

Lemma sum_le_join {A : Type} (f : A -> nat) (g : A -> jsstring) (sep : jsstring)
      (l : list A) :
  Forall (fun x => (f x <= length (g x))%nat) l -> (1 <= length sep)%nat ->
  (list_sum (List.map (fun x => S (f x)) l) <= S (length (join sep (List.map g l))))%nat.
Proof.
  intros H Hsep. induction H as [|a l Ha Hl IH]; [cbn; lia|].
  destruct l as [|b l'].
  - cbn [List.map join list_sum fold_right]. lia.
  - cbn [List.map]. rewrite join_cons. rewrite !length_app.
    cbn [List.map] in IH. unfold list_sum in *. cbn [fold_right] in *. lia.
Qed.

Lemma weight_le_length (v : json) (gap indent : jsstring) :
  (weight v <= length (serialize gap indent v))%nat.
Proof.
  revert indent.
  induction v as [|b|z|s|items IH|props IH] using json_nested_ind; intros indent.
  - cbn. lia.
  - destruct b; cbn; lia.
  - destruct (number_to_string_head z) as (c & t & E & _).
    cbn [weight serialize]. rewrite E. cbn [length]. lia.
  - cbn [weight serialize]. unfold quote. cbn [length]. lia.
  - cbn [weight serialize].
    pose proof (sum_le_join weight (serialize gap (indent ++ gap))) as Hs.
    assert (Hall : Forall (fun x => (weight x <= length (serialize gap (indent ++ gap) x))%nat) items)
      by (eapply Forall_impl; [exact IH | intros x Hx; apply Hx]).
    destruct items as [|a l]; [cbn; lia|].
    remember (a :: l) as items eqn:E.
    destruct (List.map (serialize gap (indent ++ gap)) items) as [|p ps] eqn:Em;
      [subst items; discriminate|].
    destruct gap as [|g gap'].
    + specialize (Hs (lit ",") items Hall ltac:(cbn; lia)). rewrite Em in Hs.
      rewrite !length_app. cbn [lit List.map list_ascii_of_string length] in *. lia.
    + specialize (Hs (lit "," ++ 10%N :: indent ++ g :: gap') items Hall
                     ltac:(cbn; lia)). rewrite Em in Hs.
      rewrite length_app. cbn [length]. rewrite !length_app. cbn [length].
      rewrite ?length_app. lia.
  - cbn [weight serialize].
    set (member := fun kv : jsstring * json =>
                     quote (fst kv) ++ lit ":"
                     ++ match gap with [] => [] | _ => lit " " end
                     ++ serialize gap (indent ++ gap) (snd kv)).
    pose proof (sum_le_join (fun kv => weight (snd kv)) member) as Hs.
    assert (Hall : Forall (fun kv => (weight (snd kv) <= length (member kv))%nat) props).
    { eapply Forall_impl; [exact IH|]. intros kv Hkv. cbn beta in Hkv.
      unfold member. rewrite !length_app. specialize (Hkv (indent ++ gap)). lia. }
    destruct props as [|a l]; [cbn; lia|].
    remember (a :: l) as props eqn:E.
    destruct (List.map member props) as [|p ps] eqn:Em; [subst props; discriminate|].
    destruct gap as [|g gap'].
    + specialize (Hs (lit ",") props Hall ltac:(cbn; lia)). rewrite Em in Hs.
      rewrite !length_app. cbn [lit List.map list_ascii_of_string length] in *. lia.
    + specialize (Hs (lit "," ++ 10%N :: indent ++ g :: gap') props Hall
                     ltac:(cbn; lia)). rewrite Em in Hs.
      rewrite length_app. cbn [length]. rewrite !length_app. cbn [length].
      rewrite ?length_app. lia.
Qed.

(** [JSON.parse] inverts [JSON.stringify], with or without indentation. *)
Lemma JSON_parse_serialize (gap : jsstring) (v : json) :
  forallb is_ws gap = true -> wf_json v = true ->
  JSON_parse (serialize gap [] v) = Some v.
Proof.
  intros Hgap Hwf. unfold JSON_parse.
  pose proof (serialize_roundtrips v gap [] [] [] (S (length (serialize gap [] v)))
                Hgap eq_refl eq_refl eq_refl) as H.
  cbn [app] in H. rewrite app_nil_r in H. rewrite H; [reflexivity| |exact Hwf].
  pose proof (weight_le_length v gap []). lia.
Qed.

Lemma JSON_parse_stringify (v : json) :
  wf_json v = true -> JSON_parse (JSON_stringify v) = Some v.
Proof. now apply JSON_parse_serialize. Qed.


(** ** Regular expressions

    The fragment of the pattern language the source uses: literal
    characters, the classes [\s] and [\w], the postfix [+], all under the
    [i] flag (and without the [u] flag). [pattern.test(s)] searches [s] for a
    match starting at any index. *)

Inductive char_class : Type :=
| CChar (c : N)
| CSpace
| CWord.

Inductive regex : Type :=
| Void
| Eps
| Cls (k : char_class)
| Seq (r1 r2 : regex)
| Alt (r1 r2 : regex)
| Star (r : regex).

Definition plus (r : regex) : regex := Seq r (Star r).

(** Canonicalize of the [i] flag, on ASCII: a code unit outside ASCII never
    canonicalizes to an ASCII one, so it never equals a pattern letter. *)
Definition canonicalize (c : N) : N :=
  (if (97 <=? c) && (c <=? 122) then c - 32 else c)%N.

(** WhiteSpace and LineTerminator code units. *)
Definition is_space (c : N) : bool :=
  ((c =? 9) || (c =? 10) || (c =? 11) || (c =? 12) || (c =? 13) || (c =? 32)
   || (c =? 160) || (c =? 5760) || ((8192 <=? c) && (c <=? 8202))
   || (c =? 8232) || (c =? 8233) || (c =? 8239) || (c =? 8287)
   || (c =? 12288) || (c =? 65279))%N.

Definition is_word (c : N) : bool :=
  (((48 <=? c) && (c <=? 57)) || ((65 <=? c) && (c <=? 90))
   || ((97 <=? c) && (c <=? 122)) || (c =? 95))%N.

Definition class_matches (k : char_class) (c : N) : bool :=
  match k with
  | CChar p => (canonicalize p =? canonicalize c)%N
  | CSpace => is_space c
  | CWord => is_word c
  end.

Definition class_of_escape (a : ascii) : char_class :=
  if Ascii.eqb a "s" then CSpace
  else if Ascii.eqb a "w" then CWord
  else CChar (chr a).

(** The regular expression written [/p/i] in the source. *)
Fixpoint compile (p : string) : regex :=
  match p with
  | EmptyString => Eps
  | String a rest =>
      if Ascii.eqb a "\" then
        match rest with
        | String k tail =>
            match tail with
            | String q rest' =>
                if Ascii.eqb q "+"
                then Seq (plus (Cls (class_of_escape k))) (compile rest')
                else Seq (Cls (class_of_escape k)) (compile tail)
            | EmptyString => Seq (Cls (class_of_escape k)) (compile tail)
            end
        | EmptyString => Void
        end
      else
        match rest with
        | String q rest' =>
            if Ascii.eqb q "+"
            then Seq (plus (Cls (CChar (chr a)))) (compile rest')
            else Seq (Cls (CChar (chr a))) (compile rest)
        | EmptyString => Seq (Cls (CChar (chr a))) (compile rest)
        end
  end.

Fixpoint nullable (r : regex) : bool :=
  match r with
  | Void => false
  | Eps => true
  | Cls _ => false
  | Seq r1 r2 => nullable r1 && nullable r2
  | Alt r1 r2 => nullable r1 || nullable r2
  | Star _ => true
  end.

Fixpoint deriv (c : N) (r : regex) : regex :=
  match r with
  | Void => Void
  | Eps => Void
  | Cls k => if class_matches k c then Eps else Void
  | Seq r1 r2 =>
      if nullable r1 then Alt (Seq (deriv c r1) r2) (deriv c r2)
      else Seq (deriv c r1) r2
  | Alt r1 r2 => Alt (deriv c r1) (deriv c r2)
  | Star r1 => Seq (deriv c r1) (Star r1)
  end.

(** Does some prefix of [s] match [r]? *)
Fixpoint match_prefix (r : regex) (s : jsstring) : bool :=
  nullable r ||
  match s with
  | [] => false
  | c :: t => match_prefix (deriv c r) t
  end.

(** [r.test(s)]. *)
Fixpoint regex_test (r : regex) (s : jsstring) : bool :=
  match_prefix r s ||
  match s with
  | [] => false
  | _ :: t => regex_test r t
  end.

(** The strings a regular expression matches. *)
Inductive re_lang : regex -> jsstring -> Prop :=
| LEps : re_lang Eps []
| LCls k c : class_matches k c = true -> re_lang (Cls k) [c]
| LSeq r1 r2 u v : re_lang r1 u -> re_lang r2 v -> re_lang (Seq r1 r2) (u ++ v)
| LAltL r1 r2 u : re_lang r1 u -> re_lang (Alt r1 r2) u
| LAltR r1 r2 u : re_lang r2 u -> re_lang (Alt r1 r2) u
| LStarNil r : re_lang (Star r) []
| LStarApp r u v : re_lang r u -> re_lang (Star r) v -> re_lang (Star r) (u ++ v).

Lemma seq_inv (r1 r2 : regex) (w : jsstring) :
  re_lang (Seq r1 r2) w -> exists u v, w = u ++ v /\ re_lang r1 u /\ re_lang r2 v.
Proof. inversion 1; subst; eauto. Qed.

Lemma alt_inv (r1 r2 : regex) (w : jsstring) :
  re_lang (Alt r1 r2) w -> re_lang r1 w \/ re_lang r2 w.
Proof. inversion 1; subst; eauto. Qed.

Lemma cls_inv (k : char_class) (w : jsstring) :
  re_lang (Cls k) w -> exists c, w = [c] /\ class_matches k c = true.
Proof. inversion 1; subst; eauto. Qed.

Lemma nullable_spec (r : regex) : nullable r = true <-> re_lang r [].
Proof.
  induction r as [| |k|r1 IH1 r2 IH2|r1 IH1 r2 IH2|r IH]; cbn [nullable].
  - split; [discriminate|]. inversion 1.
  - split; [constructor|reflexivity].
  - split; [discriminate|]. inversion 1.
  - rewrite andb_true_iff, IH1, IH2. split.
    + intros [H1 H2]. change (@nil N) with (@nil N ++ []). now constructor.
    + intros H. apply seq_inv in H as (u & v & E & Hu & Hv). symmetry in E.
      apply app_eq_nil in E as [-> ->]. now split.
  - rewrite orb_true_iff, IH1, IH2. split.
    + intros [H|H]; [now apply LAltL | now apply LAltR].
    + apply alt_inv.
  - split; [constructor | reflexivity].
Qed.

Lemma star_cons_inv (r : regex) (w : jsstring) :
  re_lang (Star r) w ->
  forall c t, w = c :: t ->
  exists u v, t = u ++ v /\ re_lang r (c :: u) /\ re_lang (Star r) v.
Proof.
  remember (Star r) as sr eqn:E. intros H. revert r E.
  induction H as [| | | | | r0 | r0 u v Hu _ Hv IHv]; intros r E x t Hw;
    try discriminate.
  injection E as ->.
  destruct u as [|x' u'].
  - cbn [app] in Hw. now apply (IHv r eq_refl x t).
  - cbn [app] in Hw. injection Hw as -> <-. eauto.
Qed.

Lemma deriv_spec (c : N) (r : regex) (w : jsstring) :
  re_lang (deriv c r) w <-> re_lang r (c :: w).
Proof.
  revert w.
  induction r as [| |k|r1 IH1 r2 IH2|r1 IH1 r2 IH2|r IH]; intros w; cbn [deriv].
  - split; inversion 1.
  - split; inversion 1.
  - destruct (class_matches k c) eqn:Hk; split.
    + inversion 1; subst. now constructor.
    + intros H. apply cls_inv in H as (c' & E & _). injection E as -> ->. constructor.
    + inversion 1.
    + intros H. apply cls_inv in H as (c' & E & Hc). injection E as -> ->. congruence.
  - assert (Hseq : re_lang (Seq (deriv c r1) r2) w -> re_lang (Seq r1 r2) (c :: w)).
    { intros H. apply seq_inv in H as (u & v & -> & Hu & Hv).
      change (c :: u ++ v) with ((c :: u) ++ v). constructor; [now apply IH1 | exact Hv]. }
    assert (Hinv : re_lang (Seq r1 r2) (c :: w) ->
                   re_lang (Seq (deriv c r1) r2) w
                   \/ (re_lang r1 [] /\ re_lang r2 (c :: w))).
    { intros H. apply seq_inv in H as (u & v & E & Hu & Hv).
      destruct u as [|c' u'].
      - cbn [app] in E. subst v. now right.
      - cbn [app] in E. injection E as -> ->. left.
        constructor; [now apply IH1 | exact Hv]. }
    destruct (nullable r1) eqn:Hn; split.
    + intros H. apply alt_inv in H as [H|H]; [now apply Hseq|].
      change (c :: w) with ([] ++ c :: w). constructor;
        [now apply nullable_spec | now apply IH2].
    + intros H. destruct (Hinv H) as [H'|[_ H']];
        [now apply LAltL | apply LAltR; now apply IH2].
    + exact Hseq.
    + intros H. destruct (Hinv H) as [H'|[H' _]]; [exact H'|].
      apply nullable_spec in H'. congruence.
  - split.
    + intros H. apply alt_inv in H as [H|H];
        [apply LAltL; now apply IH1 | apply LAltR; now apply IH2].
    + intros H. apply alt_inv in H as [H|H];
        [apply LAltL; now apply IH1 | apply LAltR; now apply IH2].
  - split.
    + intros H. apply seq_inv in H as (u & v & -> & Hu & Hv).
      change (c :: u ++ v) with ((c :: u) ++ v). constructor; [now apply IH | exact Hv].
    + intros H. destruct (star_cons_inv r _ H c w eq_refl) as (u & v & -> & Hu & Hv).
      constructor; [now apply IH | exact Hv].
Qed.

Lemma match_prefix_spec (r : regex) (s : jsstring) :
  match_prefix r s = true <-> exists m post, s = m ++ post /\ re_lang r m.
Proof.
  revert r. induction s as [|c t IH]; intros r; cbn [match_prefix].
  - rewrite orb_false_r, nullable_spec. split.
    + intros H. now exists [], [].
    + intros (m & post & E & H). symmetry in E. apply app_eq_nil in E as [-> _]. exact H.
  - rewrite orb_true_iff, nullable_spec, IH. split.
    + intros [H|(m & post & -> & H)].
      * now exists [], (c :: t).
      * exists (c :: m), post. split; [reflexivity | now apply deriv_spec].
    + intros (m & post & E & H). destruct m as [|c' m'].
      * now left.
      * cbn [app] in E. injection E as <- ->. right.
        exists m', post. split; [reflexivity | now apply deriv_spec].
Qed.

Lemma regex_test_spec (r : regex) (s : jsstring) :
  regex_test r s = true <->
  exists pre m post, s = pre ++ m ++ post /\ re_lang r m.
Proof.
  induction s as [|c t IH]; cbn [regex_test].
  - rewrite orb_false_r, match_prefix_spec. split.
    + intros (m & post & E & H). now exists [], m, post.
    + intros (pre & m & post & E & H). symmetry in E.
      apply app_eq_nil in E as [-> E]. apply app_eq_nil in E as [-> ->].
      now exists [], [].
  - rewrite orb_true_iff, match_prefix_spec, IH. split.
    + intros [(m & post & E & H)|(pre & m & post & -> & H)].
      * now exists [], m, post.
      * now exists (c :: pre), m, post.
    + intros (pre & m & post & E & H). destruct pre as [|c' pre'].
      * left. now exists m, post.
      * cbn [app] in E. injection E as <- ->. right. now exists pre', m, post.
Qed.

(** ** Values, coercions and errors of the runtime *)

(** ToString, as a template literal applies it. *)
Fixpoint js_to_string (v : json) : jsstring :=
  match v with
  | JNull => lit "null"
  | JBool true => lit "true"
  | JBool false => lit "false"
  | JNum z => number_to_string z
  | JStr s => s
  | JArr items =>
      join (lit ",")
           (List.map (fun x => match x with JNull => [] | _ => js_to_string x end) items)
  | JObj _ => lit "[object Object]"
  end.

(** A value that may be [undefined]. *)
Definition to_string (v : option json) : jsstring :=
  match v with
  | None => lit "undefined"
  | Some v => js_to_string v
  end.

(** ToBoolean. *)
Definition truthy (v : option json) : bool :=
  match v with
  | None | Some JNull => false
  | Some (JBool b) => b
  | Some (JNum z) => negb (z =? 0)
  | Some (JStr s) => match s with [] => false | _ => true end
  | Some (JArr _) | Some (JObj _) => true
  end.

(** [a || b]. *)
Definition js_or (a : option json) (b : json) : json :=
  match a with
  | Some v => if truthy a then v else b
  | None => b
  end.

Record js_error : Type := mkError {
  err_name : jsstring;      (* error.constructor.name *)
  err_message : jsstring    (* error.message *)
}.

Definition new_Error (message : jsstring) : js_error :=
  mkError (lit "Error") message.

Definition new_TypeError (message : jsstring) : js_error :=
  mkError (lit "TypeError") message.

Inductive outcome (A : Type) : Type :=
| Return (a : A)
| Throw (e : js_error).
Arguments Return {A} a.
Arguments Throw {A} e.

(** Reading property [k] of [v]: [null] has no properties. The names read
    by the source ([query], [params], [operation], ...) are own properties of
    objects only. *)
Definition cannot_read (of_what k : jsstring) : js_error :=
  new_TypeError (lit "Cannot read properties of " ++ of_what
                 ++ lit " (reading '" ++ k ++ lit "')").

Definition get_member (v : json) (k : jsstring) : outcome (option json) :=
  match v with
  | JNull => Throw (cannot_read (lit "null") k)
  | JObj props => Return (lookup_prop k props)
  | _ => Return None
  end.

(** ** Dates *)

Definition pad (width : nat) (n : Z) : jsstring :=
  let d := number_to_string n in
  repeat 48%N (width - length d) ++ d.

(** Year, month and day of a day number counted from 1970-01-01. *)
Definition civil_from_days (days : Z) : Z * Z * Z :=
  let z := days + 719468 in
  let era := z / 146097 in
  let doe := z mod 146097 in
  let yoe := (doe - doe / 1460 + doe / 36524 - doe / 146096) / 365 in
  let doy := doe - (365 * yoe + yoe / 4 - yoe / 100) in
  let mp := (5 * doy + 2) / 153 in
  let d := doy - (153 * mp + 2) / 5 + 1 in
  let m := if mp <? 10 then mp + 3 else mp - 9 in
  let y := yoe + era * 400 + (if m <=? 2 then 1 else 0) in
  (y, m, d).

(** [new Date(ms).toISOString()], for the years 0000 to 9999. *)
Definition toISOString (ms : Z) : jsstring :=
  let '(y, m, d) := civil_from_days (ms / 86400000) in
  let t := ms mod 86400000 in
  pad 4 y ++ lit "-" ++ pad 2 m ++ lit "-" ++ pad 2 d ++ lit "T"
  ++ pad 2 (t / 3600000) ++ lit ":" ++ pad 2 ((t / 60000) mod 60) ++ lit ":"
  ++ pad 2 ((t / 1000) mod 60) ++ lit "." ++ pad 3 (t mod 1000) ++ lit "Z".

(** ** The world outside the Lambda

    The clock, the PostgreSQL pool and the results bucket. The database is
    an oracle: its answer to a request may depend on the requests sent
    before. The bucket is a key-value store; requests to it go through. *)

Record pg_result : Type := mkResult {
  rows : option (list json);   (* result.rows; undefined for a multi-statement text *)
  rowCount : option json       (* result.rowCount *)
}.

(** A call of [pool.query]: the fixed statements of [AdvancedQueryService],
    with the values bound or spliced into them, or a text the caller gave. *)
Inductive db_request : Type :=
| ListTables
| TableColumns (table_name : option json)
| MultiDimensionalAnalytics (timeframe : jsstring)
| RelationshipNetwork (rootEntityId : json)
| TimeSeriesPatterns (analysisPeriod : jsstring)
| DataIntegrityAnalysis
| CustomerAnalysis (metric : jsstring)
| RevenueAnalysis (metric groupBy : jsstring)
| CountAnalysis (groupBy : jsstring)
| SimpleDemo
| HealthCheck
| PoolQuery (text : option json) (values : option json).

Record world : Type := mkWorld {
  clock : nat -> Z;            (* successive readings of the clock, in ms *)
  ticks : nat;                 (* readings taken so far *)
  db : list db_request -> db_request -> outcome pg_result;
  db_log : list db_request;    (* requests sent so far, latest first *)
  s3 : gmap jsstring jsstring  (* the objects of the results bucket *)
}.

Definition M (A : Type) : Type := world -> outcome A * world.

Definition ret {A : Type} (a : A) : M A := fun w => (Return a, w).

Definition throw {A : Type} (e : js_error) : M A := fun w => (Throw e, w).

Definition bind {A B : Type} (m : M A) (k : A -> M B) : M B :=
  fun w =>
    match m w with
    | (Return a, w') => k a w'
    | (Throw e, w') => (Throw e, w')
    end.

Definition try_catch {A : Type} (m : M A) (handler : js_error -> M A) : M A :=
  fun w =>
    match m w with
    | (Return a, w') => (Return a, w')
    | (Throw e, w') => handler e w'
    end.

Definition lift {A : Type} (o : outcome A) : M A := fun w => (o, w).

Notation "x <- m ;; k" := (bind m (fun x => k))
  (at level 100, m at next level, right associativity).

(** The world after one more reading of the clock, after a request to the
    database, after a write to the bucket. *)
Definition tick (w : world) : world :=
  mkWorld (clock w) (S (ticks w)) (db w) (db_log w) (s3 w).

Definition sent (r : db_request) (w : world) : world :=
  mkWorld (clock w) (ticks w) (db w) (r :: db_log w) (s3 w).

Definition stored (key body : jsstring) (w : world) : world :=
  mkWorld (clock w) (ticks w) (db w) (db_log w) (<[key := body]> (s3 w)).

(** [Date.now()]. *)
Definition Date_now : M Z :=
  fun w => (Return (clock w (ticks w)), tick w).

(** [new Date().toISOString()]. *)
Definition new_Date_toISOString : M jsstring :=
  t <- Date_now ;; ret (toISOString t).

(** [await pool.query(...)]. *)
Definition pool_query (r : db_request) : M pg_result :=
  fun w => (db w (db_log w) r, sent r w).

(** [PutObjectCommand] and [GetObjectCommand] on the results bucket. *)
Definition s3_put (key body : jsstring) : M unit :=
  fun w => (Return tt, stored key body w).

Definition s3_get (key : jsstring) : M jsstring :=
  fun w =>
    match s3 w !! key with
    | Some body => (Return body, w)
    | None => (Throw (mkError (lit "NoSuchKey") (lit "The specified key does not exist.")), w)
    end.

(** ** AdvancedQueryService

    Each method awaits the pool and sends one statement (two for
    [getDatabaseInfo]); what it returns is [result.rows]. *)

(** The value of the variable [result] of [executeAnalyticsOperation]. *)
Inductive js_result : Type :=
| RUndefined
| RRows (items : list json)
| RInfo (tables : list json) (sample_table_structure : option (list json)).

Definition rows_of (r : pg_result) : js_result :=
  match rows r with
  | Some items => RRows items
  | None => RUndefined
  end.

Definition getMultiDimensionalAnalytics (timeframe : json) : M js_result :=
  r <- pool_query (MultiDimensionalAnalytics (js_to_string timeframe)) ;;
  ret (rows_of r).

Definition getEntityRelationshipNetwork (rootEntityId : option json) : M js_result :=
  r <- pool_query (RelationshipNetwork
                     (match rootEntityId with Some v => v | None => JNull end)) ;;
  ret (rows_of r).

Definition getTimeSeriesPatterns (analysisPeriod : json) : M js_result :=
  r <- pool_query (TimeSeriesPatterns (js_to_string analysisPeriod)) ;;
  ret (rows_of r).

Definition getDataIntegrityAnalysis : M js_result :=
  r <- pool_query DataIntegrityAnalysis ;; ret (rows_of r).

Definition getCustomerAnalysis (metric groupBy : json) : M js_result :=
  r <- pool_query (CustomerAnalysis (js_to_string metric)) ;; ret (rows_of r).

Definition getRevenueAnalysis (metric groupBy : json) : M js_result :=
  r <- pool_query (RevenueAnalysis (js_to_string metric) (js_to_string groupBy)) ;;
  ret (rows_of r).

Definition getCountAnalysis (metric groupBy : json) : M js_result :=
  r <- pool_query (CountAnalysis (js_to_string groupBy)) ;; ret (rows_of r).

Definition getSimpleDemo : M js_result :=
  r <- pool_query SimpleDemo ;; ret (rows_of r).

Definition getDatabaseInfo : M js_result :=
  tablesResult <- pool_query ListTables ;;
  match rows tablesResult with
  | None => throw (cannot_read (lit "undefined") (lit "length"))
  | Some [] => ret (RInfo [] None)
  | Some (first :: others) =>
      firstTable <- lift (get_member first (lit "table_name")) ;;
      tableStructure <- pool_query (TableColumns firstTable) ;;
      ret (RInfo (first :: others) (rows tableStructure))
  end.

(** ** AnalyticsService *)

Record config : Type := mkConfig {
  RESULTS_BUCKET : option jsstring;   (* process.env.RESULTS_BUCKET *)
  NODE_ENV : option jsstring;         (* process.env.NODE_ENV *)
  stack_of : js_error -> jsstring     (* error.stack, as the engine recorded it *)
}.

Definition result_value (r : js_result) : option json :=
  match r with
  | RUndefined => None
  | RRows items => Some (JArr items)
  | RInfo tables structure =>
      Some (JObj (js_object [(lit "tables", Some (JArr tables));
                             (lit "sample_table_structure", option_map JArr structure)]))
  end.

Definition array_length (items : list json) : Z := Z.of_nat (length items).

(** [result.length]. *)
Definition result_length (r : js_result) : outcome (option Z) :=
  match r with
  | RUndefined => Throw (cannot_read (lit "undefined") (lit "length"))
  | RRows items => Return (Some (array_length items))
  | RInfo _ _ => Return None
  end.

(** [x > n] for a length that may be [undefined]. *)
Definition exceeds (x : option Z) (n : Z) : bool :=
  match x with
  | Some z => n <? z
  | None => false
  end.

(** [JSON.stringify(result)] for a result that is not [undefined]. *)
Definition stringify_result (r : js_result) : jsstring :=
  match result_value r with
  | Some v => JSON_stringify v
  | None => []
  end.

Definition operation_is (operation : option json) (name : string) : bool :=
  match operation with
  | Some (JStr s) => bool_decide (s = lit name)
  | _ => false
  end.

(** The names the [switch] of [executeAnalyticsOperation] knows. *)
Definition registered_operations : list string :=
  ["database_info"; "multi_dimensional_analytics"; "relationship_network";
   "time_series_patterns"; "data_integrity_analysis"; "customer_analysis";
   "revenue_analysis"; "count_analysis"; "custom_complex_query";
   "simple_demo"]%string.

Definition forbiddenPatterns : list regex :=
  List.map compile
    ["DROP\s+"; "DELETE\s+FROM"; "TRUNCATE\s+"; "INSERT\s+INTO";
     "UPDATE\s+\w+\s+SET"; "CREATE\s+"; "ALTER\s+"; "GRANT\s+";
     "REVOKE\s+"]%string.

(** [query.length] for the value of [parameters.query]; a [length]
    property that is not a number is read as NaN here. *)
Definition query_length (query : json) : option Z :=
  match query with
  | JStr s => Some (js_length s)
  | JArr items => Some (array_length items)
  | JObj props => match lookup_prop (lit "length") props with
                  | Some (JNum z) => Some z
                  | _ => None
                  end
  | _ => None
  end.

Definition validateCustomQuery (query : json) : outcome unit :=
  if existsb (fun pattern => regex_test pattern (js_to_string query)) forbiddenPatterns
  then Throw (new_Error (lit "Query contains forbidden operations"))
  else if exceeds (query_length query) 10000
  then Throw (new_Error (lit "Query too complex. Maximum length exceeded."))
  else Return tt.

Definition executeCustomComplexQuery (query : json) (params : option json)
  : M js_result :=
  let params := match params with Some p => p | None => JArr [] end in
  _ <- lift (validateCustomQuery query) ;;
  result <- pool_query (PoolQuery (Some query) (Some params)) ;;
  ret (rows_of result).

Definition getErrorSuggestions (error : js_error) (operation : option json)
  : list jsstring :=
  let suggestions :=
    (if includes (err_message error) (lit "timeout")
     then [lit "Try reducing the analysis timeframe";
           lit "Consider using smaller data subsets"] else [])
    ++ (if includes (err_message error) (lit "memory")
        then [lit "Try using more specific filters";
              lit "Consider implementing pagination"] else [])
    ++ (if includes (err_message error) (lit "syntax")
        then [lit "Check query syntax and parameter types"] else [])
    ++ (if operation_is operation "relationship_network"
        then [lit "Try specifying a rootEntityId to limit the graph traversal"]
        else if operation_is operation "multi_dimensional_analytics"
        then [lit "Try using a shorter timeframe for initial analysis"]
        else []) in
  match suggestions with
  | [] => [lit "Check parameters and try again"]
  | _ :: _ => suggestions
  end.

Section AnalyticsService.
Variable cfg : config.

Definition s3Bucket : jsstring :=
  match RESULTS_BUCKET cfg with
  | Some b => b
  | None => lit "undefined"
  end.

Definition saveLargeResultToS3 (result : js_result) (operation : option json)
           (startTime : Z) : M json :=
  now <- Date_now ;;
  let s3Key := lit "results/" ++ to_string operation ++ lit "-"
               ++ number_to_string now ++ lit ".json" in
  generatedAt <- new_Date_toISOString ;;
  count <- lift (result_length result) ;;
  let resultData :=
    JObj (js_object [(lit "operation", operation);
                     (lit "data", result_value result);
                     (lit "generatedAt", Some (JStr generatedAt));
                     (lit "recordCount", option_map JNum count)]) in
  _ <- s3_put s3Key (JSON_stringify_2 resultData) ;;
  now' <- Date_now ;;
  let executionTime := now' - startTime in
  timestamp <- new_Date_toISOString ;;
  ret (JObj (js_object
    [(lit "success", Some (JBool true));
     (lit "operation", operation);
     (lit "executionTime", Some (JStr (number_to_string executionTime ++ lit "ms")));
     (lit "largeResult", Some (JBool true));
     (lit "s3Url", Some (JStr (lit "s3://" ++ s3Bucket ++ lit "/" ++ s3Key)));
     (lit "downloadUrl", Some (JStr (lit "/download/" ++ split_pop (chr "/") s3Key)));
     (lit "recordCount", option_map JNum count);
     (lit "message", Some (JStr (lit "Large result saved to S3 for download")));
     (lit "metadata", Some (JObj (js_object
        [(lit "resultCount", option_map JNum count);
         (lit "timestamp", Some (JStr timestamp));
         (lit "cacheHit", Some (JBool false))])))])).

(** The [switch] on the operation name. *)
Definition run_operation (operation : option json) (parameters : json)
  : M js_result :=
  if operation_is operation "database_info" then getDatabaseInfo
  else if operation_is operation "multi_dimensional_analytics" then
    timeframe <- lift (get_member parameters (lit "timeframe")) ;;
    getMultiDimensionalAnalytics (js_or timeframe (JStr (lit "3 months")))
  else if operation_is operation "relationship_network" then
    rootEntityId <- lift (get_member parameters (lit "rootEntityId")) ;;
    getEntityRelationshipNetwork rootEntityId
  else if operation_is operation "time_series_patterns" then
    analysisPeriod <- lift (get_member parameters (lit "analysisPeriod")) ;;
    getTimeSeriesPatterns (js_or analysisPeriod (JStr (lit "6 months")))
  else if operation_is operation "data_integrity_analysis" then
    getDataIntegrityAnalysis
  else if operation_is operation "customer_analysis" then
    metric <- lift (get_member parameters (lit "metric")) ;;
    group_by <- lift (get_member parameters (lit "group_by")) ;;
    getCustomerAnalysis (js_or metric (JStr (lit "lifetime_value")))
                        (js_or group_by (JStr (lit "industry")))
  else if operation_is operation "revenue_analysis" then
    metric <- lift (get_member parameters (lit "metric")) ;;
    group_by <- lift (get_member parameters (lit "group_by")) ;;
    getRevenueAnalysis (js_or metric (JStr (lit "annual_revenue")))
                       (js_or group_by (JStr (lit "region")))
  else if operation_is operation "count_analysis" then
    metric <- lift (get_member parameters (lit "metric")) ;;
    group_by <- lift (get_member parameters (lit "group_by")) ;;
    getCountAnalysis (js_or metric (JStr (lit "customer_count")))
                     (js_or group_by (JStr (lit "industry")))
  else if operation_is operation "custom_complex_query" then
    query <- lift (get_member parameters (lit "query")) ;;
    match query with
    | Some q =>
        if truthy query then
          params <- lift (get_member parameters (lit "params")) ;;
          executeCustomComplexQuery q params
        else throw (new_Error (lit "Custom query is required for this operation"))
    | None => throw (new_Error (lit "Custom query is required for this operation"))
    end
  else if operation_is operation "simple_demo" then getSimpleDemo
  else throw (new_Error (lit "Unknown analytics operation: " ++ to_string operation)).

Definition executeAnalyticsOperation (operation : option json)
           (parameters : option json) : M json :=
  let parameters := match parameters with Some p => p | None => JObj [] end in
  startTime <- Date_now ;;
  let operationId := to_string operation ++ lit "_" ++ number_to_string startTime in
  try_catch
    (result <- run_operation operation parameters ;;
     len <- lift (result_length result) ;;
     if exceeds len 1000 || (5000000 <? js_length (stringify_result result))
     then saveLargeResultToS3 result operation startTime
     else
       now <- Date_now ;;
       let executionTime := now - startTime in
       timestamp <- new_Date_toISOString ;;
       ret (JObj (js_object
         [(lit "success", Some (JBool true));
          (lit "operation", operation);
          (lit "operationId", Some (JStr operationId));
          (lit "executionTime", Some (JStr (number_to_string executionTime ++ lit "ms")));
          (lit "data", result_value result);
          (lit "metadata", Some (JObj (js_object
             [(lit "resultCount",
               Some (JNum (match len with Some n => n | None => 0 end)));
              (lit "timestamp", Some (JStr timestamp));
              (lit "cacheHit", Some (JBool false))])))])))
    (fun error =>
       now <- Date_now ;;
       let executionTime := now - startTime in
       ret (JObj (js_object
         [(lit "success", Some (JBool false));
          (lit "operation", operation);
          (lit "operationId", Some (JStr operationId));
          (lit "executionTime", Some (JStr (number_to_string executionTime ++ lit "ms")));
          (lit "error", Some (JObj (js_object
             [(lit "message", Some (JStr (err_message error)));
              (lit "type", Some (JStr (err_name error)));
              (lit "stack",
               if bool_decide (NODE_ENV cfg = Some (lit "development"))
               then Some (JStr (stack_of cfg error)) else None)])));
          (lit "suggestions",
           Some (JArr (List.map JStr (getErrorSuggestions error operation))))]))).
End AnalyticsService.

(** ** The Lambda's entry points *)

Record http_response : Type := mkResponse {
  statusCode : Z;
  headers : list (jsstring * jsstring);
  body : jsstring
}.

Record api_event : Type := mkEvent {
  httpMethod : jsstring;
  path : jsstring;
  queryStringParameters : option json;
  pathParameters : option json;
  event_body : option jsstring        (* event.body *)
}.

(** [v?.k]. *)
Definition optional_member (v : option json) (k : jsstring) : option json :=
  match v with
  | Some (JObj props) => lookup_prop k props
  | _ => None
  end.

(** [JSON.parse] as the code calls it: a SyntaxError on a text that is not
    JSON (the wording of the message is the engine's). *)
Definition JSON_parse_or_throw (text : jsstring) : outcome json :=
  match JSON_parse text with
  | Some v => Return v
  | None => Throw (mkError (lit "SyntaxError") (lit "Unexpected token in JSON"))
  end.

Definition download_headers : list (jsstring * jsstring) :=
  [(lit "Content-Type", lit "application/json");
   (lit "Access-Control-Allow-Origin", lit "*")].

Definition api_headers : list (jsstring * jsstring) :=
  [(lit "Content-Type", lit "application/json");
   (lit "Access-Control-Allow-Origin", lit "*");
   (lit "Access-Control-Allow-Methods", lit "GET, POST, OPTIONS");
   (lit "Access-Control-Allow-Headers", lit "Content-Type, Authorization");
   (lit "X-Content-Type-Options", lit "nosniff");
   (lit "X-Frame-Options", lit "DENY")].

Definition handleS3Download (event : api_event) : M http_response :=
  try_catch
    (let key := optional_member (pathParameters event) (lit "key") in
     if truthy key then
       response <- s3_get (lit "results/" ++ to_string key) ;;
       resultData <- lift (JSON_parse_or_throw response) ;;
       data <- lift (get_member resultData (lit "data")) ;;
       operation <- lift (get_member resultData (lit "operation")) ;;
       generatedAt <- lift (get_member resultData (lit "generatedAt")) ;;
       recordCount <- lift (get_member resultData (lit "recordCount")) ;;
       ret (mkResponse 200 download_headers
              (JSON_stringify (JObj (js_object
                 [(lit "success", Some (JBool true));
                  (lit "data", data);
                  (lit "metadata", Some (JObj (js_object
                     [(lit "operation", operation);
                      (lit "generatedAt", generatedAt);
                      (lit "recordCount", recordCount);
                      (lit "source", Some (JStr (lit "s3")))])))]))))
     else throw (new_Error (lit "Download key is required")))
    (fun error =>
       ret (mkResponse 404 download_headers
              (JSON_stringify (JObj (js_object
                 [(lit "success", Some (JBool false));
                  (lit "error", Some (JStr (lit "Result not found or expired")));
                  (lit "message", Some (JStr (err_message error)))]))))).

Definition getServiceHealth : M json :=
  try_catch
    (healthCheck <- pool_query HealthCheck ;;
     timestamp <- new_Date_toISOString ;;
     database_timestamp <-
       match rows healthCheck with
       | None => throw (cannot_read (lit "undefined") (lit "0"))
       | Some [] => throw (cannot_read (lit "undefined") (lit "timestamp"))
       | Some (row :: _) => lift (get_member row (lit "timestamp"))
       end ;;
     ret (JObj (js_object
       [(lit "status", Some (JStr (lit "healthy")));
        (lit "database", Some (JStr (lit "connected")));
        (lit "timestamp", Some (JStr timestamp));
        (lit "details", Some (JObj (js_object
           [(lit "database_timestamp", database_timestamp);
            (lit "service", Some (JStr (lit "Advanced Analytics Service")));
            (lit "version", Some (JStr (lit "1.0.0")))])))])))
    (fun error =>
       timestamp <- new_Date_toISOString ;;
       ret (JObj (js_object
         [(lit "status", Some (JStr (lit "unhealthy")));
          (lit "database", Some (JStr (lit "disconnected")));
          (lit "timestamp", Some (JStr timestamp));
          (lit "error", Some (JStr (err_message error)))]))).

Definition method_is (event : api_event) (name : string) : bool :=
  bool_decide (httpMethod event = lit name).

Section Handlers.
Variable cfg : config.

Definition handleApiGatewayEvent (event : api_event) : M http_response :=
  if method_is event "OPTIONS" then ret (mkResponse 200 api_headers [])
  else if method_is event "GET" && includes (path event) (lit "/download/")
  then handleS3Download event
  else
    try_catch
      (if method_is event "GET" && includes (path event) (lit "/health") then
         result <- getServiceHealth ;;
         ret (mkResponse 200 api_headers (JSON_stringify result))
       else if method_is event "POST" && includes (path event) (lit "/analytics") then
         requestBody <-
           lift (JSON_parse_or_throw
                   (match event_body event with
                    | Some (c :: t) => c :: t
                    | _ => lit "{}"
                    end)) ;;
         operation <- lift (get_member requestBody (lit "operation")) ;;
         parameters <- lift (get_member requestBody (lit "parameters")) ;;
         result <- executeAnalyticsOperation cfg operation parameters ;;
         ret (mkResponse 200 api_headers (JSON_stringify result))
       else if method_is event "GET" && includes (path event) (lit "/analytics") then
         let operation := optional_member (queryStringParameters event) (lit "operation") in
         let raw := optional_member (queryStringParameters event) (lit "parameters") in
         parameters <-
           (if truthy raw then lift (JSON_parse_or_throw (to_string raw))
            else ret (JObj [])) ;;
         result <- executeAnalyticsOperation cfg operation (Some parameters) ;;
         ret (mkResponse 200 api_headers (JSON_stringify result))
       else
         ret (mkResponse 404 api_headers
                (JSON_stringify (JObj (js_object
                   [(lit "success", Some (JBool false));
                    (lit "error", Some (JStr (lit "Endpoint not found")));
                    (lit "availableEndpoints", Some (JArr
                       [JStr (lit "GET /health");
                        JStr (lit "POST /analytics");
                        JStr (lit "GET /analytics?operation=<operation>&parameters=<json>");
                        JStr (lit "GET /download/{key}")]))])))))
      (fun error =>
         ret (mkResponse 400 api_headers
                (JSON_stringify (JObj (js_object
                   [(lit "success", Some (JBool false));
                    (lit "error", Some (JStr (err_message error)));
                    (lit "type", Some (JStr (lit "API_ERROR")))]))))).

(** A direct invocation, as the Step Functions task makes it. *)
Definition handleDirectInvocation (operation parameters requestId : option json)
  : M json :=
  if truthy operation then
    result <- executeAnalyticsOperation cfg operation parameters ;;
    match requestId, result with
    | Some rid, JObj props =>
        if truthy requestId then ret (JObj (set_prop (lit "requestId") rid props))
        else ret result
    | _, _ => ret result
    end
  else throw (new_Error (lit "Operation parameter is required for direct invocation")).
End Handlers.


(** ** The ingestion Lambda (data-processor.js)

    Its handler looks at [event.query] first; the branch taken when the
    event carries a query is modelled, [None] stands for the other branches
    (manual test, S3 notification). *)

Definition data_processor_handler (event_query : option json)
  : M (option http_response) :=
  if truthy event_query then
    try_catch
      (result <- pool_query (PoolQuery event_query None) ;;
       ret (Some (mkResponse 200 []
              (JSON_stringify (JObj (js_object
                 [(lit "rows", option_map JArr (rows result));
                  (lit "count", rowCount result);
                  (lit "query", event_query)]))))))
      (fun error =>
         ret (Some (mkResponse 500 []
                (JSON_stringify (JObj (js_object
                   [(lit "success", Some (JBool false));
                    (lit "error", Some (JStr (err_message error)))]))))))
  else ret None.

(** ** JobService and the DynamoDB table of job records *)

Module JobService.

(** AttributeValue. *)
Inductive attr_value : Type :=
| AttrS (s : jsstring)
| AttrN (n : jsstring)
| AttrBOOL (b : bool)
| AttrNULL
| AttrL (items : list attr_value)
| AttrM (entries : list (jsstring * attr_value)).

(** [marshall] of util-dynamodb, on one value. *)
Fixpoint marshall_value (v : json) : attr_value :=
  match v with
  | JNull => AttrNULL
  | JBool b => AttrBOOL b
  | JNum z => AttrN (number_to_string z)
  | JStr s => AttrS s
  | JArr items => AttrL (List.map marshall_value items)
  | JObj props => AttrM (List.map (fun kv => (fst kv, marshall_value (snd kv))) props)
  end.

(** [marshall] of an object: one AttributeValue per property. *)
Definition marshall (props : list (jsstring * json)) : list (jsstring * attr_value) :=
  List.map (fun kv => (fst kv, marshall_value (snd kv))) props.

(** The input of [UpdateItemCommand], with the fields the source sets. *)
Record UpdateItemInput : Type := mkUpdate {
  TableName : option jsstring;
  Key : list (jsstring * attr_value);
  UpdateExpression : jsstring;
  ExpressionAttributeNames : list (jsstring * jsstring);
  ExpressionAttributeValues : list (jsstring * attr_value)
}.

(** An item maps attribute names to values; the table is keyed by the
    pair of the partition key [PK] and the sort key [SK]. *)
Abbreviation item := (gmap jsstring attr_value).
Abbreviation table := (gmap (jsstring * jsstring) (gmap jsstring attr_value)).

(** *** The store's reading of an update expression

    Tokens are words (names, [#name] and [:value] placeholders, the
    keyword), [=] and [,]. An expression of the modelled fragment is
    [SET path = :value, ..., path = :value]. *)

Inductive token : Type :=
| TWord (w : jsstring)
| TEq
| TComma.

Definition flush (word : jsstring) (rest : list token) : list token :=
  match word with
  | [] => rest
  | _ :: _ => TWord word :: rest
  end.

(** [word] collects the characters of the word being read. *)
Fixpoint tokenize (s word : jsstring) : list token :=
  match s with
  | [] => flush word []
  | c :: t =>
      if is_ws c then flush word (tokenize t [])
      else if (c =? 61)%N then flush word (TEq :: tokenize t [])
      else if (c =? 44)%N then flush word (TComma :: tokenize t [])
      else tokenize t (word ++ [c])
  end.

Definition is_value_placeholder (w : jsstring) : bool :=
  match w with
  | c :: _ :: _ => (c =? 58)%N
  | _ => false
  end.

(** [path = :value] actions separated by commas. *)
Fixpoint parse_actions (fuel : nat) (ts : list token)
  : option (list (jsstring * jsstring)) :=
  match fuel with
  | O => None
  | S fuel =>
      match ts with
      | TWord path :: TEq :: TWord value :: rest =>
          if is_value_placeholder path then None
          else if is_value_placeholder value then
            match rest with
            | [] => Some [(path, value)]
            | TComma :: rest' =>
                match parse_actions fuel rest' with
                | Some actions => Some ((path, value) :: actions)
                | None => None
                end
            | _ => None
            end
          else None
      | _ => None
      end
  end.

Definition is_SET (w : jsstring) : bool :=
  bool_decide (List.map canonicalize w = lit "SET").

Definition parse_update_expression (e : jsstring)
  : option (list (jsstring * jsstring)) :=
  match tokenize e [] with
  | TWord kw :: actions =>
      if is_SET kw then parse_actions (length actions) actions else None
  | _ => None
  end.

Definition ValidationException (message : jsstring) : js_error :=
  mkError (lit "ValidationException") message.

Definition lookup_assoc {V : Type} (k : jsstring) (l : list (jsstring * V)) : option V :=
  match List.find (fun kv => bool_decide (fst kv = k)) l with
  | Some kv => Some (snd kv)
  | None => None
  end.

(** An attribute name: a [#placeholder] stands for its entry of
    ExpressionAttributeNames. *)
Definition resolve_path (names : list (jsstring * jsstring)) (path : jsstring)
  : option jsstring :=
  match path with
  | c :: _ => if (c =? 35)%N then lookup_assoc path names else Some path
  | [] => None
  end.

Fixpoint resolve_actions (names : list (jsstring * jsstring))
         (values : list (jsstring * attr_value))
         (actions : list (jsstring * jsstring))
  : option (list (jsstring * attr_value)) :=
  match actions with
  | [] => Some []
  | (path, value) :: rest =>
      match resolve_path names path, lookup_assoc value values,
            resolve_actions names values rest with
      | Some attribute, Some v, Some others => Some ((attribute, v) :: others)
      | _, _, _ => None
      end
  end.

Definition key_of (key : list (jsstring * attr_value)) : option (jsstring * jsstring) :=
  match lookup_assoc (lit "PK") key, lookup_assoc (lit "SK") key with
  | Some (AttrS pk), Some (AttrS sk) => Some (pk, sk)
  | _, _ => None
  end.

(** UpdateItem without a condition: the expression is checked, then the
    attributes are set on the item of the key, which is created when the
    table has none. *)
Definition UpdateItem (input : UpdateItemInput) (t : table) : outcome unit * table :=
  match parse_update_expression (UpdateExpression input) with
  | None => (Throw (ValidationException (lit "Invalid UpdateExpression: Syntax error")), t)
  | Some actions =>
      match resolve_actions (ExpressionAttributeNames input)
                            (ExpressionAttributeValues input) actions,
            key_of (Key input) with
      | Some sets, Some k =>
          let old : gmap jsstring attr_value :=
            match t !! k with
            | Some i => i
            | None => list_to_map (Key input)
            end in
          (Return tt,
           <[k := fold_left (fun i av => <[fst av := snd av]> i) sets old]> t)
      | _, _ =>
          (Throw (ValidationException (lit "Invalid UpdateExpression or key")), t)
      end
  end.

(** [Object.keys(v)] with the values [v[key]]. *)
Definition own_entries (v : json) : outcome (list (jsstring * json)) :=
  match v with
  | JNull => Throw (new_TypeError (lit "Cannot convert undefined or null to object"))
  | JObj props => Return props
  | JArr items =>
      Return (imap (fun i x => (number_to_string (Z.of_nat i), x)) items)
  | JStr s =>
      Return (imap (fun i c => (number_to_string (Z.of_nat i), JStr [c])) s)
  | _ => Return []
  end.

Section updateJobStatus.
Variable ANALYTICS_TABLE : option jsstring.   (* process.env.ANALYTICS_TABLE *)

(** The command [updateJobStatus] builds. *)
Definition update_command (jobId : option json) (status : json)
           (entries : list (jsstring * json)) : UpdateItemInput :=
  let updateExpressions :=
    lit "SET #status = :status"
    :: List.map (fun kv => fst kv ++ lit " = :" ++ fst kv) entries in
  let expressionAttributes :=
    fold_left (fun o kv => set_prop (lit ":" ++ fst kv) (snd kv) o) entries
              [(lit ":status", JObj [(lit "S", status)])] in
  mkUpdate ANALYTICS_TABLE
           (marshall [(lit "PK", JStr (lit "JOB#" ++ to_string jobId));
                      (lit "SK", JStr (lit "METADATA"))])
           (lit "SET " ++ join (lit ", ") updateExpressions)
           [(lit "#status", lit "status")]
           (marshall expressionAttributes).

Definition updateJobStatus (jobId : option json) (status : json)
           (additionalData : option json) (t : table) : outcome unit * table :=
  let additionalData := match additionalData with Some d => d | None => JObj [] end in
  match own_entries additionalData with
  | Throw e => (Throw e, t)
  | Return entries => UpdateItem (update_command jobId status entries) t
  end.
End updateJobStatus.

End JobService.


(** * Properties *)

(** ** The responses of [executeAnalyticsOperation], case by case *)

Definition operationId_of (operation : option json) (startTime : Z) : jsstring :=
  to_string operation ++ lit "_" ++ number_to_string startTime.

Definition failure_response (cfg : config) (operation : option json)
           (startTime now : Z) (error : js_error) : json :=
  JObj (js_object
    [(lit "success", Some (JBool false));
     (lit "operation", operation);
     (lit "operationId", Some (JStr (operationId_of operation startTime)));
     (lit "executionTime", Some (JStr (number_to_string (now - startTime) ++ lit "ms")));
     (lit "error", Some (JObj (js_object
        [(lit "message", Some (JStr (err_message error)));
         (lit "type", Some (JStr (err_name error)));
         (lit "stack",
          if bool_decide (NODE_ENV cfg = Some (lit "development"))
          then Some (JStr (stack_of cfg error)) else None)])));
     (lit "suggestions",
      Some (JArr (List.map JStr (getErrorSuggestions error operation))))]).

Definition inline_response (operation : option json) (startTime now now' : Z)
           (result : js_result) (len : option Z) : json :=
  JObj (js_object
    [(lit "success", Some (JBool true));
     (lit "operation", operation);
     (lit "operationId", Some (JStr (operationId_of operation startTime)));
     (lit "executionTime", Some (JStr (number_to_string (now - startTime) ++ lit "ms")));
     (lit "data", result_value result);
     (lit "metadata", Some (JObj (js_object
        [(lit "resultCount", Some (JNum (match len with Some n => n | None => 0 end)));
         (lit "timestamp", Some (JStr (toISOString now')));
         (lit "cacheHit", Some (JBool false))])))]).

(** The key under which a result is stored, and the stored document. *)
Definition spill_key (operation : option json) (now : Z) : jsstring :=
  lit "results/" ++ to_string operation ++ lit "-" ++ number_to_string now ++ lit ".json".

Definition spill_document (operation : option json) (result : js_result)
           (generatedAt : Z) (len : option Z) : json :=
  JObj (js_object [(lit "operation", operation);
                   (lit "data", result_value result);
                   (lit "generatedAt", Some (JStr (toISOString generatedAt)));
                   (lit "recordCount", option_map JNum len)]).

Definition blob_response (cfg : config) (operation : option json)
           (startTime keyTime now now' : Z) (len : option Z) : json :=
  JObj (js_object
    [(lit "success", Some (JBool true));
     (lit "operation", operation);
     (lit "executionTime", Some (JStr (number_to_string (now - startTime) ++ lit "ms")));
     (lit "largeResult", Some (JBool true));
     (lit "s3Url", Some (JStr (lit "s3://" ++ s3Bucket cfg ++ lit "/"
                                ++ spill_key operation keyTime)));
     (lit "downloadUrl", Some (JStr (lit "/download/"
                                ++ split_pop (chr "/") (spill_key operation keyTime))));
     (lit "recordCount", option_map JNum len);
     (lit "message", Some (JStr (lit "Large result saved to S3 for download")));
     (lit "metadata", Some (JObj (js_object
        [(lit "resultCount", option_map JNum len);
         (lit "timestamp", Some (JStr (toISOString now')));
         (lit "cacheHit", Some (JBool false))])))]).

Definition default_parameters (parameters : option json) : json :=
  match parameters with Some p => p | None => JObj [] end.

(** The clock readings of a run: [reading w i] is the [i]-th one from [w]. *)
Definition reading (w : world) (i : nat) : Z := clock w (ticks w + i).

Lemma saveLargeResultToS3_eq (cfg : config) (result : js_result)
      (operation : option json) (startTime : Z) (len : option Z) (w : world) :
  result_length result = Return len ->
  saveLargeResultToS3 cfg result operation startTime w =
  (Return (blob_response cfg operation startTime (reading w 0) (reading w 2)
                         (reading w 3) len),
   tick (tick (stored (spill_key operation (reading w 0))
                 (JSON_stringify_2 (spill_document operation result (reading w 1) len))
                 (tick (tick w))))).
Proof.
  intros Hlen. unfold saveLargeResultToS3, new_Date_toISOString, bind, lift, ret,
    Date_now, s3_put. rewrite Hlen. unfold reading. cbn [ticks tick stored clock].
  rewrite !Nat.add_0_r.
  replace (ticks w + 1)%nat with (S (ticks w)) by lia.
  replace (ticks w + 2)%nat with (S (S (ticks w))) by lia.
  replace (ticks w + 3)%nat with (S (S (S (ticks w)))) by lia.
  reflexivity.
Qed.

Lemma executeAnalyticsOperation_failure (cfg : config) (operation parameters : option json)
      (w w2 : world) (e : js_error) :
  run_operation operation (default_parameters parameters) (tick w) = (Throw e, w2) ->
  executeAnalyticsOperation cfg operation parameters w =
  (Return (failure_response cfg operation (reading w 0) (reading w2 0) e), tick w2).
Proof.
  intros Hrun. unfold executeAnalyticsOperation, try_catch, bind, Date_now, ret.
  fold (default_parameters parameters). rewrite Hrun. unfold reading.
  rewrite !Nat.add_0_r. reflexivity.
Qed.

Lemma executeAnalyticsOperation_undefined (cfg : config) (operation parameters : option json)
      (w w2 : world) :
  run_operation operation (default_parameters parameters) (tick w)
  = (Return RUndefined, w2) ->
  executeAnalyticsOperation cfg operation parameters w =
  (Return (failure_response cfg operation (reading w 0) (reading w2 0)
             (cannot_read (lit "undefined") (lit "length"))), tick w2).
Proof.
  intros Hrun. unfold executeAnalyticsOperation, try_catch, bind, Date_now, ret, lift.
  fold (default_parameters parameters). rewrite Hrun. unfold reading.
  rewrite !Nat.add_0_r. reflexivity.
Qed.

Lemma executeAnalyticsOperation_inline (cfg : config) (operation parameters : option json)
      (w w2 : world) (result : js_result) (len : option Z) :
  run_operation operation (default_parameters parameters) (tick w)
  = (Return result, w2) ->
  result_length result = Return len ->
  exceeds len 1000 || (5000000 <? js_length (stringify_result result)) = false ->
  executeAnalyticsOperation cfg operation parameters w =
  (Return (inline_response operation (reading w 0) (reading w2 0) (reading w2 1)
             result len), tick (tick w2)).
Proof.
  intros Hrun Hlen Hsmall.
  unfold executeAnalyticsOperation, try_catch, bind, Date_now, ret, lift,
    new_Date_toISOString.
  fold (default_parameters parameters). rewrite Hrun, Hlen, Hsmall.
  unfold reading, bind, Date_now, ret. cbn [ticks tick clock].
  rewrite !Nat.add_0_r. replace (ticks w2 + 1)%nat with (S (ticks w2)) by lia.
  reflexivity.
Qed.

Lemma executeAnalyticsOperation_spill (cfg : config) (operation parameters : option json)
      (w w2 : world) (result : js_result) (len : option Z) :
  run_operation operation (default_parameters parameters) (tick w)
  = (Return result, w2) ->
  result_length result = Return len ->
  exceeds len 1000 || (5000000 <? js_length (stringify_result result)) = true ->
  executeAnalyticsOperation cfg operation parameters w =
  saveLargeResultToS3 cfg result operation (reading w 0) w2.
Proof.
  intros Hrun Hlen Hlarge.
  rewrite (saveLargeResultToS3_eq cfg result operation _ len w2 Hlen).
  unfold executeAnalyticsOperation, try_catch, bind, Date_now, ret, lift.
  fold (default_parameters parameters). rewrite Hrun, Hlen, Hlarge.
  rewrite (saveLargeResultToS3_eq cfg result operation _ len w2 Hlen).
  unfold reading. rewrite !Nat.add_0_r. reflexivity.
Qed.

(** ** Error suggestions *)


Definition is_success (props : list (jsstring * json)) : Prop :=
  lookup_prop (lit "success") props = Some (JBool true).

Definition is_failure (props : list (jsstring * json)) : Prop :=
  lookup_prop (lit "success") props = Some (JBool false).


(** ** Routing by size *)







(** Concrete data for the examples. *)
Definition demo_config : config :=
  mkConfig (Some (lit "results-bucket")) None (fun _ => []).

Definition demo_rows : list json :=
  [JObj [(lit "industry", JStr (lit "Technology")); (lit "customer_count", JNum 3)];
   JObj [(lit "industry", JStr (lit "Retail")); (lit "customer_count", JNum 1)]].

Definition demo_db (history : list db_request) (r : db_request) : outcome pg_result :=
  match r with
  | SimpleDemo => Return (mkResult (Some demo_rows) (Some (JNum 2)))
  | PoolQuery _ _ => Return (mkResult (Some []) (Some (JNum 0)))
  | _ => Throw (new_Error (lit "connection timeout"))
  end.

Definition demo_world : world :=
  mkWorld (fun i => Z.of_nat i + 1700000000000) 0 demo_db [] ∅.





(** ** The byte threshold *)















(** ** Unknown operations *)

Lemma unregistered_dispatch (name : jsstring) (parameters : json) (w : world) :
  ~ In name (List.map lit registered_operations) ->
  run_operation (Some (JStr name)) parameters w
  = (Throw (new_Error (lit "Unknown analytics operation: " ++ name)), w).
Proof.
  intros Hnot. unfold run_operation, operation_is.
  repeat (rewrite bool_decide_eq_false_2
            by (intros ->; apply Hnot; cbn [List.map registered_operations In]; tauto)).
  reflexivity.
Qed.

Definition unknown_operation_event : api_event :=
  mkEvent (lit "POST") (lit "/analytics") None None
          (Some (JSON_stringify (JObj [(lit "operation", JStr (lit "invalid_operation_x"))]))).

(** C3, as stated, fails: for the operation ["invalid_operation_x"] the
    response is delivered with status 200, not a 4xx one, and its
    [error.type] is ["Error"], not ["UnknownOperationError"]. *)
Lemma unknown_operation_counterexample :
  exists resp w' payload error,
    handleApiGatewayEvent demo_config unknown_operation_event demo_world
    = (Return resp, w')
    /\ statusCode resp = 200
    /\ ~ (400 <= statusCode resp <= 499)
    /\ JSON_parse (body resp) = Some (JObj payload)
    /\ is_failure payload
    /\ lookup_prop (lit "error") payload = Some (JObj error)
    /\ lookup_prop (lit "type") error = Some (JStr (lit "Error"))
    /\ lookup_prop (lit "type") error <> Some (JStr (lit "UnknownOperationError")).
Proof.
  destruct (handleApiGatewayEvent demo_config unknown_operation_event demo_world)
    as [r w'] eqn:E.
  vm_compute in E. injection E as <- <-.
  eexists _, _, _, _. split; [reflexivity|].
  split; [reflexivity|]. split; [cbn [statusCode]; lia|].
  split; [vm_compute; reflexivity|].
  split; [reflexivity|]. split; [reflexivity|]. split; [reflexivity|].
  vm_compute. discriminate.
Qed.

(** C3, amended. For every operation name outside the registry, a POST to
    [/analytics] is answered with status 200; the body is the failure
    response with [success: false], [error.type] ["Error"] and the message
    ["Unknown analytics operation: <name>"]; the database is not called. *)
Theorem unknown_operation_is_plain_error
        (cfg : config) (event : api_event) (w : world)
        (text name : jsstring) (props : list (jsstring * json)) :
  httpMethod event = lit "POST" ->
  includes (path event) (lit "/analytics") = true ->
  event_body event = Some text ->
  JSON_parse text = Some (JObj props) ->
  lookup_prop (lit "operation") props = Some (JStr name) ->
  ~ In name (List.map lit registered_operations) ->
  let error := new_Error (lit "Unknown analytics operation: " ++ name) in
  let response := failure_response cfg (Some (JStr name)) (reading w 0) (reading w 1) error in
  handleApiGatewayEvent cfg event w
  = (Return (mkResponse 200 api_headers (JSON_stringify response)), tick (tick w))
  /\ (exists payload,
         response = JObj payload /\ is_failure payload
         /\ lookup_prop (lit "error") payload
            = Some (JObj (js_object
                 [(lit "message", Some (JStr (err_message error)));
                  (lit "type", Some (JStr (lit "Error")));
                  (lit "stack",
                   if bool_decide (NODE_ENV cfg = Some (lit "development"))
                   then Some (JStr (stack_of cfg error)) else None)])))
  /\ db_log (tick (tick w)) = db_log w.
Proof.
  intros Hmethod Hpath Hbody Hparse Hop Hnot error response.
  split; [|split; [|reflexivity]].
  - unfold handleApiGatewayEvent, method_is. rewrite Hmethod, Hpath, Hbody.
    change (bool_decide (lit "POST" = lit "OPTIONS")) with false.
    change (bool_decide (lit "POST" = lit "GET")) with false.
    change (bool_decide (lit "POST" = lit "POST")) with true.
    cbn [andb]. cbv iota.
    destruct text as [|c t]; [discriminate Hparse|].
    unfold try_catch, bind, lift, JSON_parse_or_throw, ret. rewrite Hparse.
    cbn [get_member]. rewrite Hop.
    rewrite (executeAnalyticsOperation_failure cfg (Some (JStr name))
               (lookup_prop (lit "parameters") props) w (tick w) error).
    + unfold response, reading. cbn [tick ticks clock]. rewrite !Nat.add_0_r.
      replace (ticks w + 1)%nat with (S (ticks w)) by lia. reflexivity.
    + now apply unregistered_dispatch.
  - unfold response, failure_response. eexists. split; [reflexivity|].
    split; reflexivity.
Qed.

Lemma unknown_operation_witness :
  exists payload,
    fst (handleApiGatewayEvent demo_config unknown_operation_event demo_world)
    = Return (mkResponse 200 api_headers (JSON_stringify (JObj payload)))
    /\ is_failure payload.
Proof.
  destruct (unknown_operation_is_plain_error demo_config unknown_operation_event
              demo_world
              (JSON_stringify (JObj [(lit "operation", JStr (lit "invalid_operation_x"))]))
              (lit "invalid_operation_x")
              [(lit "operation", JStr (lit "invalid_operation_x"))])
    as (Hrun & (payload & Hresp & Hfail & _) & _).
  - reflexivity.
  - reflexivity.
  - reflexivity.
  - vm_compute. reflexivity.
  - reflexivity.
  - cbn [List.map registered_operations In]. intros H.
    repeat (destruct H as [H|H]; [discriminate H|]). exact H.
  - exists payload. rewrite Hrun, <- Hresp. split; [reflexivity | exact Hfail].
Defined.

(** ** Required parameters *)






(** ** The sandbox of ad-hoc queries *)

(** A query the validator refuses: some forbidden pattern matches a
    substring of it. *)
Definition matches_forbidden_pattern (q : jsstring) : Prop :=
  exists pattern,
    In pattern forbiddenPatterns
    /\ exists pre m post, q = pre ++ m ++ post /\ re_lang pattern m.

Lemma matches_forbidden_pattern_test (q : jsstring) :
  matches_forbidden_pattern q <->
  existsb (fun pattern => regex_test pattern q) forbiddenPatterns = true.
Proof.
  unfold matches_forbidden_pattern. rewrite existsb_exists. split.
  - intros (pattern & Hin & Hm). exists pattern. split; [exact Hin|].
    now apply regex_test_spec.
  - intros (pattern & Hin & Hm). exists pattern. split; [exact Hin|].
    now apply regex_test_spec.
Qed.




Definition drop_table_query : jsstring := lit "DROP TABLE entities".




(** ** Entry points that run the caller's SQL *)

(** C5 fails on the code: the handler of the ingestion Lambda sends
    [event.query] to the database as it is. Whatever the text, the one
    request made is that text; the statement [DROP TABLE entities], which
    the validator of the analytics service refuses, is sent. *)
Theorem ingestion_handler_runs_unvalidated_sql :
  (forall (event_query : option json) (w : world),
      truthy event_query = true ->
      db_log (snd (data_processor_handler event_query w))
      = PoolQuery event_query None :: db_log w)
  /\ validateCustomQuery (JStr drop_table_query)
     = Throw (new_Error (lit "Query contains forbidden operations"))
  /\ db_log (snd (data_processor_handler (Some (JStr drop_table_query)) demo_world))
     = [PoolQuery (Some (JStr drop_table_query)) None].
Proof.
  split; [|split; [vm_compute; reflexivity | reflexivity]].
  intros event_query w Hq. unfold data_processor_handler. rewrite Hq.
  unfold try_catch, bind, pool_query, ret.
  destruct (db w (db_log w) (PoolQuery event_query None)); reflexivity.
Qed.

(** ** Storage keys *)


















(** ** Round trip through the bucket *)






(** ** Job records *)

Import JobService.


(** The expression [updateJobStatus] sends starts with the keyword twice,
    once from its template and once from the first clause of its list: the
    store cannot read it. *)
Lemma update_expression_refused (ANALYTICS_TABLE : option jsstring)
      (jobId : option json) (status : json) (entries : list (jsstring * json)) :
  parse_update_expression
    (UpdateExpression (update_command ANALYTICS_TABLE jobId status entries)) = None.
Proof.
  unfold update_command. cbn [UpdateExpression].
  destruct entries as [|entry entries].
  - vm_compute. reflexivity.
  - cbn [List.map]. rewrite join_cons.
    generalize (join (lit ", ")
                  ((fst entry ++ lit " = :" ++ fst entry)
                     :: List.map (fun kv => fst kv ++ lit " = :" ++ fst kv) entries)).
    intros rest. vm_compute. reflexivity.
Qed.

Lemma updateJobStatus_never_writes (ANALYTICS_TABLE : option jsstring)
      (jobId : option json) (status : json) (additionalData : option json) (t : table) :
  exists error, updateJobStatus ANALYTICS_TABLE jobId status additionalData t = (Throw error, t).
Proof.
  unfold updateJobStatus.
  destruct (own_entries _) as [entries|e]; [|eauto].
  unfold UpdateItem. rewrite update_expression_refused. eauto.
Qed.





(** * More of the code

    The rest of [AnalyticsService] and of the handlers around it, the job
    service, the database service of the ingestion side and the query API. *)

(** ** The sandbox validator, further *)

(** Every string the pattern matches contains a white-space character. *)
Fixpoint needs_space (r : regex) : bool :=
  match r with
  | Void => true
  | Eps => false
  | Cls CSpace => true
  | Cls _ => false
  | Seq r1 r2 => needs_space r1 || needs_space r2
  | Alt r1 r2 => needs_space r1 && needs_space r2
  | Star _ => false
  end.

Lemma needs_space_sound (r : regex) (m : jsstring) :
  needs_space r = true -> re_lang r m -> existsb is_space m = true.
Proof.
  intros Hr Hm. induction Hm as [|k c Hc|r1 r2 u v _ IHu _ IHv|r1 r2 u _ IH
                                 |r1 r2 u _ IH|r0|r0 u v _ _ _ _];
    cbn [needs_space] in Hr; try discriminate.
  - destruct k; try discriminate. cbn [class_matches] in Hc.
    cbn [existsb]. now rewrite Hc.
  - rewrite existsb_app. apply orb_true_iff in Hr as [H|H];
      [rewrite (IHu H) | rewrite (IHv H)]; auto using orb_true_r.
  - apply andb_true_iff in Hr as [H _]. auto.
  - apply andb_true_iff in Hr as [_ H]. auto.
Qed.

Lemma forbiddenPatterns_need_space :
  forallb needs_space forbiddenPatterns = true.
Proof. vm_compute. reflexivity. Qed.

Lemma no_space_no_forbidden_pattern (q : jsstring) :
  existsb is_space q = false -> ~ matches_forbidden_pattern q.
Proof.
  intros Hq (pattern & Hin & pre & m & post & -> & Hm).
  pose proof forbiddenPatterns_need_space as Hall.
  rewrite forallb_forall in Hall.
  pose proof (needs_space_sound pattern m (Hall pattern Hin) Hm) as Hs.
  rewrite !existsb_app, Hs, orb_true_r in Hq. discriminate.
Qed.

Lemma validateCustomQuery_string (q : jsstring) :
  validateCustomQuery (JStr q)
  = if existsb (fun pattern => regex_test pattern q) forbiddenPatterns
    then Throw (new_Error (lit "Query contains forbidden operations"))
    else if 10000 <? js_length q
    then Throw (new_Error (lit "Query too complex. Maximum length exceeded."))
    else Return tt.
Proof. reflexivity. Qed.

(** X1. A query string passes [validateCustomQuery] exactly when none of
    the nine patterns matches a part of it and its length is at most 10000
    code units; a query in which a pattern matches gets the error of the
    forbidden operations whatever its length, and a query without a match
    and longer than 10000 gets the error of the length. *)
Theorem validateCustomQuery_verdicts (q : jsstring) :
  (validateCustomQuery (JStr q) = Return tt
   <-> ~ matches_forbidden_pattern q /\ js_length q <= 10000)
  /\ (matches_forbidden_pattern q
      <-> validateCustomQuery (JStr q)
          = Throw (new_Error (lit "Query contains forbidden operations")))
  /\ (~ matches_forbidden_pattern q /\ 10000 < js_length q
      <-> validateCustomQuery (JStr q)
          = Throw (new_Error (lit "Query too complex. Maximum length exceeded."))).
Proof.
  rewrite validateCustomQuery_string.
  pose proof (matches_forbidden_pattern_test q) as Htest.
  destruct (existsb (fun pattern => regex_test pattern q) forbiddenPatterns).
  - assert (Hm : matches_forbidden_pattern q) by now apply Htest.
    split; [|split]; split; try discriminate; tauto.
  - assert (Hm : ~ matches_forbidden_pattern q).
    { intros H. apply Htest in H. discriminate. }
    destruct (Z.ltb_spec 10000 (js_length q)) as [Hlen|Hlen].
    + split; [|split]; split; try discriminate; try tauto; try lia.
    + split; [|split]; split; try discriminate; try tauto; try lia.
Qed.

(** X2. A query without any white-space character is never refused as a
    forbidden operation: every pattern of the validator asks for white space
    after its keyword. With at most 10000 code units such a query passes. *)
Theorem query_without_space_passes (q : jsstring) :
  existsb is_space q = false ->
  js_length q <= 10000 ->
  validateCustomQuery (JStr q) = Return tt.
Proof.
  intros Hq Hlen. rewrite validateCustomQuery_string.
  pose proof (matches_forbidden_pattern_test q) as Htest.
  destruct (existsb (fun pattern => regex_test pattern q) forbiddenPatterns).
  - exfalso. apply (no_space_no_forbidden_pattern q Hq). now apply Htest.
  - destruct (Z.ltb_spec 10000 (js_length q)); [lia | reflexivity].
Qed.

Lemma query_without_space_witness :
  validateCustomQuery (JStr (lit "DROP/**/TABLE/**/entities")) = Return tt.
Proof.
  apply query_without_space_passes; [reflexivity | vm_compute; discriminate].
Defined.

(** *** Letter case *)

Lemma lower_case_letter (c : N) :
  (97 <=? c)%N && (c <=? 122)%N = true ->
  exists n, (n < 26)%nat /\ c = (N.of_nat n + 97)%N.
Proof.
  intros H. apply andb_true_iff in H as [H1 H2].
  apply N.leb_le in H1, H2. exists (N.to_nat (c - 97)). split; lia.
Qed.

Lemma is_space_canonicalize (c : N) : is_space (canonicalize c) = is_space c.
Proof.
  unfold canonicalize. destruct ((97 <=? c)%N && (c <=? 122)%N) eqn:E; [|reflexivity].
  destruct (lower_case_letter c E) as (n & Hn & ->).
  do 26 (destruct n as [|n]; [reflexivity|]). lia.
Qed.

Lemma is_word_canonicalize (c : N) : is_word (canonicalize c) = is_word c.
Proof.
  unfold canonicalize. destruct ((97 <=? c)%N && (c <=? 122)%N) eqn:E; [|reflexivity].
  destruct (lower_case_letter c E) as (n & Hn & ->).
  do 26 (destruct n as [|n]; [reflexivity|]). lia.
Qed.

Lemma class_matches_canonical (k : char_class) (c1 c2 : N) :
  canonicalize c1 = canonicalize c2 -> class_matches k c1 = class_matches k c2.
Proof.
  intros H. destruct k as [p| |]; cbn [class_matches].
  - now rewrite H.
  - now rewrite <- (is_space_canonicalize c1), H, is_space_canonicalize.
  - now rewrite <- (is_word_canonicalize c1), H, is_word_canonicalize.
Qed.

Lemma deriv_canonical (r : regex) (c1 c2 : N) :
  canonicalize c1 = canonicalize c2 -> deriv c1 r = deriv c2 r.
Proof.
  intros H. induction r as [| |k|r1 IH1 r2 IH2|r1 IH1 r2 IH2|r IH]; cbn [deriv];
    try reflexivity.
  - now rewrite (class_matches_canonical k c1 c2 H).
  - now rewrite IH1, IH2.
  - now rewrite IH1, IH2.
  - now rewrite IH.
Qed.

Lemma match_prefix_canonical (s1 s2 : jsstring) (r : regex) :
  List.map canonicalize s1 = List.map canonicalize s2 ->
  match_prefix r s1 = match_prefix r s2.
Proof.
  revert s2 r. induction s1 as [|c1 t1 IH]; intros [|c2 t2] r H;
    cbn [List.map] in H; try discriminate; [reflexivity|].
  injection H as Hc Ht. cbn [match_prefix].
  now rewrite (deriv_canonical r c1 c2 Hc), (IH t2 _ Ht).
Qed.

Lemma regex_test_canonical (s1 s2 : jsstring) (r : regex) :
  List.map canonicalize s1 = List.map canonicalize s2 ->
  regex_test r s1 = regex_test r s2.
Proof.
  revert s2. induction s1 as [|c1 t1 IH]; intros [|c2 t2] H;
    cbn [List.map] in H; try discriminate; [reflexivity|].
  cbn [regex_test]. rewrite (match_prefix_canonical (c1 :: t1) (c2 :: t2) r H).
  injection H as _ Ht. now rewrite (IH t2 Ht).
Qed.

(** X3. The verdict of [validateCustomQuery] does not depend on the case of
    the ASCII letters of the query: two query strings that are equal up to
    the case of their letters get the same verdict. *)
Theorem validateCustomQuery_ignores_case (q1 q2 : jsstring) :
  List.map canonicalize q1 = List.map canonicalize q2 ->
  validateCustomQuery (JStr q1) = validateCustomQuery (JStr q2).
Proof.
  intros H. rewrite !validateCustomQuery_string.
  assert (Hlen : js_length q1 = js_length q2).
  { unfold js_length. apply (f_equal (@length N)) in H.
    rewrite !length_map in H. now rewrite H. }
  rewrite Hlen.
  assert (Htest : forall patterns,
             existsb (fun pattern => regex_test pattern q1) patterns
             = existsb (fun pattern => regex_test pattern q2) patterns).
  { induction patterns as [|p ps IH]; [reflexivity|]. cbn [existsb].
    now rewrite IH, (regex_test_canonical q1 q2 p H). }
  now rewrite Htest.
Qed.

Lemma validateCustomQuery_ignores_case_witness :
  validateCustomQuery (JStr (lit "Delete From entities"))
  = validateCustomQuery (JStr (lit "DELETE FROM ENTITIES")).
Proof. apply validateCustomQuery_ignores_case. reflexivity. Defined.

(** ** Downloads *)



(** ** The health report *)

Definition status_is (props : list (jsstring * json)) (status database : string) : Prop :=
  lookup_prop (lit "status") props = Some (JStr (lit status))
  /\ lookup_prop (lit "database") props = Some (JStr (lit database)).

(** X5. [getServiceHealth] never throws and makes exactly one attempt at
    the health check of the database. When the database refuses it the report
    says [unhealthy] / [disconnected] and carries the message of the error;
    when the database answers with a first row that is not [null] the report
    says [healthy] / [connected]; there is no third kind of report. *)
Theorem getServiceHealth_reports (w : world) :
  exists props w',
    getServiceHealth w = (Return (JObj props), w')
    /\ db_log w' = HealthCheck :: db_log w
    /\ s3 w' = s3 w
    /\ (status_is props "healthy" "connected"
        \/ (status_is props "unhealthy" "disconnected"
            /\ exists message, lookup_prop (lit "error") props = Some (JStr message)))
    /\ (forall e, db w (db_log w) HealthCheck = Throw e ->
                  status_is props "unhealthy" "disconnected"
                  /\ lookup_prop (lit "error") props = Some (JStr (err_message e)))
    /\ (forall row others count,
           db w (db_log w) HealthCheck = Return (mkResult (Some (row :: others)) count) ->
           row <> JNull -> status_is props "healthy" "connected").
Proof.
  unfold getServiceHealth, try_catch, bind, pool_query, new_Date_toISOString,
    Date_now, ret, lift, throw, bind.
  destruct (db w (db_log w) HealthCheck) as [[[[|row others]|] count]|e] eqn:Hdb;
    cbn [rows]; [| destruct row as [|b|z|s|items|fields] | |]; cbn [get_member];
    eexists _, _; (split; [reflexivity|]); (split; [reflexivity|]);
    (split; [reflexivity|]); unfold status_is;
    (split; [first [left; split; reflexivity
                   | right; split; [split; reflexivity | eexists; reflexivity]] |]);
    (split; [intros e' He';
             first [discriminate He'
                   | injection He' as <-; split; [split|]; reflexivity] |]);
    intros row' others' count' H Hn;
    first [discriminate H
          | injection H as ? ? ?; subst; first [congruence | split; reflexivity]].
Qed.

(** ** The API Gateway handler *)







Lemma method_is_other (event : api_event) (method other : string) :
  httpMethod event = lit method -> lit method <> lit other ->
  method_is event other = false.
Proof.
  intros H Hne. unfold method_is. rewrite H. now apply bool_decide_eq_false_2.
Qed.

Lemma method_is_same (event : api_event) (method : string) :
  httpMethod event = lit method -> method_is event method = true.
Proof.
  intros H. unfold method_is. rewrite H. now apply bool_decide_eq_true_2.
Qed.




Lemma JSON_stringify_nonempty (v : json) : JSON_stringify v <> [].
Proof.
  unfold JSON_stringify.
  destruct v as [|[|]|[|p|p]|s|items|props]; cbn [serialize]; try discriminate.
  - unfold number_to_string, nat_digits, N.to_uint.
    pose proof (DecimalPos.Unsigned.to_uint_nonnil p) as Hnil.
    destruct (Pos.to_uint p); [contradiction|discriminate..].
  - destruct (List.map _ items); discriminate.
  - destruct (List.map _ props); discriminate.
Qed.

(** X8. The two ways of calling an operation agree: a GET on the analytics
    route with the query-string parameters [operation] and [parameters],
    the second being the JSON text of a value, gets the same answer as a POST
    on that route whose body is the JSON text of the object with these two
    properties. *)
Theorem get_and_post_agree
        (cfg : config) (operation : jsstring) (parameters : json)
        (get post : api_event) (w : world) :
  wf_json parameters = true ->
  httpMethod get = lit "GET" ->
  includes (path get) (lit "/download/") = false ->
  includes (path get) (lit "/health") = false ->
  includes (path get) (lit "/analytics") = true ->
  queryStringParameters get
  = Some (JObj [(lit "operation", JStr operation);
                (lit "parameters", JStr (JSON_stringify parameters))]) ->
  httpMethod post = lit "POST" ->
  includes (path post) (lit "/analytics") = true ->
  event_body post
  = Some (JSON_stringify (JObj [(lit "operation", JStr operation);
                                (lit "parameters", parameters)])) ->
  handleApiGatewayEvent cfg get w = handleApiGatewayEvent cfg post w.
Proof.
  intros Hwf Hget Hdownload Hhealth Hanalytics Hquery Hpost Hpath Hbody.
  unfold handleApiGatewayEvent.
  rewrite (method_is_other get "GET" "OPTIONS" Hget) by discriminate.
  rewrite (method_is_other get "GET" "POST" Hget) by discriminate.
  rewrite (method_is_same get "GET" Hget), Hdownload, Hhealth, Hanalytics, Hquery.
  rewrite (method_is_other post "POST" "OPTIONS" Hpost) by discriminate.
  rewrite (method_is_other post "POST" "GET" Hpost) by discriminate.
  rewrite (method_is_same post "POST" Hpost), Hpath, Hbody.
  cbn [andb]. cbv zeta.
  change (optional_member
            (Some (JObj [(lit "operation", JStr operation);
                         (lit "parameters", JStr (JSON_stringify parameters))]))
            (lit "parameters")) with (Some (JStr (JSON_stringify parameters))).
  change (optional_member
            (Some (JObj [(lit "operation", JStr operation);
                         (lit "parameters", JStr (JSON_stringify parameters))]))
            (lit "operation")) with (Some (JStr operation)).
  assert (Hobj : wf_json (JObj [(lit "operation", JStr operation);
                                (lit "parameters", parameters)]) = true).
  { cbn [wf_json List.map fst snd forallb]. rewrite Hwf. reflexivity. }
  pose proof (JSON_stringify_nonempty parameters) as Hne.
  pose proof (JSON_stringify_nonempty
                (JObj [(lit "operation", JStr operation);
                       (lit "parameters", parameters)])) as Hne'.
  destruct (JSON_stringify (JObj [(lit "operation", JStr operation);
                                  (lit "parameters", parameters)]))
    as [|c t] eqn:Hbody'; [contradiction|].
  rewrite <- Hbody'.
  unfold JSON_parse_or_throw. rewrite (JSON_parse_stringify _ Hobj).
  cbn [to_string js_to_string truthy].
  destruct (JSON_stringify parameters) as [|c' t'] eqn:Hp; [contradiction|].
  rewrite <- Hp. rewrite (JSON_parse_stringify _ Hwf).
  reflexivity.
Qed.

Definition get_simple_demo : api_event :=
  mkEvent (lit "GET") (lit "/analytics")
          (Some (JObj [(lit "operation", JStr (lit "simple_demo"));
                       (lit "parameters", JStr (JSON_stringify (JObj [])))]))
          None None.

Definition post_simple_demo : api_event :=
  mkEvent (lit "POST") (lit "/analytics") None None
          (Some (JSON_stringify (JObj [(lit "operation", JStr (lit "simple_demo"));
                                       (lit "parameters", JObj [])]))).

Lemma get_and_post_agree_witness :
  handleApiGatewayEvent demo_config get_simple_demo demo_world
  = handleApiGatewayEvent demo_config post_simple_demo demo_world.
Proof.
  apply (get_and_post_agree demo_config (lit "simple_demo") (JObj [])); reflexivity.
Defined.

(** The report of a database that does not answer. *)
Definition unhealthy_report (timestamp : Z) (message : jsstring) : json :=
  JObj (js_object
    [(lit "status", Some (JStr (lit "unhealthy")));
     (lit "database", Some (JStr (lit "disconnected")));
     (lit "timestamp", Some (JStr (toISOString timestamp)));
     (lit "error", Some (JStr message))]).

(** X9. The health route answers with status 200 also when the database is
    down: a GET on a path with [/health] (and without [/download/]), when the
    database refuses the health check, gets status 200 with the
    [unhealthy] report in the body. *)
Theorem health_route_is_200_when_database_is_down
        (cfg : config) (event : api_event) (w : world) (e : js_error) :
  httpMethod event = lit "GET" ->
  includes (path event) (lit "/download/") = false ->
  includes (path event) (lit "/health") = true ->
  db w (db_log w) HealthCheck = Throw e ->
  handleApiGatewayEvent cfg event w
  = (Return (mkResponse 200 api_headers
               (JSON_stringify (unhealthy_report (reading w 0) (err_message e)))),
     tick (sent HealthCheck w)).
Proof.
  intros Hm Hdownload Hhealth Hdb. unfold handleApiGatewayEvent.
  rewrite (method_is_other event "GET" "OPTIONS" Hm) by discriminate.
  rewrite (method_is_same event "GET" Hm), Hdownload, Hhealth. cbn [andb].
  unfold try_catch, bind, getServiceHealth, try_catch, bind, pool_query,
    new_Date_toISOString, bind, Date_now, ret.
  rewrite Hdb. unfold reading. cbn [sent ticks clock]. rewrite Nat.add_0_r.
  reflexivity.
Qed.

Definition health_event : api_event :=
  mkEvent (lit "GET") (lit "/prod/health") None None None.

Lemma health_route_witness :
  statusCode (match fst (handleApiGatewayEvent demo_config health_event demo_world) with
              | Return response => response
              | Throw _ => mkResponse 0 [] []
              end) = 200.
Proof.
  rewrite (health_route_is_200_when_database_is_down demo_config health_event demo_world
             (new_Error (lit "connection timeout")));
    reflexivity.
Defined.

(** ** Direct invocations *)


Lemma lookup_set_prop_ne (k k0 : jsstring) (v : json) (props : list (jsstring * json)) :
  k0 <> k -> lookup_prop k0 (set_prop k v props) = lookup_prop k0 props.
Proof.
  intros Hne. induction props as [|[k' v'] rest IH]; cbn [set_prop lookup_prop].
  - destruct (decide (k = k0)); [congruence | reflexivity].
  - destruct (decide (k' = k)) as [->|Hk]; cbn [lookup_prop].
    + destruct (decide (k = k0)); [congruence | reflexivity].
    + destruct (decide (k' = k0)); [reflexivity | exact IH].
Qed.



(** ** Responses of [executeAnalyticsOperation], further *)

Lemma failure_response_error (cfg : config) (operation : option json)
      (startTime now : Z) (e : js_error) :
  exists props error,
    failure_response cfg operation startTime now e = JObj props
    /\ is_failure props
    /\ lookup_prop (lit "error") props = Some (JObj error)
    /\ lookup_prop (lit "message") error = Some (JStr (err_message e))
    /\ lookup_prop (lit "stack") error
       = if bool_decide (NODE_ENV cfg = Some (lit "development"))
         then Some (JStr (stack_of cfg e)) else None.
Proof.
  unfold failure_response.
  destruct operation, (bool_decide (NODE_ENV cfg = Some (lit "development")));
    eexists _, _; (split; [reflexivity|]); repeat split; reflexivity.
Qed.

Lemma inline_response_success (operation : option json) (st now now' : Z)
      (result : js_result) (len : option Z) :
  exists props,
    inline_response operation st now now' result len = JObj props /\ is_success props.
Proof.
  unfold inline_response. eexists. split; [reflexivity|]. now destruct operation.
Qed.

Lemma blob_response_success (cfg : config) (operation : option json)
      (st kt now now' : Z) (len : option Z) :
  exists props,
    blob_response cfg operation st kt now now' len = JObj props /\ is_success props.
Proof.
  unfold blob_response. eexists. split; [reflexivity|]. now destruct operation.
Qed.



(** X12. The answer of [database_info] is not an array, so its row count
    is never looked at: however many tables it lists, it is returned inline
    as long as its JSON text has at most 5,000,000 code units, and the
    [resultCount] of the response is 0. *)
Theorem database_info_counts_nothing
        (cfg : config) (operation parameters : option json) (w w2 : world)
        (tables : list json) (structure : option (list json)) :
  run_operation operation (default_parameters parameters) (tick w)
  = (Return (RInfo tables structure), w2) ->
  js_length (stringify_result (RInfo tables structure)) <= 5000000 ->
  exists props metadata w',
    executeAnalyticsOperation cfg operation parameters w = (Return (JObj props), w')
    /\ is_success props
    /\ lookup_prop (lit "data") props = result_value (RInfo tables structure)
    /\ lookup_prop (lit "downloadUrl") props = None
    /\ lookup_prop (lit "metadata") props = Some (JObj metadata)
    /\ lookup_prop (lit "resultCount") metadata = Some (JNum 0)
    /\ s3 w' = s3 w2.
Proof.
  intros Hrun Hsize.
  assert (Hsmall : exceeds None 1000
                   || (5000000 <? js_length (stringify_result (RInfo tables structure)))
                   = false).
  { cbn [exceeds orb]. now apply Z.ltb_ge. }
  rewrite (executeAnalyticsOperation_inline cfg _ _ _ _ (RInfo tables structure)
             None Hrun eq_refl Hsmall).
  unfold inline_response.
  destruct operation, structure;
    eexists _, _, _; (split; [reflexivity|]); repeat split; reflexivity.
Qed.

(** A database with 1001 tables. *)
Definition many_tables : list json :=
  repeat (JObj [(lit "table_name", JStr (lit "entities"))]) 1001.

Definition info_db (history : list db_request) (r : db_request) : outcome pg_result :=
  match r with
  | ListTables => Return (mkResult (Some many_tables) (Some (JNum 1001)))
  | _ => Return (mkResult (Some []) (Some (JNum 0)))
  end.

Definition info_world : world :=
  mkWorld (fun i => Z.of_nat i + 1700000000000) 0 info_db [] ∅.

Lemma database_info_witness :
  exists props metadata w',
    executeAnalyticsOperation demo_config (Some (JStr (lit "database_info"))) None info_world
    = (Return (JObj props), w')
    /\ lookup_prop (lit "metadata") props = Some (JObj metadata)
    /\ lookup_prop (lit "resultCount") metadata = Some (JNum 0).
Proof.
  destruct (database_info_counts_nothing demo_config
              (Some (JStr (lit "database_info"))) None info_world
              (sent (TableColumns (Some (JStr (lit "entities"))))
                    (sent ListTables (tick info_world)))
              many_tables (Some []))
    as (props & metadata & w' & Hrun & _ & _ & _ & Hmeta & Hcount & _).
  - vm_compute. reflexivity.
  - vm_compute. discriminate.
  - exists props, metadata, w'. split; [exact Hrun|]. split; [exact Hmeta | exact Hcount].
Defined.

(** ** The Step Functions entry and the scheduled run *)


Record scheduled_operation : Type := mkScheduled {
  scheduled_name : jsstring;
  scheduled_parameters : json;
  scheduled_description : jsstring
}.

Definition scheduledOperations : list scheduled_operation :=
  [mkScheduled (lit "multi_dimensional_analytics")
               (JObj [(lit "timeframe", JStr (lit "1 month"))])
               (lit "Monthly business analytics");
   mkScheduled (lit "data_integrity_analysis") (JObj [])
               (lit "Daily data quality check")].

(** [data?.length || 0]. *)
Definition length_or_zero (data : option json) : json :=
  match data with
  | Some (JArr items) => JNum (array_length items)
  | Some (JStr s) => JNum (js_length s)
  | Some (JObj props) => js_or (lookup_prop (lit "length") props) (JNum 0)
  | _ => JNum 0
  end.

(** One turn of the loop of [handleScheduledEvent]; the pause of a second
    that follows a run has no effect on the stores. *)
Definition run_scheduled (cfg : config) (op : scheduled_operation) : M json :=
  try_catch
    (result <- executeAnalyticsOperation cfg (Some (JStr (scheduled_name op)))
                                         (Some (scheduled_parameters op)) ;;
     success <- lift (get_member result (lit "success")) ;;
     executionTime <- lift (get_member result (lit "executionTime")) ;;
     data <- lift (get_member result (lit "data")) ;;
     ret (JObj (js_object
       [(lit "operation", Some (JStr (scheduled_name op)));
        (lit "description", Some (JStr (scheduled_description op)));
        (lit "success", success);
        (lit "executionTime", executionTime);
        (lit "resultCount", Some (length_or_zero data))])))
    (fun error =>
       ret (JObj (js_object
         [(lit "operation", Some (JStr (scheduled_name op)));
          (lit "description", Some (JStr (scheduled_description op)));
          (lit "success", Some (JBool false));
          (lit "error", Some (JStr (err_message error)))]))).

Fixpoint run_all_scheduled (cfg : config) (ops : list scheduled_operation)
         (results : list json) : M (list json) :=
  match ops with
  | [] => ret results
  | op :: rest =>
      entry <- run_scheduled cfg op ;;
      run_all_scheduled cfg rest (results ++ [entry])
  end.

(** [r.success] of an entry of [results], as a condition. *)
Definition entry_succeeded (entry : json) : bool :=
  truthy (optional_member (Some entry) (lit "success")).

Definition handleScheduledEvent (cfg : config) : M json :=
  results <- run_all_scheduled cfg scheduledOperations [] ;;
  timestamp <- new_Date_toISOString ;;
  ret (JObj (js_object
    [(lit "scheduledEvent", Some (JBool true));
     (lit "timestamp", Some (JStr timestamp));
     (lit "results", Some (JArr results));
     (lit "summary", Some (JObj (js_object
        [(lit "total", Some (JNum (array_length results)));
         (lit "successful",
          Some (JNum (array_length (List.filter entry_succeeded results))));
         (lit "failed",
          Some (JNum (array_length
                        (List.filter (fun r => negb (entry_succeeded r)) results))))])))])).

(** *** The Lambda handler *)

(** The event of an invocation: the fields of an API Gateway request
    ([httpMethod] is the empty string when the event has none), those of a
    direct invocation, and [source]. *)
Record lambda_event : Type := mkLambdaEvent {
  api_request : api_event;
  event_operation : option json;
  event_parameters : option json;
  event_requestId : option json;
  event_source : option json
}.

Inductive lambda_result : Type :=
| Http (response : http_response)
| Payload (value : json).

Definition internal_error_response (awsRequestId : option json) : http_response :=
  mkResponse 500 download_headers
    (JSON_stringify (JObj (js_object
       [(lit "success", Some (JBool false));
        (lit "error", Some (JStr (lit "Internal server error")));
        (lit "referenceId", awsRequestId)]))).

(** [exports.handler]; [event.source === 'aws.events'] is the test
    [operation_is] makes on a value. Closing the pool of the query service,
    in the [finally], goes through. *)
Definition handler (cfg : config) (event : lambda_event) (awsRequestId : option json)
  : M lambda_result :=
  try_catch
    (match httpMethod (api_request event) with
     | _ :: _ =>
         response <- handleApiGatewayEvent cfg (api_request event) ;;
         ret (Http response)
     | [] =>
         if truthy (event_operation event) then
           result <- handleDirectInvocation cfg (event_operation event)
                       (event_parameters event) (event_requestId event) ;;
           ret (Payload result)
         else if operation_is (event_source event) "aws.events" then
           result <- handleScheduledEvent cfg ;;
           ret (Payload result)
         else throw (new_Error (lit "Unknown invocation type"))
     end)
    (fun error => ret (Http (internal_error_response awsRequestId))).


(** Did the database answer a request with rows? *)
Definition answered (o : outcome pg_result) : bool :=
  match o with
  | Return r => match rows r with Some _ => true | None => false end
  | Throw _ => false
  end.

Definition produced (o : outcome js_result) : bool :=
  match o with
  | Return (RRows _) | Return (RInfo _ _) => true
  | _ => false
  end.

Lemma single_query_run (r : db_request) (w : world) :
  bind (pool_query r) (fun x => ret (rows_of x)) w
  = (match db w (db_log w) r with
     | Return x => Return (rows_of x)
     | Throw e => Throw e
     end, sent r w).
Proof. unfold bind, pool_query, ret. now destruct (db w (db_log w) r). Qed.

Lemma produced_single_query (o : outcome pg_result) :
  produced (match o with Return x => Return (rows_of x) | Throw e => Throw e end)
  = answered o.
Proof. destruct o as [[[items|] count]|e]; reflexivity. Qed.

Lemma executeAnalyticsOperation_verdict (cfg : config) (operation parameters : option json)
      (w w2 : world) (r : outcome js_result) :
  run_operation operation (default_parameters parameters) (tick w) = (r, w2) ->
  exists props w',
    executeAnalyticsOperation cfg operation parameters w = (Return (JObj props), w')
    /\ lookup_prop (lit "success") props = Some (JBool (produced r))
    /\ db_log w' = db_log w2 /\ db w' = db w2.
Proof.
  intros Hrun. destruct r as [result|e].
  - assert (Hok : forall len,
               result_length result = Return len ->
               exists props w',
                 executeAnalyticsOperation cfg operation parameters w
                 = (Return (JObj props), w')
                 /\ lookup_prop (lit "success") props = Some (JBool true)
                 /\ db_log w' = db_log w2 /\ db w' = db w2).
    { intros len Hlen.
      destruct (exceeds len 1000 || (5000000 <? js_length (stringify_result result)))
        eqn:Hsize.
      - rewrite (executeAnalyticsOperation_spill cfg _ _ _ _ result len Hrun Hlen Hsize).
        rewrite (saveLargeResultToS3_eq cfg result _ _ len _ Hlen).
        destruct (blob_response_success cfg operation (reading w 0) (reading w2 0)
                    (reading w2 2) (reading w2 3) len) as (props & -> & Hs).
        eexists _, _. split; [reflexivity|]. split; [exact Hs|]. split; reflexivity.
      - rewrite (executeAnalyticsOperation_inline cfg _ _ _ _ result len Hrun Hlen Hsize).
        destruct (inline_response_success operation (reading w 0) (reading w2 0)
                    (reading w2 1) result len) as (props & -> & Hs).
        eexists _, _. split; [reflexivity|]. split; [exact Hs|]. split; reflexivity. }
    destruct result as [|items|tables structure].
    + rewrite (executeAnalyticsOperation_undefined cfg _ _ _ _ Hrun).
      destruct (failure_response_error cfg operation (reading w 0) (reading w2 0)
                  (cannot_read (lit "undefined") (lit "length")))
        as (props & error & -> & Hf & _).
      eexists _, _. split; [reflexivity|]. split; [exact Hf|]. split; reflexivity.
    + now apply (Hok (Some (array_length items))).
    + now apply (Hok None).
  - rewrite (executeAnalyticsOperation_failure cfg _ _ _ _ _ Hrun).
    destruct (failure_response_error cfg operation (reading w 0) (reading w2 0) e)
      as (props & error & -> & Hf & _).
    eexists _, _. split; [reflexivity|]. split; [exact Hf|]. split; reflexivity.
Qed.

(** The entry of [results] made from the response of a run. *)
Definition scheduled_entry (op : scheduled_operation) (props : list (jsstring * json))
  : json :=
  JObj (js_object
    [(lit "operation", Some (JStr (scheduled_name op)));
     (lit "description", Some (JStr (scheduled_description op)));
     (lit "success", lookup_prop (lit "success") props);
     (lit "executionTime", lookup_prop (lit "executionTime") props);
     (lit "resultCount", Some (length_or_zero (lookup_prop (lit "data") props)))]).

Lemma run_scheduled_entry (cfg : config) (op : scheduled_operation)
      (props : list (jsstring * json)) (w w' : world) :
  executeAnalyticsOperation cfg (Some (JStr (scheduled_name op)))
                            (Some (scheduled_parameters op)) w
  = (Return (JObj props), w') ->
  run_scheduled cfg op w = (Return (scheduled_entry op props), w').
Proof.
  intros H. unfold run_scheduled, try_catch, bind. rewrite H. reflexivity.
Qed.

Lemma scheduled_entry_succeeded (op : scheduled_operation)
      (props : list (jsstring * json)) (b : bool) :
  lookup_prop (lit "success") props = Some (JBool b) ->
  entry_succeeded (scheduled_entry op props) = b.
Proof.
  intros H. unfold entry_succeeded, scheduled_entry. rewrite H.
  destruct (lookup_prop (lit "executionTime") props); reflexivity.
Qed.

Lemma run_scheduled_monthly (w : world) :
  run_operation (Some (JStr (lit "multi_dimensional_analytics")))
                (JObj [(lit "timeframe", JStr (lit "1 month"))]) w
  = (match db w (db_log w) (MultiDimensionalAnalytics (lit "1 month")) with
     | Return x => Return (rows_of x)
     | Throw e => Throw e
     end, sent (MultiDimensionalAnalytics (lit "1 month")) w).
Proof.
  rewrite <- single_query_run. unfold run_operation, operation_is.
  repeat (rewrite bool_decide_eq_false_2 by discriminate).
  rewrite bool_decide_eq_true_2 by reflexivity. reflexivity.
Qed.

Lemma run_scheduled_daily (w : world) :
  run_operation (Some (JStr (lit "data_integrity_analysis"))) (JObj []) w
  = (match db w (db_log w) DataIntegrityAnalysis with
     | Return x => Return (rows_of x)
     | Throw e => Throw e
     end, sent DataIntegrityAnalysis w).
Proof.
  rewrite <- single_query_run. unfold run_operation, operation_is.
  repeat (rewrite bool_decide_eq_false_2 by discriminate).
  rewrite bool_decide_eq_true_2 by reflexivity. reflexivity.
Qed.

Definition count_of (b : bool) (l : list bool) : Z :=
  Z.of_nat (length (List.filter (Bool.eqb b) l)).

(** X14. A scheduled run executes the two operations of its list, the
    monthly analytics with the timeframe of one month and then the integrity
    analysis, whatever the first one gives: the database receives exactly
    these two requests, in this order. The answer lists one entry for each,
    [summary.total] is 2, and [summary.successful] and [summary.failed]
    count the requests the database did and did not answer with rows. *)
Theorem scheduled_run_summary (cfg : config) (w : world) :
  let monthly := MultiDimensionalAnalytics (lit "1 month") in
  let successes := [answered (db w (db_log w) monthly);
                    answered (db w (monthly :: db_log w) DataIntegrityAnalysis)] in
  exists props results summary w',
    handleScheduledEvent cfg w = (Return (JObj props), w')
    /\ db_log w' = DataIntegrityAnalysis :: monthly :: db_log w
    /\ lookup_prop (lit "results") props = Some (JArr results)
    /\ List.map entry_succeeded results = successes
    /\ lookup_prop (lit "summary") props = Some (JObj summary)
    /\ lookup_prop (lit "total") summary = Some (JNum 2)
    /\ lookup_prop (lit "successful") summary = Some (JNum (count_of true successes))
    /\ lookup_prop (lit "failed") summary = Some (JNum (count_of false successes)).
Proof.
  intros monthly successes.
  destruct (executeAnalyticsOperation_verdict cfg
              (Some (JStr (lit "multi_dimensional_analytics")))
              (Some (JObj [(lit "timeframe", JStr (lit "1 month"))])) w _ _
              (run_scheduled_monthly (tick w)))
    as (props1 & w1 & Hrun1 & Hs1 & Hlog1 & Hdb1).
  rewrite produced_single_query in Hs1. cbn [tick db db_log sent] in Hs1, Hlog1, Hdb1.
  destruct (executeAnalyticsOperation_verdict cfg
              (Some (JStr (lit "data_integrity_analysis"))) (Some (JObj [])) w1 _ _
              (run_scheduled_daily (tick w1)))
    as (props2 & w2 & Hrun2 & Hs2 & Hlog2 & Hdb2).
  rewrite produced_single_query in Hs2. cbn [tick db db_log sent] in Hs2, Hlog2, Hdb2.
  rewrite Hdb1, Hlog1 in Hs2. rewrite Hlog1 in Hlog2.
  pose (op1 := mkScheduled (lit "multi_dimensional_analytics")
                 (JObj [(lit "timeframe", JStr (lit "1 month"))])
                 (lit "Monthly business analytics")).
  pose (op2 := mkScheduled (lit "data_integrity_analysis") (JObj [])
                 (lit "Daily data quality check")).
  pose proof (run_scheduled_entry cfg op1 props1 w w1 Hrun1) as He1.
  pose proof (run_scheduled_entry cfg op2 props2 w1 w2 Hrun2) as He2.
  pose proof (scheduled_entry_succeeded op1 props1 _ Hs1) as Hb1.
  pose proof (scheduled_entry_succeeded op2 props2 _ Hs2) as Hb2.
  unfold handleScheduledEvent, scheduledOperations. cbn [run_all_scheduled].
  fold op1 op2. unfold bind at 1 2. rewrite He1. unfold bind at 1. rewrite He2.
  unfold ret at 1. unfold new_Date_toISOString, bind, Date_now, ret.
  eexists _, [scheduled_entry op1 props1; scheduled_entry op2 props2], _, _.
  split; [reflexivity|]. split; [exact Hlog2|]. split; [reflexivity|].
  split; [cbn [List.map]; now rewrite Hb1, Hb2|].
  split; [reflexivity|]. split; [reflexivity|].
  cbn [app List.filter]. rewrite Hb1, Hb2. unfold successes, count_of.
  fold monthly.
  destruct (answered (db w (db_log w) monthly)),
    (answered (db w (monthly :: db_log w) DataIntegrityAnalysis)); split; reflexivity.
Qed.



(** ** Job records, further *)

Lemma starts_with_app (p s : jsstring) : starts_with p (p ++ s) = true.
Proof.
  induction p as [|c p IH]; [reflexivity|]. cbn [app starts_with].
  now rewrite N.eqb_refl, IH.
Qed.

Lemma update_expression_doubled (ANALYTICS_TABLE : option jsstring)
      (jobId : option json) (status : json) (entries : list (jsstring * json)) :
  starts_with (lit "SET SET #status = :status")
    (UpdateExpression (update_command ANALYTICS_TABLE jobId status entries)) = true.
Proof.
  unfold update_command. cbn [UpdateExpression].
  destruct entries as [|entry entries].
  - reflexivity.
  - cbn [List.map]. rewrite join_cons.
    change (lit "SET SET #status = :status")
      with (lit "SET " ++ lit "SET #status = :status").
    rewrite app_assoc. apply starts_with_app.
Qed.

(** X16. No call of [updateJobStatus] changes the table. The update
    expression it sends begins with the keyword twice ([SET SET #status =
    :status]), once from the template and once from the first clause, and the
    store refuses it as a syntax error; when the additional data is [null]
    the call fails earlier, with a TypeError. In both cases the call throws
    and the record is as before. *)
Theorem updateJobStatus_is_always_refused
        (ANALYTICS_TABLE : option jsstring) (jobId : option json) (status : json)
        (additionalData : option json) (t : table) :
  exists error,
    updateJobStatus ANALYTICS_TABLE jobId status additionalData t = (Throw error, t)
    /\ (additionalData = Some JNull /\ err_name error = lit "TypeError"
        \/ additionalData <> Some JNull
           /\ err_name error = lit "ValidationException"
           /\ exists entries,
               own_entries (match additionalData with Some d => d | None => JObj [] end)
               = Return entries
               /\ starts_with (lit "SET SET #status = :status")
                    (UpdateExpression
                       (update_command ANALYTICS_TABLE jobId status entries)) = true).
Proof.
  unfold updateJobStatus.
  destruct (own_entries (match additionalData with Some d => d | None => JObj [] end))
    as [entries|e] eqn:Hentries.
  - unfold UpdateItem. rewrite update_expression_refused.
    eexists. split; [reflexivity|]. right. split.
    + intros ->. discriminate Hentries.
    + split; [reflexivity|]. exists entries. split; [reflexivity|].
      apply update_expression_doubled.
  - exists e. split; [reflexivity|]. left.
    destruct additionalData as [[| | | | |]|]; try discriminate Hentries.
    injection Hentries as <-. split; reflexivity.
Qed.

Lemma lookup_assoc_marshall (k : jsstring) (props : list (jsstring * json)) :
  lookup_assoc k (marshall props) = option_map marshall_value (lookup_prop k props).
Proof.
  unfold lookup_assoc, marshall.
  induction props as [|[k' v] rest IH]; [reflexivity|].
  cbn [List.map List.find fst snd lookup_prop].
  destruct (decide (k' = k)) as [->|Hne].
  - now rewrite bool_decide_eq_true_2.
  - rewrite bool_decide_eq_false_2 by exact Hne. exact IH.
Qed.

Lemma lookup_status_value (entries o : list (jsstring * json)) :
  lookup_prop (lit "status") entries = None ->
  lookup_prop (lit ":status")
    (fold_left (fun o kv => set_prop (lit ":" ++ fst kv) (snd kv) o) entries o)
  = lookup_prop (lit ":status") o.
Proof.
  revert o. induction entries as [|[k v] rest IH]; intros o H; [reflexivity|].
  cbn [lookup_prop] in H. destruct (decide (k = lit "status")) as [->|Hne];
    [discriminate H|].
  cbn [fold_left fst snd]. rewrite (IH _ H). apply lookup_set_prop_ne.
  intros Heq. apply Hne. symmetry. now injection Heq.
Qed.

(** X17. The value [updateJobStatus] binds to [:status] is not the status
    string: the object [{S: status}] is marshalled once more, so the bound
    value is the map with the one entry [S]; this is so whenever the
    additional data has no property [status] of its own. *)
Theorem status_value_is_a_map
        (ANALYTICS_TABLE : option jsstring) (jobId : option json) (status : jsstring)
        (entries : list (jsstring * json)) :
  lookup_prop (lit "status") entries = None ->
  lookup_assoc (lit ":status")
    (ExpressionAttributeValues
       (update_command ANALYTICS_TABLE jobId (JStr status) entries))
  = Some (AttrM [(lit "S", AttrS status)]).
Proof.
  intros H. unfold update_command. cbn [ExpressionAttributeValues].
  rewrite lookup_assoc_marshall, (lookup_status_value entries _ H). reflexivity.
Qed.

Lemma status_value_witness :
  lookup_assoc (lit ":status")
    (ExpressionAttributeValues
       (update_command (Some (lit "analytics-jobs")) (Some (JStr (lit "job_1")))
          (JStr (lit "completed")) [(lit "recordCount", JNum 12)]))
  = Some (AttrM [(lit "S", AttrS (lit "completed"))]).
Proof. apply status_value_is_a_map. reflexivity. Defined.

(** ** DatabaseService (database-service.js)

    The service keeps one connection pool, created on the first [init] from
    the secret of the database. Every [await] on the database may fail: the
    database is an oracle, as before, asked for the pool, for a client, and
    with statements. The loop of [bulkInsertEntities] is bounded by fuel:
    [None] is a run that has not ended within it. *)

Module DatabaseService.

(** What the services of the ingestion side ask of the database: the fixed
    statements with the text spliced into them and the values bound, a text
    built by the code, or the query of the caller. *)
Inductive request : Type :=
| CreatePool                        (* getSecret and new Pool, in init *)
| EndPool                           (* pool.end() *)
| Connect                           (* pool.connect() *)
| Release                           (* client.release() *)
| Begin
| Commit
| Rollback
| UpsertEntities (placeholders : jsstring) (values : list (option json))
| EntityAnalytics (values : list (option json))
| CreateExtension                   (* CREATE EXTENSION IF NOT EXISTS uuid-ossp *)
| CreateEntitiesTable               (* CREATE TABLE IF NOT EXISTS entities ... *)
| UpsertEntity (values : list (option json))
| CallerQuery (query : option json) (* pool.query(event.query) *)
| Statement (text : jsstring) (values : list (option json)).

Record state : Type := mkState {
  pg : list request -> request -> outcome pg_result;
  pg_log : list request;       (* what was asked so far, latest first *)
  pool : bool                  (* this.pool is set *)
}.

Definition P (A : Type) : Type := state -> option (outcome A * state).

Definition retP {A : Type} (a : A) : P A := fun s => Some (Return a, s).

Definition throwP {A : Type} (e : js_error) : P A := fun s => Some (Throw e, s).

Definition bindP {A B : Type} (m : P A) (k : A -> P B) : P B :=
  fun s =>
    match m s with
    | Some (Return a, s') => k a s'
    | Some (Throw e, s') => Some (Throw e, s')
    | None => None
    end.

Definition catchP {A : Type} (m : P A) (handler : js_error -> P A) : P A :=
  fun s =>
    match m s with
    | Some (Return a, s') => Some (Return a, s')
    | Some (Throw e, s') => handler e s'
    | None => None
    end.

(** [try { m } finally { f }] for an [f] that does not throw. *)
Definition finallyP {A : Type} (m : P A) (f : state -> state) : P A :=
  fun s =>
    match m s with
    | Some (o, s') => Some (o, f s')
    | None => None
    end.

Definition liftP {A : Type} (o : outcome A) : P A := fun s => Some (o, s).

Notation "x <~ m ;; k" := (bindP m (fun x => k))
  (at level 100, m at next level, right associativity).

Definition logged (r : request) (s : state) : state :=
  mkState (pg s) (r :: pg_log s) (pool s).

(** One [await] on the database. *)
Definition ask (r : request) : P pg_result :=
  fun s => Some (pg s (pg_log s) r, logged r s).

Definition release (s : state) : state := logged Release s.

(** [init]: the pool is created once. *)
Definition init : P unit :=
  fun s =>
    if pool s then Some (Return tt, s)
    else match pg s (pg_log s) CreatePool with
         | Return _ => Some (Return tt, mkState (pg s) (CreatePool :: pg_log s) true)
         | Throw e => Some (Throw e, logged CreatePool s)
         end.

(** [a || b] where [b] may be [undefined]. *)
Definition js_or_undefined (a b : option json) : option json :=
  if truthy a then a else b.

(** [array.slice(start, end)] for integer arguments. *)
Definition slice {A : Type} (l : list A) (start stop : Z) : list A :=
  let len := Z.of_nat (length l) in
  let k := if start <? 0 then Z.max (len + start) 0 else Z.min start len in
  let final := if stop <? 0 then Z.max (len + stop) 0 else Z.min stop len in
  firstn (Z.to_nat (final - k)) (skipn (Z.to_nat k) l).

(** The group of six placeholders of the entity at [index] of a batch. *)
Definition placeholder (index : nat) : jsstring :=
  let pos := 6 * Z.of_nat index in
  lit "($" ++ number_to_string (pos + 1) ++ lit ", $" ++ number_to_string (pos + 2)
  ++ lit ", $" ++ number_to_string (pos + 3) ++ lit ", $" ++ number_to_string (pos + 4)
  ++ lit ", $" ++ number_to_string (pos + 5) ++ lit ", $" ++ number_to_string (pos + 6)
  ++ lit ")".

Definition and_then {A B : Type} (o : outcome A) (k : A -> outcome B) : outcome B :=
  match o with
  | Return a => k a
  | Throw e => Throw e
  end.

(** The six values pushed for one entity. *)
Definition entity_values (entity : json) : outcome (list (option json)) :=
  and_then (get_member entity (lit "entity_type")) (fun entity_type =>
  and_then (get_member entity (lit "source_system")) (fun source_system =>
  and_then (get_member entity (lit "canonical_id")) (fun canonical_id =>
  and_then (get_member entity (lit "attributes")) (fun attributes =>
  and_then (get_member entity (lit "metadata")) (fun metadata =>
  and_then (get_member entity (lit "status")) (fun status =>
  Return [entity_type; source_system; canonical_id;
          Some (JStr (JSON_stringify (js_or attributes (JObj []))));
          Some (JStr (JSON_stringify (js_or metadata (JObj []))));
          Some (js_or status (JStr (lit "active")))])))))).

(** [batch.forEach(...)]: the values of the batch, entity after entity. *)
Fixpoint batch_values (batch : list json) : outcome (list (option json)) :=
  match batch with
  | [] => Return []
  | entity :: rest =>
      match entity_values entity with
      | Throw e => Throw e
      | Return values =>
          match batch_values rest with
          | Throw e => Throw e
          | Return others => Return (values ++ others)
          end
      end
  end.

Definition batch_placeholders (batch : list json) : jsstring :=
  join (lit ", ") (imap (fun index _ => placeholder index) batch).

(** The loop over the batches, from index [i]. *)
Fixpoint insert_batches (fuel : nat) (entities : list json) (batchSize i : Z)
  : P unit :=
  match fuel with
  | O => fun _ => None
  | S fuel =>
      if i <? Z.of_nat (length entities) then
        let batch := slice entities i (i + batchSize) in
        values <~ liftP (batch_values batch) ;;
        _ <~ ask (UpsertEntities (batch_placeholders batch) values) ;;
        insert_batches fuel entities batchSize (i + batchSize)
      else retP tt
  end.

Definition bulkInsertEntities (fuel : nat) (entities : list json) (batchSize : option Z)
  : P json :=
  let batchSize := match batchSize with Some b => b | None => 500 end in
  _ <~ init ;;
  _ <~ ask Connect ;;
  finallyP
    (catchP
       (_ <~ ask Begin ;;
        _ <~ insert_batches fuel entities batchSize 0 ;;
        _ <~ ask Commit ;;
        retP (JObj [(lit "success", JBool true);
                    (lit "count", JNum (array_length entities))]))
       (fun error =>
          _ <~ ask Rollback ;;
          throwP (new_Error (lit "Database operation failed: " ++ err_message error))))
    release.


End DatabaseService.

(** *** Batches *)

Import DatabaseService.

(** A database that accepts whatever it is asked. *)
Definition accepting (s : state) : Prop :=
  forall history r, exists x, pg s history r = Return x.

(** Property [k] of a value that is not [null]. *)
Definition member (v : json) (k : jsstring) : option json :=
  match v with
  | JObj props => lookup_prop k props
  | _ => None
  end.

Definition six_values (entity : json) : list (option json) :=
  [member entity (lit "entity_type"); member entity (lit "source_system");
   member entity (lit "canonical_id");
   Some (JStr (JSON_stringify (js_or (member entity (lit "attributes")) (JObj []))));
   Some (JStr (JSON_stringify (js_or (member entity (lit "metadata")) (JObj []))));
   Some (js_or (member entity (lit "status")) (JStr (lit "active")))].

(** The statement sent for a batch. *)
Definition upsert_of (batch : list json) : request :=
  UpsertEntities (batch_placeholders batch) (flat_map six_values batch).

Lemma get_member_not_null (v : json) (k : jsstring) :
  v <> JNull -> get_member v k = Return (member v k).
Proof. destruct v; [contradiction|reflexivity..]. Qed.

Lemma entity_values_not_null (entity : json) :
  entity <> JNull -> entity_values entity = Return (six_values entity).
Proof.
  intros H. unfold entity_values. rewrite !(get_member_not_null entity _ H).
  reflexivity.
Qed.

Lemma batch_values_not_null (batch : list json) :
  Forall (fun entity => entity <> JNull) batch ->
  batch_values batch = Return (flat_map six_values batch).
Proof.
  induction 1 as [|entity rest Hn _ IH]; [reflexivity|].
  cbn [batch_values flat_map]. now rewrite (entity_values_not_null entity Hn), IH.
Qed.

Lemma slice_next_batch {A : Type} (done rest : list A) (b : Z) :
  0 < b ->
  slice (done ++ rest) (Z.of_nat (length done)) (Z.of_nat (length done) + b)
  = firstn (Z.to_nat b) rest.
Proof.
  intros Hb. unfold slice. rewrite length_app.
  destruct (Z.ltb_spec (Z.of_nat (length done)) 0); [lia|].
  destruct (Z.ltb_spec (Z.of_nat (length done) + b) 0); [lia|].
  rewrite (Z.min_l (Z.of_nat (length done))) by lia. rewrite Nat2Z.id.
  rewrite skipn_app, skipn_all, Nat.sub_diag, skipn_O. cbn [app].
  destruct (Z.le_gt_cases (Z.of_nat (length done) + b)
              (Z.of_nat (length done + length rest))) as [Hle|Hgt].
  - rewrite Z.min_l by lia. f_equal. lia.
  - rewrite Z.min_r by lia.
    replace (Z.to_nat (Z.of_nat (length done + length rest) - Z.of_nat (length done)))
      with (length rest) by lia.
    rewrite firstn_all. symmetry. apply firstn_all2. lia.
Qed.

Lemma insert_batches_done (fuel : nat) (entities : list json) (b i : Z) (s : state) :
  Z.of_nat (length entities) <= i ->
  insert_batches (S fuel) entities b i s = Some (Return tt, s).
Proof.
  intros H. cbn [insert_batches].
  destruct (Z.ltb_spec i (Z.of_nat (length entities))); [lia | reflexivity].
Qed.

Lemma insert_batches_accepting (b : Z) (n : nat) :
  0 < b ->
  forall (rest done : list json) (fuel : nat) (s : state),
    (length rest <= n)%nat -> (length rest < fuel)%nat ->
    accepting s -> Forall (fun entity => entity <> JNull) rest ->
    exists batches s',
      insert_batches fuel (done ++ rest) b (Z.of_nat (length done)) s
      = Some (Return tt, s')
      /\ concat batches = rest
      /\ Forall (fun batch => batch <> [] /\ Z.of_nat (length batch) <= b) batches
      /\ pg_log s' = rev (List.map upsert_of batches) ++ pg_log s
      /\ pg s' = pg s /\ pool s' = pool s.
Proof.
  intros Hb. induction n as [|n IH]; intros rest done fuel s Hn Hfuel Hacc Hnull.
  - destruct rest; [|cbn [length] in Hn; lia].
    destruct fuel as [|fuel]; [lia|]. rewrite app_nil_r.
    rewrite insert_batches_done by lia. exists [], s. repeat split; constructor.
  - destruct fuel as [|fuel]; [lia|].
    destruct rest as [|entity rest'].
    { rewrite app_nil_r. rewrite insert_batches_done by lia.
      exists [], s. repeat split; constructor. }
    cbn [insert_batches].
    destruct (Z.ltb_spec (Z.of_nat (length done))
                (Z.of_nat (length (done ++ entity :: rest')))) as [_|Hge];
      [|rewrite length_app in Hge; cbn [length] in Hge; lia].
    cbv zeta. rewrite (slice_next_batch done (entity :: rest') b Hb).
    set (batch := firstn (Z.to_nat b) (entity :: rest')).
    set (later := skipn (Z.to_nat b) (entity :: rest')).
    assert (Hsplit : entity :: rest' = batch ++ later)
      by (symmetry; apply firstn_skipn).
    assert (Hbatch : batch <> [] /\ Z.of_nat (length batch) <= b).
    { unfold batch. split.
      - destruct (Z.to_nat b) as [|k] eqn:Hk; [lia|]. discriminate.
      - rewrite length_firstn. lia. }
    assert (Hlater : (length later <= n)%nat /\ (length later < fuel)%nat).
    { unfold later. rewrite length_skipn. cbn [length] in *. lia. }
    assert (Hnull' : Forall (fun e => e <> JNull) batch
                     /\ Forall (fun e => e <> JNull) later).
    { rewrite Hsplit in Hnull. now apply Forall_app in Hnull. }
    unfold bindP at 1, liftP.
    rewrite (batch_values_not_null batch (proj1 Hnull')).
    unfold bindP at 1, ask.
    destruct (Hacc (pg_log s) (upsert_of batch)) as (x & Hx).
    fold (upsert_of batch). rewrite Hx.
    assert (Hacc' : accepting (logged (upsert_of batch) s)) by exact Hacc.
    destruct later as [|e' later'] eqn:Hl.
    + destruct fuel as [|fuel]; [lia|].
      rewrite insert_batches_done.
      2:{ rewrite Hsplit, app_nil_r, length_app.
          assert (Hfull : length batch = length (entity :: rest'))
            by (rewrite Hsplit, app_nil_r; reflexivity).
          unfold batch in Hfull at 1. rewrite length_firstn in Hfull. lia. }
      exists [batch], (logged (upsert_of batch) s).
      split; [reflexivity|]. split; [cbn [concat]; now rewrite Hsplit, !app_nil_r|].
      split; [repeat constructor; apply Hbatch|]. repeat split; reflexivity.
    + assert (Hfull : Z.of_nat (length batch) = b).
      { assert (Hlen : length (entity :: rest') = (length batch + length later)%nat)
          by (rewrite Hsplit at 1; rewrite Hl; apply length_app).
        unfold batch in *. rewrite length_firstn in *.
        unfold later in Hlen. rewrite length_skipn in Hlen.
        assert (length (skipn (Z.to_nat b) (entity :: rest')) <> 0)%nat
          by (fold later; rewrite Hl; discriminate).
        rewrite length_skipn in H. lia. }
      replace (Z.of_nat (length done) + b) with (Z.of_nat (length (done ++ batch)))
        by (rewrite length_app; lia).
      replace (done ++ entity :: rest') with ((done ++ batch) ++ e' :: later')
        by (rewrite Hsplit, app_assoc; reflexivity).
      destruct (IH (e' :: later') (done ++ batch) fuel (logged (upsert_of batch) s)
                  (proj1 Hlater) (proj2 Hlater) Hacc' (proj2 Hnull'))
        as (batches & s' & Hrun & Hcat & Hall & Hlog & Hpg & Hpool).
      exists (batch :: batches), s'. split; [exact Hrun|].
      split; [cbn [concat]; now rewrite Hcat, Hsplit|].
      split; [constructor; [apply Hbatch | exact Hall]|].
      split; [|split; [exact Hpg | exact Hpool]].
      rewrite Hlog. cbn [List.map rev logged pg_log]. now rewrite <- app_assoc.
Qed.

Definition inserted (entities : list json) : json :=
  JObj [(lit "success", JBool true); (lit "count", JNum (array_length entities))].

Definition before_connect (s : state) : list request :=
  (if pool s then [] else [CreatePool]) ++ pg_log s.

(** X18. [bulkInsertEntities], with a batch size of at least one, a
    database that accepts what it is asked and entities none of which is
    [null], sends every entity exactly once and in order: after BEGIN it
    sends one statement per batch, the batches are not empty, hold at most
    [batchSize] entities each (500 when no size is given) and put end to end
    are the list of entities; then it sends COMMIT, releases the client and
    returns the count of the entities. It ends within as many turns of the
    loop as there are entities. *)
Theorem bulk_insert_sends_every_entity_once
        (entities : list json) (batchSize : option Z) (s : state) :
  let b := match batchSize with Some b => b | None => 500 end in
  0 < b ->
  accepting s ->
  Forall (fun entity => entity <> JNull) entities ->
  exists batches s',
    bulkInsertEntities (S (length entities)) entities batchSize s
    = Some (Return (inserted entities), s')
    /\ concat batches = entities
    /\ Forall (fun batch => batch <> [] /\ Z.of_nat (length batch) <= b) batches
    /\ pg_log s'
       = Release :: Commit :: rev (List.map upsert_of batches)
         ++ Begin :: Connect :: before_connect s.
Proof.
  intros b Hb Hacc Hnull. unfold bulkInsertEntities. fold b.
  set (s1 := mkState (pg s) (before_connect s) true).
  assert (Hinit : init s = Some (Return tt, s1)).
  { unfold init, s1, before_connect. destruct s as [oracle log [|]]; cbn [pool pg pg_log].
    - reflexivity.
    - destruct (Hacc log CreatePool) as (x & Hx). cbn [pg] in Hx. now rewrite Hx. }
  assert (Hs1 : pg s1 = pg s /\ pg_log s1 = before_connect s) by (split; reflexivity).
  destruct Hs1 as [Hpg1 Hlog1]. clearbody s1.
  assert (Hacc1 : forall history r, exists x, pg s1 history r = Return x)
    by (rewrite Hpg1; exact Hacc).
  unfold bindP at 1. rewrite Hinit. unfold bindP at 1, ask.
  destruct (Hacc1 (pg_log s1) Connect) as (x & ->).
  unfold finallyP, catchP. unfold bindP at 1, ask. cbn [logged pg pg_log].
  destruct (Hacc1 (Connect :: pg_log s1) Begin) as (x' & ->).
  unfold bindP at 1.
  destruct (insert_batches_accepting b (length entities) Hb entities []
              (S (length entities))
              (mkState (pg s1) (Begin :: Connect :: pg_log s1) (pool s1))
              (Nat.le_refl _) (Nat.lt_succ_diag_r _) Hacc1 Hnull)
    as (batches & s2 & Hrun & Hcat & Hall & Hlog & Hpg & Hpool).
  cbn [app pg pg_log] in Hrun, Hlog, Hpg.
  change (Z.of_nat (length (@nil json))) with 0 in Hrun.
  change (logged Begin (logged Connect s1))
    with (mkState (pg s1) (Begin :: Connect :: pg_log s1) (pool s1)).
  rewrite Hrun. unfold bindP, ask, retP.
  destruct (Hacc1 (pg_log s2) Commit) as (x'' & Hx''). rewrite Hpg.
  rewrite Hx''. exists batches, (release (logged Commit s2)).
  split; [reflexivity|]. split; [exact Hcat|]. split; [exact Hall|].
  cbn [release logged pg_log]. now rewrite Hlog, Hlog1.
Qed.

Definition is_upsert (r : request) : Prop :=
  match r with
  | UpsertEntities _ _ => True
  | _ => False
  end.

Lemma insert_batches_log (entities : list json) (b : Z) (fuel : nat) :
  forall (i : Z) (s s' : state) (o : outcome unit),
    insert_batches fuel entities b i s = Some (o, s') ->
    exists added,
      pg_log s' = added ++ pg_log s /\ Forall is_upsert added
      /\ pg s' = pg s /\ pool s' = pool s.
Proof.
  induction fuel as [|fuel IH]; intros i s s' o H; [discriminate H|].
  cbn [insert_batches] in H.
  destruct (i <? Z.of_nat (length entities)).
  - cbv zeta in H. unfold bindP at 1, liftP in H.
    destruct (batch_values (slice entities i (i + b))) as [values|e].
    + unfold bindP at 1, ask in H.
      destruct (pg s (pg_log s) _) as [x|e] eqn:Hx.
      * apply IH in H as (added & Hlog & Hall & Hpg & Hpool).
        exists (added ++ [UpsertEntities (batch_placeholders (slice entities i (i + b)))
                            values]).
        split; [rewrite Hlog; cbn [logged pg_log]; now rewrite <- app_assoc|].
        split; [apply Forall_app; split; [exact Hall | repeat constructor]|].
        split; [exact Hpg | exact Hpool].
      * injection H as <- <-. eexists [_]. split; [reflexivity|].
        split; [repeat constructor | split; reflexivity].
    + injection H as <- <-. exists []. repeat split; constructor.
  - injection H as <- <-. exists []. repeat split; constructor.
Qed.

(** X19. The transaction of [bulkInsertEntities], whatever the database
    answers. A run that ends without a client (the pool or the connection
    was refused) throws and has sent nothing else. Once it has a client, the
    run releases it, and that is the last thing it does: a run that returns
    has sent BEGIN, statements of batches and COMMIT and no ROLLBACK; a run
    that throws has sent ROLLBACK just before the release, after BEGIN, the
    batches it got to and possibly COMMIT, and throws the error [Database
    operation failed: ...], or the error of the ROLLBACK when that was
    refused too. *)
Theorem bulk_insert_transaction
        (fuel : nat) (entities : list json) (batchSize : option Z)
        (s s' : state) (o : outcome json) :
  bulkInsertEntities fuel entities batchSize s = Some (o, s') ->
  (exists e, o = Throw e
             /\ (pg_log s' = before_connect s \/ pg_log s' = Connect :: before_connect s))
  \/ exists upserts,
      Forall is_upsert upserts
      /\ (o = Return (inserted entities)
          /\ pg_log s' = Release :: Commit :: upserts ++ Begin :: Connect :: before_connect s
          \/ exists e middle,
              o = Throw e
              /\ pg_log s' = Release :: Rollback :: middle ++ Connect :: before_connect s
              /\ (middle = upserts ++ [Begin] \/ middle = Commit :: upserts ++ [Begin])
              /\ ((exists message,
                      e = new_Error (lit "Database operation failed: " ++ message))
                  \/ exists history, pg s history Rollback = Throw e)).
Proof.
  unfold bulkInsertEntities. set (b := match batchSize with Some b => b | None => 500 end).
  intros H. unfold bindP at 1 in H.
  assert (Hinit : (exists e, init s = Some (Throw e, logged CreatePool s) /\ pool s = false)
                  \/ exists s1, init s = Some (Return tt, s1)
                                /\ pg s1 = pg s /\ pg_log s1 = before_connect s).
  { unfold init, before_connect. destruct s as [oracle log [|]]; cbn [pool pg pg_log].
    - right. eexists. split; [reflexivity|]. split; reflexivity.
    - destruct (oracle log CreatePool) as [x|e].
      + right. eexists. split; [reflexivity|]. split; reflexivity.
      + left. exists e. split; reflexivity. }
  destruct Hinit as [(e & Hinit & Hpool)|(s1 & Hinit & Hpg1 & Hlog1)]; rewrite Hinit in H.
  { injection H as <- <-. left. exists e. split; [reflexivity|]. left.
    unfold before_connect. now rewrite Hpool. }
  unfold bindP at 1, ask in H.
  destruct (pg s1 (pg_log s1) Connect) as [client|e] eqn:Hconnect.
  2:{ injection H as <- <-. left. exists e. split; [reflexivity|]. right.
      cbn [logged pg_log]. now rewrite Hlog1. }
  unfold finallyP in H.
  match type of H with
  | match ?run with _ => _ end = _ => destruct run as [[o2 s2]|] eqn:Hrun; [|discriminate H]
  end.
  injection H as <- <-. right.
  unfold catchP in Hrun. unfold bindP at 1, ask in Hrun. cbn [logged pg pg_log] in Hrun.
  assert (Hrollback :
            forall (error : js_error) (s3 : state) (middle : list request),
              pg s3 = pg s ->
              pg_log s3 = middle ++ Connect :: before_connect s ->
              (_ <~ ask Rollback ;;
               throwP (new_Error (lit "Database operation failed: " ++ err_message error)))
                s3 = Some (o2, s2) ->
              exists e,
                o2 = Throw e
                /\ pg_log (release s2)
                   = Release :: Rollback :: middle ++ Connect :: before_connect s
                /\ ((exists message,
                        e = new_Error (lit "Database operation failed: " ++ message))
                    \/ exists history, pg s history Rollback = Throw e)).
  { intros error s3 middle Hpg3 Hlog3 Hr. unfold bindP, ask, throwP in Hr.
    rewrite Hpg3 in Hr.
    destruct (pg s (pg_log s3) Rollback) as [x|e] eqn:Hx; injection Hr as <- <-.
    - eexists. split; [reflexivity|]. cbn [release logged pg_log]. rewrite Hlog3.
      split; [reflexivity|]. left. eauto.
    - exists e. split; [reflexivity|]. cbn [release logged pg_log]. rewrite Hlog3.
      split; [reflexivity|]. right. eauto. }
  destruct (pg s1 (Connect :: pg_log s1) Begin) as [x|e] eqn:Hbegin.
  2:{ exists []. split; [constructor|]. right.
      assert (Hl : pg_log (logged Begin (logged Connect s1))
                   = [Begin] ++ Connect :: before_connect s)
        by (cbn [logged pg_log app]; now rewrite Hlog1).
      destruct (Hrollback e (logged Begin (logged Connect s1)) [Begin] Hpg1 Hl Hrun)
        as (e' & -> & Hlog & He').
      exists e', [Begin]. split; [reflexivity|]. split; [exact Hlog|].
      split; [left; reflexivity | exact He']. }
  unfold bindP at 1 in Hrun.
  destruct (insert_batches fuel entities b 0 _) as [[o3 s3]|] eqn:Hloop; [|discriminate Hrun].
  apply insert_batches_log in Hloop as (upserts & Hlog3 & Hall & Hpg3 & Hpool3).
  cbn [logged pg pg_log] in Hlog3, Hpg3. rewrite Hlog1 in Hlog3. rewrite Hpg1 in Hpg3.
  exists upserts. split; [exact Hall|].
  destruct o3 as [[]|e].
  - unfold bindP at 1, ask in Hrun. rewrite Hpg3 in Hrun.
    destruct (pg s (pg_log s3) Commit) as [x'|e] eqn:Hcommit.
    + unfold retP in Hrun. injection Hrun as <- <-. left. split; [reflexivity|].
      cbn [release logged pg_log]. now rewrite Hlog3.
    + right.
      assert (Hl : pg_log (logged Commit s3)
                   = (Commit :: upserts ++ [Begin]) ++ Connect :: before_connect s)
        by (cbn [logged pg_log app]; rewrite Hlog3, <- app_assoc; reflexivity).
      destruct (Hrollback e (logged Commit s3) (Commit :: upserts ++ [Begin]) Hpg3 Hl Hrun)
        as (e' & -> & Hlog & He').
      exists e', (Commit :: upserts ++ [Begin]). split; [reflexivity|].
      split; [exact Hlog|]. split; [right; reflexivity | exact He'].
  - right.
    assert (Hl : pg_log s3 = (upserts ++ [Begin]) ++ Connect :: before_connect s)
      by (rewrite Hlog3, <- app_assoc; reflexivity).
    destruct (Hrollback e s3 (upserts ++ [Begin]) Hpg3 Hl Hrun)
      as (e' & -> & Hlog & He').
    exists e', (upserts ++ [Begin]). split; [reflexivity|].
    split; [exact Hlog|]. split; [left; reflexivity | exact He'].
Qed.

Definition sample_entities : list json :=
  [JObj [(lit "entity_type", JStr (lit "small_business"));
         (lit "source_system", JStr (lit "crm"));
         (lit "canonical_id", JStr (lit "crm_1"))];
   JObj [(lit "entity_type", JStr (lit "medium_business"));
         (lit "source_system", JStr (lit "crm"));
         (lit "canonical_id", JStr (lit "crm_2"));
         (lit "status", JStr (lit "inactive"))];
   JObj [(lit "entity_type", JStr (lit "small_business"));
         (lit "source_system", JStr (lit "erp"));
         (lit "canonical_id", JStr (lit "erp_1"))]].

Definition accepting_state : state :=
  mkState (fun _ _ => Return (mkResult (Some []) (Some (JNum 0)))) [] false.

Lemma bulk_insert_witness :
  exists batches s',
    bulkInsertEntities 4 sample_entities (Some 2) accepting_state
    = Some (Return (inserted sample_entities), s')
    /\ concat batches = sample_entities
    /\ Forall (fun batch => batch <> [] /\ Z.of_nat (length batch) <= 2) batches.
Proof.
  destruct (bulk_insert_sends_every_entity_once sample_entities (Some 2) accepting_state)
    as (batches & s' & Hrun & Hcat & Hall & _).
  - reflexivity.
  - intros history r. eexists. reflexivity.
  - repeat constructor; discriminate.
  - exists batches, s'. split; [exact Hrun|]. split; [exact Hcat | exact Hall].
Defined.

(** A database that refuses the statements of the batches. *)
Definition refusing_database (history : list request) (r : request) : outcome pg_result :=
  match r with
  | UpsertEntities _ _ => Throw (new_Error (lit "duplicate key"))
  | _ => Return (mkResult (Some []) (Some (JNum 0)))
  end.

Definition refusing_state : state := mkState refusing_database [] false.

Definition refused_state : state :=
  mkState refusing_database
          [Release; Rollback; upsert_of (firstn 2 sample_entities);
           Begin; Connect; CreatePool] true.

Definition refused_outcome : outcome json :=
  Throw (new_Error (lit "Database operation failed: duplicate key")).

Lemma bulk_insert_transaction_witness :
  bulkInsertEntities 4 sample_entities (Some 2) refusing_state
  = Some (refused_outcome, refused_state)
  /\ exists upserts e middle,
      Forall is_upsert upserts
      /\ refused_outcome = Throw e
      /\ pg_log refused_state
         = Release :: Rollback :: middle ++ Connect :: before_connect refusing_state
      /\ (middle = upserts ++ [Begin] \/ middle = Commit :: upserts ++ [Begin]).
Proof.
  split; [reflexivity|].
  destruct (bulk_insert_transaction 4 sample_entities (Some 2) refusing_state
              refused_state refused_outcome eq_refl)
    as [(e & _ & [H|H])|(upserts & Hall & [[H _]|(e & middle & He & Hlog & Hm & _)])];
    try discriminate H.
  exists upserts, e, middle. auto.
Defined.

(** ** The query API (query-api.js)

    Its handler serves two routes from one [DatabaseService], kept for the
    life of the instance. [parseInt] is the engine's: the results hold for
    whatever it returns. *)





Section QueryApi.
Variable parseInt : option json -> option json.


(** The text and the values [handleDataQuery] builds. *)
Definition data_query (type status limit : option json)
  : jsstring * list (option json) :=
  let query := lit "SELECT * FROM entities WHERE 1=1" in
  let values := [] in
  let paramCount := 1 in
  let '(query, values, paramCount) :=
    if truthy type
    then (query ++ lit " AND entity_type = $" ++ number_to_string paramCount,
          values ++ [type], paramCount + 1)
    else (query, values, paramCount) in
  let '(query, values, paramCount) :=
    if truthy status
    then (query ++ lit " AND status = $" ++ number_to_string paramCount,
          values ++ [status], paramCount + 1)
    else (query, values, paramCount) in
  (query ++ lit " ORDER BY created_at DESC LIMIT $" ++ number_to_string paramCount,
   values ++ [parseInt limit]).




End QueryApi.

(** The numbers of the placeholders [$n] of a statement, in order. *)
Fixpoint placeholder_numbers (text : jsstring) : list N :=
  match text with
  | [] => []
  | c :: rest =>
      if (c =? 36)%N
      then N.of_uint (fst (read_uint rest)) :: placeholder_numbers rest
      else placeholder_numbers rest
  end.







(** X22. The statement [handleDataQuery] builds has as many placeholders as
    values, numbered from 1 in order: [type] and [status] are bound when they
    are truthy, in this order, and the limit is bound last. *)
Theorem data_query_placeholders
        (parseInt : option json -> option json) (type status limit : option json) :
  let '(text, values) := data_query parseInt type status limit in
  placeholder_numbers text = List.map N.of_nat (seq 1 (length values))
  /\ values
     = (if truthy type then [type] else [])
       ++ (if truthy status then [status] else []) ++ [parseInt limit].
Proof.
  unfold data_query. destruct (truthy type), (truthy status); split; reflexivity.
Qed.

(** ** The ingestion Lambda, in full (data-processor.js)

    [SimpleMapper], the [DatabaseService] of the ingestion Lambda and the
    handler with its three branches. The comparison of a string with a
    number, [decodeURIComponent] and the bucket of the raw data are the
    engine's and the platform's: the results hold for whatever they
    answer. *)

Module DataProcessor.
Import DatabaseService.

Section Engine.
Variable string_exceeds : jsstring -> Z -> bool.          (* s > n, for a string s *)
Variable decodeURIComponent : jsstring -> outcome jsstring.
Variable getObject : option json -> jsstring -> outcome jsstring.  (* Bucket, Key *)

(** [v > n]. *)
Definition greater_than (v : json) (n : Z) : bool :=
  match v with
  | JNum z => n <? z
  | JBool b => n <? (if b then 1 else 0)
  | JNull => n <? 0
  | JStr s => string_exceeds s n
  | JArr _ | JObj _ => string_exceeds (js_to_string v) n
  end.

(** *** SimpleMapper *)

Definition determineEntityType (data : json) : outcome jsstring :=
  and_then (get_member data (lit "annual_revenue")) (fun annual_revenue =>
  and_then (get_member data (lit "revenue")) (fun revenue =>
  let revenue := js_or (js_or_undefined annual_revenue revenue) (JNum 0) in
  Return (if greater_than revenue 1000000 then lit "medium_business"
          else lit "small_business"))).

Definition canonical_id (sourceSystem : jsstring) (id : option json) : jsstring :=
  sourceSystem ++ lit "_" ++ to_string id.

Definition mapToCanonical (record : json) (sourceSystem : jsstring) : outcome json :=
  and_then (get_member record (lit "company_name")) (fun company_name =>
  and_then (get_member record (lit "business_name")) (fun business_name =>
  and_then (get_member record (lit "name")) (fun name =>
  let name := js_or_undefined (js_or_undefined company_name business_name) name in
  and_then (determineEntityType record) (fun entity_type =>
  and_then (get_member record (lit "id")) (fun id =>
  and_then (get_member record (lit "annual_revenue")) (fun annual_revenue =>
  and_then (get_member record (lit "revenue")) (fun revenue =>
  and_then (get_member record (lit "employee_count")) (fun employee_count =>
  and_then (get_member record (lit "employees")) (fun employees =>
  Return (JObj (js_object
    [(lit "entity_type", Some (JStr entity_type));
     (lit "source_system", Some (JStr sourceSystem));
     (lit "canonical_id", Some (JStr (canonical_id sourceSystem id)));
     (lit "attributes", Some (JObj (js_object
        [(lit "name", name);
         (lit "revenue", js_or_undefined annual_revenue revenue);
         (lit "employees", js_or_undefined employee_count employees)])));
     (lit "status", Some (JStr (lit "active")))]))))))))))).

(** [records.map(record => mapper.mapToCanonical(record, sourceSystem))]. *)
Fixpoint map_to_canonical (records : list json) (sourceSystem : jsstring)
  : outcome (list json) :=
  match records with
  | [] => Return []
  | record :: rest =>
      and_then (mapToCanonical record sourceSystem) (fun entity =>
      and_then (map_to_canonical rest sourceSystem) (fun entities =>
      Return (entity :: entities)))
  end.

(** *** DatabaseService of the ingestion Lambda *)

(** The five values bound for one entity. *)
Definition entity_row (entity : json) : outcome (list (option json)) :=
  and_then (get_member entity (lit "entity_type")) (fun entity_type =>
  and_then (get_member entity (lit "source_system")) (fun source_system =>
  and_then (get_member entity (lit "canonical_id")) (fun canonical_id =>
  and_then (get_member entity (lit "attributes")) (fun attributes =>
  and_then (get_member entity (lit "status")) (fun status =>
  Return [entity_type; source_system; canonical_id;
          option_map (fun a => JStr (JSON_stringify a)) attributes;
          status]))))).

(** The loop over the entities; [insertedCount] counts the statements that
    went through. *)
Fixpoint insert_each (entities : list json) (insertedCount : Z) : P Z :=
  match entities with
  | [] => retP insertedCount
  | entity :: rest =>
      values <~ liftP (entity_row entity) ;;
      _ <~ ask (UpsertEntity values) ;;
      insert_each rest (insertedCount + 1)
  end.

Definition ensureTablesExist : P unit :=
  _ <~ ask CreateExtension ;;
  _ <~ ask CreateEntitiesTable ;;
  retP tt.

Definition bulkInsertEntities (entities : list json) : P json :=
  _ <~ init ;;
  catchP
    (_ <~ ask (Statement (lit "SELECT NOW() as current_time") []) ;;
     _ <~ ensureTablesExist ;;
     _ <~ ask Connect ;;
     finallyP
       (_ <~ ask Begin ;;
        insertedCount <~ insert_each entities 0 ;;
        _ <~ ask Commit ;;
        retP (JObj [(lit "success", JBool true);
                    (lit "count", JNum insertedCount);
                    (lit "connected", JBool true);
                    (lit "inserted", JBool true)]))
       release)
    (fun error =>
       retP (JObj [(lit "success", JBool false);
                   (lit "count", JNum 0);
                   (lit "connected", JBool false);
                   (lit "error", JStr (err_message error))])).

(** *** The handler *)

(** [new DatabaseService()]: an instance without a pool. *)
Definition new_DatabaseService (s : state) : state :=
  mkState (pg s) (pg_log s) false.

(** [!event.Records || event.Records.length === 0]. *)
Definition no_records (records : option json) : bool :=
  negb (truthy records)
  || match records with
     | Some (JArr []) => true
     | Some (JObj props) =>
         match lookup_prop (lit "length") props with
         | Some (JNum 0) => true
         | _ => false
         end
     | _ => false
     end.

(** [event.Records[0]]. *)
Definition first_record (records : option json) : option json :=
  match records with
  | Some (JArr (record :: _)) => Some record
  | Some (JStr (c :: _)) => Some (JStr [c])
  | Some (JObj props) => lookup_prop (lit "0") props
  | _ => None
  end.

(** [v.k] for a [v] that may be [undefined]. *)
Definition read (v : option json) (k : jsstring) : outcome (option json) :=
  match v with
  | None => Throw (cannot_read (lit "undefined") k)
  | Some v => get_member v k
  end.

(** [key.replace(/\+/g, ' ')]. *)
Definition replace_plus (key : option json) : outcome jsstring :=
  match key with
  | Some (JStr s) => Return (List.map (fun c => if (c =? 43)%N then 32%N else c) s)
  | None => Throw (cannot_read (lit "undefined") (lit "replace"))
  | Some JNull => Throw (cannot_read (lit "null") (lit "replace"))
  | Some _ => Throw (new_TypeError (lit "record.s3.object.key.replace is not a function"))
  end.

(** [data.records], which must be an array for [length] and [map]. *)
Definition records_of (data : json) : outcome (list json) :=
  and_then (get_member data (lit "records")) (fun records =>
  match records with
  | Some (JArr items) => Return items
  | None => Throw (cannot_read (lit "undefined") (lit "length"))
  | Some JNull => Throw (cannot_read (lit "null") (lit "length"))
  | Some _ => Throw (new_TypeError (lit "data.records.map is not a function"))
  end).

(** [count.rows[0].total]. *)
Definition first_total (count : pg_result) : outcome (option json) :=
  match rows count with
  | None => Throw (cannot_read (lit "undefined") (lit "0"))
  | Some [] => Throw (cannot_read (lit "undefined") (lit "total"))
  | Some (row :: _) => get_member row (lit "total")
  end.

Definition plain_response (status : Z) (body : json) : http_response :=
  mkResponse status [] (JSON_stringify body).

(** The text of the count of the manual test: [COUNT] of the star. *)
Definition count_statement : jsstring :=
  lit "SELECT COUNT(" ++ 42%N :: lit ") as total FROM entities".

(** The [try] block of the handler. *)
Definition handler_body (event : json) : P http_response :=
    (query <~ liftP (get_member event (lit "query")) ;;
     if truthy query then
       fun s =>
         (_ <~ init ;;
          result <~ ask (CallerQuery query) ;;
          _ <~ ask EndPool ;;
          retP (plain_response 200 (JObj (js_object
            [(lit "rows", option_map JArr (rows result));
             (lit "count", rowCount result);
             (lit "query", query)])))) (new_DatabaseService s)
     else
       records <~ liftP (get_member event (lit "Records")) ;;
       if no_records records then
         fun s =>
           (_ <~ init ;;
            count <~ ask (Statement count_statement []) ;;
            total <~ liftP (first_total count) ;;
            entities <~ ask (Statement
              (lit "SELECT * FROM entities ORDER BY created_at DESC LIMIT 5") []) ;;
            retP (plain_response 200 (JObj (js_object
              [(lit "total", total);
               (lit "latest", option_map JArr (rows entities));
               (lit "message", Some (JStr (lit "Database query successful")))]))))
             (new_DatabaseService s)
       else
         let record := first_record records in
         s3 <~ liftP (read record (lit "s3")) ;;
         bucket <~ liftP (read s3 (lit "bucket")) ;;
         bucket <~ liftP (read bucket (lit "name")) ;;
         object <~ liftP (read s3 (lit "object")) ;;
         key <~ liftP (read object (lit "key")) ;;
         key <~ liftP (replace_plus key) ;;
         key <~ liftP (decodeURIComponent key) ;;
         let sourceSystem := if includes key (lit "crm") then lit "crm" else lit "erp" in
         fileContent <~ liftP (getObject bucket key) ;;
         data <~ liftP (JSON_parse_or_throw fileContent) ;;
         records <~ liftP (records_of data) ;;
         entities <~ liftP (map_to_canonical records sourceSystem) ;;
         fun s =>
           (result <~ bulkInsertEntities entities ;;
            success <~ liftP (get_member result (lit "success")) ;;
            count <~ liftP (get_member result (lit "count")) ;;
            connected <~ liftP (get_member result (lit "connected")) ;;
            inserted <~ liftP (get_member result (lit "inserted")) ;;
            retP (plain_response 200 (JObj (js_object
              [(lit "success", success);
               (lit "recordsProcessed", count);
               (lit "databaseConnected", connected);
               (lit "dataInserted", inserted);
               (lit "message",
                Some (JStr (if truthy inserted then lit "Complete pipeline working!"
                            else lit "Pipeline partially working")))]))))
             (new_DatabaseService s)).

Definition handler (event : json) : P http_response :=
  catchP (handler_body event)
    (fun error =>
       retP (plain_response 500 (JObj [(lit "success", JBool false);
                                       (lit "error", JStr (err_message error))]))).

End Engine.
End DataProcessor.

(** *** Canonical identifiers *)

Import DataProcessor.

Lemma app_separator_inj (sep : N) (a b x y : jsstring) :
  existsb (N.eqb sep) a = false -> existsb (N.eqb sep) b = false ->
  a ++ sep :: x = b ++ sep :: y -> a = b /\ x = y.
Proof.
  revert b. induction a as [|c a IH]; intros [|d b] Ha Hb H; cbn [app existsb] in *.
  - injection H as ->. now split.
  - injection H as <- _. rewrite N.eqb_refl in Hb. discriminate.
  - injection H as -> _. rewrite N.eqb_refl in Ha. discriminate.
  - injection H as -> H. apply orb_false_iff in Ha as [_ Ha], Hb as [_ Hb].
    destruct (IH b Ha Hb H) as [-> ->]. now split.
Qed.

(** X23. The canonical identifier [<sourceSystem>_<id>] tells records apart
    by their source system and by the string form of their [id] only: for
    source systems without an underscore (the handler uses [crm] and [erp]),
    two records get the same identifier exactly when they come from the same
    system and their ids read the same as strings, as the number 1 and the
    string ["1"] do. *)
Theorem canonical_ids_collide_iff
        (sourceSystem1 sourceSystem2 : jsstring) (id1 id2 : option json) :
  existsb (N.eqb 95) sourceSystem1 = false ->
  existsb (N.eqb 95) sourceSystem2 = false ->
  canonical_id sourceSystem1 id1 = canonical_id sourceSystem2 id2
  <-> sourceSystem1 = sourceSystem2 /\ to_string id1 = to_string id2.
Proof.
  intros H1 H2. unfold canonical_id. split.
  - intros H. now apply (app_separator_inj 95 _ _ _ _ H1 H2).
  - intros [-> ->]. reflexivity.
Qed.

Lemma canonical_ids_witness :
  canonical_id (lit "crm") (Some (JNum 1)) = canonical_id (lit "crm") (Some (JStr (lit "1")))
  /\ canonical_id (lit "crm") (Some (JNum 1)) <> canonical_id (lit "erp") (Some (JNum 1)).
Proof.
  split.
  - apply canonical_ids_collide_iff; [reflexivity | reflexivity | split; reflexivity].
  - intros H.
    apply (canonical_ids_collide_iff (lit "crm") (lit "erp")) in H as [H _];
      [discriminate H | reflexivity | reflexivity].
Defined.

(** *** The transaction of the ingestion Lambda *)

Definition is_upsert_entity (r : request) : Prop :=
  match r with
  | UpsertEntity _ => True
  | _ => False
  end.

Definition five_values (entity : json) : list (option json) :=
  [member entity (lit "entity_type"); member entity (lit "source_system");
   member entity (lit "canonical_id");
   option_map (fun a => JStr (JSON_stringify a)) (member entity (lit "attributes"));
   member entity (lit "status")].

Lemma entity_row_not_null (entity : json) :
  entity <> JNull -> DataProcessor.entity_row entity = Return (five_values entity).
Proof.
  intros H. unfold DataProcessor.entity_row.
  rewrite !(get_member_not_null entity _ H). reflexivity.
Qed.

Lemma insert_each_log (entities : list json) :
  forall (n : Z) (s : state),
  exists o s' added,
    DataProcessor.insert_each entities n s = Some (o, s')
    /\ pg_log s' = added ++ pg_log s
    /\ Forall is_upsert_entity added
    /\ pg s' = pg s /\ pool s' = pool s.
Proof.
  induction entities as [|entity rest IH]; intros n s; cbn [DataProcessor.insert_each].
  - exists (Return n), s, []. repeat split; constructor.
  - unfold bindP at 1, liftP.
    destruct (DataProcessor.entity_row entity) as [values|e].
    + unfold bindP at 1, ask.
      destruct (pg s (pg_log s) (UpsertEntity values)) as [x|e].
      * destruct (IH (n + 1) (logged (UpsertEntity values) s))
          as (o & s' & added & Hrun & Hlog & Hall & Hpg & Hpool).
        exists o, s', (added ++ [UpsertEntity values]).
        split; [exact Hrun|].
        split; [rewrite Hlog; cbn [logged pg_log]; now rewrite <- app_assoc|].
        split; [apply Forall_app; split; [exact Hall | repeat constructor]|].
        split; [exact Hpg | exact Hpool].
      * eexists _, _, [_]. split; [reflexivity|]. split; [reflexivity|].
        split; [repeat constructor | split; reflexivity].
    + exists (Throw e), s, []. repeat split; constructor.
Qed.

Lemma insert_each_accepting (entities : list json) :
  forall (n : Z) (s : state),
    accepting s -> Forall (fun entity => entity <> JNull) entities ->
    exists s',
      DataProcessor.insert_each entities n s
      = Some (Return (n + Z.of_nat (length entities)), s')
      /\ pg_log s'
         = rev (List.map (fun entity => UpsertEntity (five_values entity)) entities)
           ++ pg_log s
      /\ pg s' = pg s /\ pool s' = pool s.
Proof.
  induction entities as [|entity rest IH]; intros n s Hacc Hnull;
    cbn [DataProcessor.insert_each].
  - exists s. rewrite Z.add_0_r. repeat split.
  - apply Forall_cons in Hnull as [Hn Hrest].
    unfold bindP at 1, liftP. rewrite (entity_row_not_null entity Hn).
    unfold bindP at 1, ask.
    destruct (Hacc (pg_log s) (UpsertEntity (five_values entity))) as (x & ->).
    destruct (IH (n + 1) (logged (UpsertEntity (five_values entity)) s) Hacc Hrest)
      as (s' & Hrun & Hlog & Hpg & Hpool).
    exists s'. split.
    + rewrite Hrun. do 3 f_equal. cbn [length]. lia.
    + split; [|split; [exact Hpg | exact Hpool]].
      rewrite Hlog. cbn [List.map rev logged pg_log]. now rewrite <- app_assoc.
Qed.

Definition ingested (count : Z) : json :=
  JObj [(lit "success", JBool true); (lit "count", JNum count);
        (lit "connected", JBool true); (lit "inserted", JBool true)].

Definition not_ingested (message : jsstring) : json :=
  JObj [(lit "success", JBool false); (lit "count", JNum 0);
        (lit "connected", JBool false); (lit "error", JStr message)].

Definition connection_test : request :=
  Statement (lit "SELECT NOW() as current_time") [].

(** X24. [bulkInsertEntities] of the ingestion Lambda, with a database
    that accepts what it is asked and entities none of which is [null]: it
    tests the connection, makes sure the table exists, and in one
    transaction sends one statement for each entity, in the order of the
    list, with its five values; it commits, releases the client and reports
    success with the number of the entities as count. *)
Theorem ingestion_insert_every_entity (entities : list json) (s : state) :
  accepting s ->
  Forall (fun entity => entity <> JNull) entities ->
  exists s',
    DataProcessor.bulkInsertEntities entities s
    = Some (Return (ingested (Z.of_nat (length entities))), s')
    /\ pg_log s'
       = Release :: Commit
         :: rev (List.map (fun entity => UpsertEntity (five_values entity)) entities)
         ++ Begin :: Connect :: CreateEntitiesTable :: CreateExtension :: connection_test
         :: before_connect s.
Proof.
  intros Hacc Hnull. unfold DataProcessor.bulkInsertEntities. fold connection_test.
  set (s1 := mkState (pg s) (before_connect s) true).
  assert (Hinit : init s = Some (Return tt, s1)).
  { unfold init, s1, before_connect. destruct s as [oracle log [|]]; cbn [pool pg pg_log].
    - reflexivity.
    - destruct (Hacc log CreatePool) as (x & Hx). cbn [pg] in Hx. now rewrite Hx. }
  assert (Hs1 : pg s1 = pg s /\ pg_log s1 = before_connect s) by (split; reflexivity).
  destruct Hs1 as [Hpg1 Hlog1]. clearbody s1.
  assert (Hacc1 : forall history r, exists x, pg s1 history r = Return x)
    by (rewrite Hpg1; exact Hacc).
  unfold bindP at 1. rewrite Hinit. unfold catchP, DataProcessor.ensureTablesExist.
  unfold bindP at 1, ask. destruct (Hacc1 (pg_log s1) connection_test) as (x1 & ->).
  unfold bindP at 1 2, ask. cbn [logged pg pg_log].
  destruct (Hacc1 (connection_test :: pg_log s1) CreateExtension) as (x2 & ->).
  unfold bindP at 1, ask. cbn [logged pg pg_log].
  destruct (Hacc1 (CreateExtension :: connection_test :: pg_log s1) CreateEntitiesTable)
    as (x3 & ->).
  unfold retP at 1. unfold bindP at 1, ask. cbn [logged pg pg_log].
  destruct (Hacc1 (CreateEntitiesTable :: CreateExtension :: connection_test :: pg_log s1)
              Connect) as (x4 & ->).
  unfold finallyP. unfold bindP at 1, ask. cbn [logged pg pg_log].
  destruct (Hacc1 (Connect :: CreateEntitiesTable :: CreateExtension :: connection_test
                     :: pg_log s1) Begin) as (x5 & ->).
  unfold bindP at 1.
  destruct (insert_each_accepting entities 0
              (logged Begin (logged Connect (logged CreateEntitiesTable
                 (logged CreateExtension (logged connection_test s1)))))
              Hacc1 Hnull) as (s2 & Hrun & Hlog & Hpg & Hpool).
  cbn [logged pg pg_log] in Hlog, Hpg. rewrite Hrun. unfold bindP, ask, retP.
  destruct (Hacc1 (pg_log s2) Commit) as (x6 & Hx6). rewrite Hpg, Hx6.
  eexists. split; [reflexivity|].
  cbn [release logged pg_log]. now rewrite Hlog, Hlog1.
Qed.

Lemma init_cases (s : state) :
  (exists e, init s = Some (Throw e, logged CreatePool s)
             /\ pool s = false /\ pg s (pg_log s) CreatePool = Throw e)
  \/ exists s1, init s = Some (Return tt, s1)
                /\ pg s1 = pg s /\ pg_log s1 = before_connect s.
Proof.
  unfold init, before_connect. destruct s as [oracle log [|]]; cbn [pool pg pg_log].
  - right. eexists. split; [reflexivity|]. split; reflexivity.
  - destruct (oracle log CreatePool) as [x|e] eqn:Hx.
    + right. eexists. split; [reflexivity|]. split; reflexivity.
    + left. exists e. repeat split; reflexivity.
Qed.

Lemma before_connect_added (s : state) :
  exists pre, before_connect s = pre ++ pg_log s
              /\ ~ In Rollback pre /\ ~ In Begin pre.
Proof.
  unfold before_connect. destruct (pool s); eexists; (split; [reflexivity|]);
    cbn [In]; intuition discriminate.
Qed.

Lemma upsert_entity_only (added : list request) (r : request) :
  Forall is_upsert_entity added -> In r added -> is_upsert_entity r.
Proof. intros Hall Hin. rewrite List.Forall_forall in Hall. now apply Hall. Qed.

Lemma ingestion_insert_cases (entities : list json) (s : state) :
  exists o s' added,
    DataProcessor.bulkInsertEntities entities s = Some (o, s')
    /\ pg_log s' = added ++ pg_log s
    /\ ~ In Rollback added
    /\ (forall e, o = Throw e ->
                  pool s = false /\ added = [CreatePool]
                  /\ pg s (pg_log s) CreatePool = Throw e)
    /\ (forall v, o = Return v ->
                  (exists n, v = ingested n) \/ exists message, v = not_ingested message)
    /\ (In Begin added -> exists earlier, added = Release :: earlier).
Proof.
  unfold DataProcessor.bulkInsertEntities. fold connection_test.
  unfold bindP at 1.
  destruct (init_cases s) as [(e & -> & Hpool & He)|(s1 & -> & Hpg1 & Hlog1)].
  { exists (Throw e), (logged CreatePool s), [CreatePool].
    split; [reflexivity|]. split; [reflexivity|].
    split; [cbn [In]; intuition discriminate|].
    split; [intros e' H; injection H as <-; auto|].
    split; [discriminate|]. cbn [In]. intuition discriminate. }
  destruct (before_connect_added s) as (pre & Hpre & Hnr & Hnb). rewrite Hpre in Hlog1.
  assert (Hfail : forall (X : list request) (s2 : state) (message : jsstring),
             pg_log s2 = X ++ pg_log s1 ->
             ~ In Rollback X ->
             (In Begin X -> exists earlier, X = Release :: earlier) ->
             exists o s' added,
               Some (Return (not_ingested message), s2) = Some (o, s')
               /\ pg_log s' = added ++ pg_log s
               /\ ~ In Rollback added
               /\ (forall e, o = Throw e ->
                             pool s = false /\ added = [CreatePool]
                             /\ pg s (pg_log s) CreatePool = Throw e)
               /\ (forall v, o = Return v ->
                             (exists n, v = ingested n)
                             \/ exists message, v = not_ingested message)
               /\ (In Begin added -> exists earlier, added = Release :: earlier)).
  { intros X s2 message Hlog HX HB.
    exists (Return (not_ingested message)), s2, (X ++ pre).
    split; [reflexivity|]. split; [now rewrite Hlog, Hlog1, app_assoc|].
    split; [rewrite in_app_iff; tauto|]. split; [discriminate|].
    split; [intros v H; injection H as <-; eauto|].
    rewrite in_app_iff. intros [H|H]; [|contradiction].
    destruct (HB H) as (earlier & ->). now exists (earlier ++ pre). }
  unfold catchP, DataProcessor.ensureTablesExist.
  unfold bindP at 1, ask.
  destruct (pg s1 (pg_log s1) connection_test) as [x1|e].
  2:{ unfold retP. apply (Hfail [connection_test]); [reflexivity | |];
      cbn [In]; intuition discriminate. }
  unfold bindP at 1 2, ask. cbn [logged pg pg_log].
  destruct (pg s1 (connection_test :: pg_log s1) CreateExtension) as [x2|e].
  2:{ unfold retP. apply (Hfail [CreateExtension; connection_test]); [reflexivity | |];
      cbn [In]; intuition discriminate. }
  unfold bindP at 1, ask. cbn [logged pg pg_log].
  destruct (pg s1 (CreateExtension :: connection_test :: pg_log s1) CreateEntitiesTable)
    as [x3|e].
  2:{ unfold retP.
      apply (Hfail [CreateEntitiesTable; CreateExtension; connection_test]);
        [reflexivity | |]; cbn [In]; intuition discriminate. }
  unfold retP at 1. unfold bindP at 1, ask. cbn [logged pg pg_log].
  destruct (pg s1 (CreateEntitiesTable :: CreateExtension :: connection_test :: pg_log s1)
              Connect) as [x4|e].
  2:{ unfold retP.
      apply (Hfail [Connect; CreateEntitiesTable; CreateExtension; connection_test]);
        [reflexivity | |]; cbn [In]; intuition discriminate. }
  unfold finallyP. unfold bindP at 1, ask. cbn [logged pg pg_log].
  destruct (pg s1 (Connect :: CreateEntitiesTable :: CreateExtension :: connection_test
                     :: pg_log s1) Begin) as [x5|e].
  2:{ unfold retP.
      apply (Hfail [Release; Begin; Connect; CreateEntitiesTable; CreateExtension;
                    connection_test]); [reflexivity | |];
        cbn [In]; [intuition discriminate | eauto]. }
  unfold bindP at 1.
  destruct (insert_each_log entities 0
              (logged Begin (logged Connect (logged CreateEntitiesTable
                 (logged CreateExtension (logged connection_test s1))))))
    as (o & s2 & upserts & -> & Hlog & Hall & Hpg & _).
  cbn [logged pg pg_log] in Hlog, Hpg.
  assert (Hup : ~ In Rollback upserts /\ ~ In Begin upserts).
  { split; intros H; apply (upsert_entity_only upserts _ Hall H). }
  destruct o as [n|e].
  2:{ unfold retP.
      apply (Hfail (Release :: upserts ++ [Begin; Connect; CreateEntitiesTable;
                                           CreateExtension; connection_test]));
        [cbn [release logged pg_log app]; rewrite Hlog, <- app_assoc; reflexivity | |].
      - cbn [In]. rewrite in_app_iff. cbn [In]. intuition discriminate.
      - eauto. }
  unfold bindP, ask, retP. rewrite Hpg.
  destruct (pg s1 (pg_log s2) Commit) as [x6|e].
  - exists (Return (ingested n)), (release (logged Commit s2)),
      ((Release :: Commit :: upserts ++ [Begin; Connect; CreateEntitiesTable;
                                         CreateExtension; connection_test]) ++ pre).
    split; [reflexivity|].
    split; [cbn [release logged pg_log app]; rewrite Hlog, Hlog1, <- !app_assoc;
            reflexivity|].
    split; [cbn [In app]; rewrite !in_app_iff; cbn [In]; intuition discriminate|].
    split; [discriminate|]. split; [intros v H; injection H as <-; eauto|].
    intros _. cbn [app]. eauto.
  - apply (Hfail (Release :: Commit :: upserts ++ [Begin; Connect; CreateEntitiesTable;
                                                   CreateExtension; connection_test]));
      [cbn [release logged pg_log app]; rewrite Hlog, <- app_assoc; reflexivity | |].
    + cbn [In]. rewrite in_app_iff. cbn [In]. intuition discriminate.
    + eauto.
Qed.

(** *** The handler of the ingestion Lambda *)

(** A computation that ends whatever the database answers, and whose
    results satisfy [Q]. *)
Definition answers {A : Type} (Q : A -> Prop) (m : P A) : Prop :=
  forall s, exists o s', m s = Some (o, s') /\ forall a, o = Return a -> Q a.

Lemma answers_ret {A : Type} (Q : A -> Prop) (a : A) : Q a -> answers Q (retP a).
Proof. intros H s. exists (Return a), s. split; [reflexivity|]. now intros a' [= <-]. Qed.

Lemma answers_lift {A : Type} (o : outcome A) : answers (fun _ => True) (liftP o).
Proof. intros s. exists o, s. split; [reflexivity | trivial]. Qed.

Lemma answers_ask (r : request) : answers (fun _ => True) (ask r).
Proof. intros s. eexists _, _. split; [reflexivity | trivial]. Qed.

Lemma answers_init : answers (fun _ => True) init.
Proof.
  intros s. unfold init. destruct (pool s); [eauto|].
  destruct (pg s (pg_log s) CreatePool); eauto.
Qed.

Lemma answers_bind {A B : Type} (Q : B -> Prop) (m : P A) (k : A -> P B) :
  answers (fun _ => True) m -> (forall a, answers Q (k a)) -> answers Q (bindP m k).
Proof.
  intros Hm Hk s. unfold bindP. destruct (Hm s) as ([a|e] & s' & -> & _).
  - apply Hk.
  - exists (Throw e), s'. split; [reflexivity | discriminate].
Qed.

Lemma answers_weaken {A : Type} (Q : A -> Prop) (m : P A) :
  answers Q m -> answers (fun _ => True) m.
Proof. intros H s. destruct (H s) as (o & s' & -> & _). eauto. Qed.

Lemma answers_new_instance {A : Type} (Q : A -> Prop) (m : P A) :
  answers Q m -> answers Q (fun s => m (DataProcessor.new_DatabaseService s)).
Proof. intros H s. apply H. Qed.

(** X25. [bulkInsertEntities] of the ingestion Lambda always ends, and
    never sends ROLLBACK. It throws only when the pool cannot be created;
    every other failure, the refusal of an insert after BEGIN included, is
    answered by the report [success: false, count: 0, connected: false] with
    the message of the error, the transaction being left as it is. Whenever
    BEGIN was sent the client has been released, and that is the last thing
    the call did. *)
Theorem ingestion_insert_never_rolls_back (entities : list json) (s : state) :
  exists o s' added,
    DataProcessor.bulkInsertEntities entities s = Some (o, s')
    /\ pg_log s' = added ++ pg_log s
    /\ ~ In Rollback added
    /\ (forall e, o = Throw e ->
                  pool s = false /\ added = [CreatePool]
                  /\ pg s (pg_log s) CreatePool = Throw e)
    /\ (forall v, o = Return v ->
                  (exists n, v = ingested n) \/ exists message, v = not_ingested message)
    /\ (In Begin added -> exists earlier, added = Release :: earlier).
Proof. apply ingestion_insert_cases. Qed.

Lemma answers_bulkInsertEntities (entities : list json) :
  answers (fun v => exists props, v = JObj props) (DataProcessor.bulkInsertEntities entities).
Proof.
  intros s. destruct (ingestion_insert_cases entities s)
    as (o & s' & added & -> & _ & _ & _ & Hv & _).
  exists o, s'. split; [reflexivity|]. intros v ->.
  destruct (Hv v eq_refl) as [(n & ->)|(message & ->)]; unfold ingested, not_ingested; eauto.
Qed.

Section Handler.
Variable string_exceeds : jsstring -> Z -> bool.
Variable decodeURIComponent : jsstring -> outcome jsstring.
Variable getObject : option json -> jsstring -> outcome jsstring.

(** X26. The handler of the ingestion Lambda never throws and always
    ends: whatever the event, the bucket and the database answer, it returns
    a response with status 200 or 500. *)
Theorem ingestion_handler_statuses (event : json) (s : state) :
  exists response s',
    DataProcessor.handler string_exceeds decodeURIComponent getObject event s
    = Some (Return response, s')
    /\ (statusCode response = 200 \/ statusCode response = 500).
Proof.
  unfold DataProcessor.handler, catchP.
  assert (Hbody : answers (fun response => statusCode response = 200)
            (DataProcessor.handler_body string_exceeds decodeURIComponent getObject event)).
  { unfold DataProcessor.handler_body.
    apply answers_bind; [apply answers_lift|]. intros query.
    destruct (truthy query).
    - apply answers_new_instance.
      repeat (apply answers_bind;
              [first [apply answers_init | apply answers_ask | apply answers_lift]|];
              intros ?).
      now apply answers_ret.
    - apply answers_bind; [apply answers_lift|]. intros records.
      destruct (DataProcessor.no_records records).
      + apply answers_new_instance.
        repeat (apply answers_bind;
                [first [apply answers_init | apply answers_ask | apply answers_lift]|];
                intros ?).
        now apply answers_ret.
      + cbv zeta.
        repeat (apply answers_bind; [apply answers_lift|]; intros ?).
        apply answers_new_instance.
        apply answers_bind;
          [apply (answers_weaken _ _ (answers_bulkInsertEntities _))|]. intros result.
        repeat (apply answers_bind; [apply answers_lift|]; intros ?).
        now apply answers_ret. }
  destruct (Hbody s) as ([response|e] & s' & -> & Hstatus).
  - exists response, s'. split; [reflexivity|]. left. now apply Hstatus.
  - unfold retP. eexists _, _. split; [reflexivity|]. right. reflexivity.
Qed.

End Handler.

(** The event of an object put in the bucket of raw data. *)
Definition s3_event (bucket key : jsstring) : json :=
  JObj [(lit "Records",
         JArr [JObj [(lit "s3",
                      JObj [(lit "bucket", JObj [(lit "name", JStr bucket)]);
                            (lit "object", JObj [(lit "key", JStr key)])])]])].

Definition partial_answer : http_response :=
  DataProcessor.plain_response 200
    (JObj [(lit "success", JBool false);
           (lit "recordsProcessed", JNum 0);
           (lit "databaseConnected", JBool false);
           (lit "message", JStr (lit "Pipeline partially working"))]).

Section Ingestion.
Variable string_exceeds : jsstring -> Z -> bool.
Variable decodeURIComponent : jsstring -> outcome jsstring.
Variable getObject : option json -> jsstring -> outcome jsstring.

(** X27. The handler of the ingestion Lambda answers with status 200 also
    when nothing was inserted: for the event of an object whose records were
    read and mapped, when [bulkInsertEntities] reports a failure the
    response has status 200 and the body [success: false, recordsProcessed:
    0, databaseConnected: false] with the message [Pipeline partially
    working]. *)
Theorem ingestion_answers_200_when_nothing_is_inserted
        (bucket key decoded content message : jsstring) (data : json)
        (records entities : list json) (s s' : state) :
  decodeURIComponent (List.map (fun c => if (c =? 43)%N then 32%N else c) key)
  = Return decoded ->
  getObject (Some (JStr bucket)) decoded = Return content ->
  JSON_parse content = Some data ->
  DataProcessor.records_of data = Return records ->
  DataProcessor.map_to_canonical string_exceeds records
    (if includes decoded (lit "crm") then lit "crm" else lit "erp") = Return entities ->
  DataProcessor.bulkInsertEntities entities (DataProcessor.new_DatabaseService s)
  = Some (Return (not_ingested message), s') ->
  DataProcessor.handler string_exceeds decodeURIComponent getObject (s3_event bucket key) s
  = Some (Return partial_answer, s').
Proof.
  intros Hdecode Hget Hparse Hrecords Hmap Hinsert.
  set (object := JObj [(lit "key", JStr key)]).
  set (holder := JObj [(lit "name", JStr bucket)]).
  set (s3 := JObj [(lit "bucket", holder); (lit "object", object)]).
  set (record := JObj [(lit "s3", s3)]).
  assert (Hquery : get_member (s3_event bucket key) (lit "query") = Return None)
    by reflexivity.
  assert (Hrecs : get_member (s3_event bucket key) (lit "Records")
                  = Return (Some (JArr [record]))) by reflexivity.
  assert (Hs3 : DataProcessor.read (Some record) (lit "s3") = Return (Some s3))
    by reflexivity.
  assert (Hholder : DataProcessor.read (Some s3) (lit "bucket") = Return (Some holder))
    by reflexivity.
  assert (Hname : DataProcessor.read (Some holder) (lit "name")
                  = Return (Some (JStr bucket))) by reflexivity.
  assert (Hobject : DataProcessor.read (Some s3) (lit "object") = Return (Some object))
    by reflexivity.
  assert (Hkey : DataProcessor.read (Some object) (lit "key") = Return (Some (JStr key)))
    by reflexivity.
  assert (Hresult : forall k,
             get_member (not_ingested message) k
             = Return (lookup_prop k [(lit "success", JBool false); (lit "count", JNum 0);
                                      (lit "connected", JBool false);
                                      (lit "error", JStr message)])) by reflexivity.
  unfold DataProcessor.handler, catchP, DataProcessor.handler_body.
  unfold bindP at 1, liftP at 1. rewrite Hquery. cbn [truthy].
  unfold bindP at 1, liftP at 1. rewrite Hrecs.
  change (DataProcessor.no_records (Some (JArr [record]))) with false.
  cbv iota zeta. change (DataProcessor.first_record (Some (JArr [record]))) with (Some record).
  unfold bindP at 1, liftP at 1. rewrite Hs3.
  unfold bindP at 1, liftP at 1. rewrite Hholder.
  unfold bindP at 1, liftP at 1. rewrite Hname.
  unfold bindP at 1, liftP at 1. rewrite Hobject.
  unfold bindP at 1, liftP at 1. rewrite Hkey.
  unfold bindP at 1, liftP at 1. cbn [DataProcessor.replace_plus].
  unfold bindP at 1, liftP at 1. rewrite Hdecode.
  unfold bindP at 1, liftP at 1. rewrite Hget.
  unfold bindP at 1, liftP at 1. unfold JSON_parse_or_throw. rewrite Hparse.
  unfold bindP at 1, liftP at 1. rewrite Hrecords.
  unfold bindP at 1, liftP at 1. rewrite Hmap.
  unfold bindP at 1. rewrite Hinsert.
  unfold bindP, liftP, retP. rewrite !Hresult. reflexivity.
Qed.
End Ingestion.

Lemma ingestion_insert_witness :
  exists s',
    DataProcessor.bulkInsertEntities sample_entities accepting_state
    = Some (Return (ingested 3), s').
Proof.
  destruct (ingestion_insert_every_entity sample_entities accepting_state)
    as (s' & Hrun & _).
  - intros history r. eexists. reflexivity.
  - repeat constructor; discriminate.
  - exists s'. exact Hrun.
Defined.

(** A file of one record, and a database that gives out a pool and then
    refuses every statement. *)
Definition raw_file : jsstring :=
  JSON_stringify
    (JObj [(lit "records",
            JArr [JObj [(lit "id", JNum 1);
                        (lit "company_name", JStr (lit "Acme"));
                        (lit "annual_revenue", JNum 2000000)]])]).

Definition unreachable_database (history : list request) (r : request)
  : outcome pg_result :=
  match r with
  | CreatePool => Return (mkResult None None)
  | _ => Throw (new_Error (lit "connect ETIMEDOUT"))
  end.

Definition unreachable_state : state := mkState unreachable_database [] false.

Lemma ingestion_answers_200_witness :
  DataProcessor.handler (fun _ _ => false) (fun key => Return key)
                        (fun _ _ => Return raw_file)
                        (s3_event (lit "raw-data") (lit "crm-data/customers.json"))
                        unreachable_state
  = Some (Return partial_answer,
          mkState unreachable_database [connection_test; CreatePool] true).
Proof.
  eapply (ingestion_answers_200_when_nothing_is_inserted
            (fun _ _ => false) (fun key => Return key) (fun _ _ => Return raw_file)
            (lit "raw-data") (lit "crm-data/customers.json")
            (lit "crm-data/customers.json") raw_file (lit "connect ETIMEDOUT"));
    reflexivity.
Defined.
